(** * CaseCraft brainstorm canvas: the force-directed mind map engine

    A shallow embedding of [components/BrainstormCanvas.tsx] (the physics
    loop, the pointer and wheel handlers, the text layout and the expansion
    orchestrator) and of [expandBrainstormNode] from
    [services/geminiService.ts], followed by the properties the
    specification states about them and by further properties of the
    code.

    Conventions of the embedding.
    - A JavaScript [number] is an IEEE 754 binary64 value: [spec_float] with
      the operations of the Standard Library's [SpecFloat] at precision 53.
    - A JavaScript string is the list of its UTF-16 code units.
    - Node objects are mutable and shared (the store array, [dragNode], the
      published array and the closures of pending expansions all hold
      references to them), so they live in an object heap and everything
      else holds addresses.
    - An [async] function is cut at its [await]: the part before it returns
      the suspended call, the part after it is a function of the state at
      the time the awaited promise settles.
    - Of the drawing code only the text layout is embedded.

    Besides the engine, the file embeds the restoration of a published
    graph from the props, the list of marked nodes the [App] hands to the
    studio, and from the service [analyzeStartImage] and the MIME
    detection of [urlToData]. *)

From Stdlib Require Import ZArith NArith Bool Lia Ascii DecimalString.
From Stdlib Require Import Floats.SpecFloat.
From stdpp Require Import base option list numbers strings.

Set Default Proof Using "Type".
Open Scope Z_scope.

(** ** JavaScript numbers *)

Module Num.

Definition prec : Z := 53.
Definition emax : Z := 1024.

Abbreviation number := spec_float.

Definition NaN : number := S754_nan.
Definition pInf : number := S754_infinity false.
Definition nInf : number := S754_infinity true.

(** An integer literal or an integer converted to a number. *)
Definition ofZ (z : Z) : number := binary_normalize prec emax z 0 false.

Definition add : number -> number -> number := SFadd prec emax.
Definition sub : number -> number -> number := SFsub prec emax.
Definition mul : number -> number -> number := SFmul prec emax.
Definition div : number -> number -> number := SFdiv prec emax.
Definition sqrt : number -> number := SFsqrt prec emax.
Definition neg : number -> number := SFopp.

(** A decimal literal [n / d] with [d] a power of ten: the binary64 value
    nearest to the quotient, which is what the correctly rounded division
    of the two exactly representable integers gives. *)
Definition dec (n d : Z) : number := div (ofZ n) (ofZ d).

Definition lt (a b : number) : bool := SFltb a b.
Definition le (a b : number) : bool := SFleb a b.
Definition gt (a b : number) : bool := SFltb b a.

Definition isNaN (x : number) : bool :=
  match x with S754_nan => true | _ => false end.

(** [ToBoolean] on a number: zero (of either sign) and NaN are falsy. *)
Definition truthy (x : number) : bool :=
  match x with
  | S754_zero _ | S754_nan => false
  | _ => true
  end.

(** [x || d] on numbers. *)
Definition or_else (x d : number) : number := if truthy x then x else d.

(** [Math.min] and [Math.max] as ECMAScript defines them: NaN is
    contagious, the scan starts from the infinity, and [-0 < +0]. *)
Definition min_step (lowest x : number) : number :=
  if isNaN lowest || isNaN x then NaN
  else match x, lowest with
       | S754_zero true, S754_zero false => x
       | _, _ => if lt x lowest then x else lowest
       end.

Definition max_step (highest x : number) : number :=
  if isNaN highest || isNaN x then NaN
  else match x, highest with
       | S754_zero false, S754_zero true => x
       | _, _ => if gt x highest then x else highest
       end.

Definition Math_min (a b : number) : number := min_step (min_step pInf a) b.
Definition Math_max (a b : number) : number := max_step (max_step nInf a) b.

(** [x ** 2], taken to be the correctly rounded square. *)
Definition sq (x : number) : number := mul x x.

End Num.

Abbreviation number := spec_float.

Declare Scope js_scope.
Delimit Scope js_scope with js.
Infix "+" := Num.add : js_scope.
Infix "-" := Num.sub : js_scope.
Infix "*" := Num.mul : js_scope.
Infix "/" := Num.div : js_scope.
Infix "<?" := Num.lt : js_scope.
Infix "<=?" := Num.le : js_scope.
Infix ">?" := Num.gt : js_scope.
Notation "- x" := (Num.neg x) : js_scope.

Arguments Num.ofZ : simpl never.
Arguments Num.dec : simpl never.
Arguments Num.add : simpl never.
Arguments Num.sub : simpl never.
Arguments Num.mul : simpl never.
Arguments Num.div : simpl never.
Arguments Num.sqrt : simpl never.
Arguments Num.lt : simpl never.
Arguments Num.le : simpl never.
Arguments Num.gt : simpl never.
Arguments Num.Math_min : simpl never.
Arguments Num.Math_max : simpl never.

(** ** JavaScript strings *)

Abbreviation jsstring := (list N).

(** An ASCII literal of the source as code units. *)
Fixpoint lit (s : string) : jsstring :=
  match s with
  | EmptyString => []
  | String a s' => N_of_ascii a :: lit s'
  end.

(** [`${n}`] for an integral number [n]. *)
Definition decimal (z : Z) : jsstring := lit (NilZero.string_of_int (Z.to_int z)).

Arguments lit : simpl never.
Arguments decimal : simpl never.

Definition str_eqb (a b : jsstring) : bool := bool_decide (a = b).

(** [WhiteSpace] and [LineTerminator] code units, the ones [trim] strips. *)
Definition is_whitespace (c : N) : bool :=
  bool_decide (c ∈ [9; 10; 11; 12; 13; 32; 160; 5760; 8232; 8233; 8239; 8287;
                    12288; 65279]%N)
  || (8192 <=? c)%N && (c <=? 8202)%N.

Fixpoint trimStart (s : jsstring) : jsstring :=
  match s with
  | c :: s' => if is_whitespace c then trimStart s' else s
  | [] => []
  end.

Definition trim (s : jsstring) : jsstring :=
  reverse (trimStart (reverse (trimStart s))).

(** [s.split(' ')]: every space separates, so the result is never empty. *)
Fixpoint split_space (s : jsstring) : list jsstring :=
  match s with
  | [] => [[]]
  | c :: s' =>
      if (c =? 32)%N then [] :: split_space s'
      else match split_space s' with
           | w :: ws => (c :: w) :: ws
           | [] => [[c]]
           end
  end.

(** [a + " " + b]. *)
Definition with_space (a b : jsstring) : jsstring := a ++ 32%N :: b.

(** ** Data model *)

Inductive NodeType := Text | Image.
Inductive AssociationType := Up | Side | Down | Root.

Global Instance NodeType_eq_dec : EqDecision NodeType.
Proof. solve_decision. Defined.
Global Instance AssociationType_eq_dec : EqDecision AssociationType.
Proof. solve_decision. Defined.

(** The tag as it is spliced into a child id. *)
Definition tag_string (t : AssociationType) : jsstring :=
  match t with
  | Up => lit "up" | Side => lit "side" | Down => lit "down" | Root => lit "root"
  end.

(** [interface MindMapNode] of [types.ts]. An optional field is an [option];
    [None] is [undefined]. [generationMetadata] is carried by image nodes
    only and read by no operation below; it is left out. [level] holds the
    small integers 0, 1, 2, ... *)
Module MindMapNode.
Record t := mk {
  id : jsstring;
  text : jsstring;
  type : NodeType;
  imageUrl : option jsstring;
  level : Z;
  children : list jsstring;
  parentId : option jsstring;
  isLoading : option bool;
  isSelected : option bool;
  isMarked : option bool;
  associationType : option AssociationType
}.

Definition set_isLoading (v : option bool) (n : t) : t :=
  mk (id n) (text n) (type n) (imageUrl n) (level n) (children n)
     (parentId n) v (isSelected n) (isMarked n) (associationType n).
Definition set_isMarked (v : option bool) (n : t) : t :=
  mk (id n) (text n) (type n) (imageUrl n) (level n) (children n)
     (parentId n) (isLoading n) (isSelected n) v (associationType n).
Definition set_children (v : list jsstring) (n : t) : t :=
  mk (id n) (text n) (type n) (imageUrl n) (level n) v
     (parentId n) (isLoading n) (isSelected n) (isMarked n) (associationType n).
End MindMapNode.

(** [ToBoolean] of an optional flag: [undefined] is falsy. *)
Definition flag (b : option bool) : bool := default false b.

(** [interface PhysicsNode extends MindMapNode]. *)
Module PhysicsNode.
Record t := mk {
  base : MindMapNode.t;
  x : number;
  y : number;
  vx : number;
  vy : number;
  radius : number;
  color : jsstring;
  isDragging : option bool
}.

Definition id (n : t) := MindMapNode.id (base n).
Definition text (n : t) := MindMapNode.text (base n).
Definition type (n : t) := MindMapNode.type (base n).
Definition level (n : t) := MindMapNode.level (base n).
Definition children (n : t) := MindMapNode.children (base n).
Definition parentId (n : t) := MindMapNode.parentId (base n).
Definition isLoading (n : t) := MindMapNode.isLoading (base n).
Definition isMarked (n : t) := MindMapNode.isMarked (base n).
Definition associationType (n : t) := MindMapNode.associationType (base n).

Definition set_base (f : MindMapNode.t -> MindMapNode.t) (n : t) : t :=
  mk (f (base n)) (x n) (y n) (vx n) (vy n) (radius n) (color n) (isDragging n).
Definition set_isLoading (v : bool) : t -> t :=
  set_base (MindMapNode.set_isLoading (Some v)).
Definition set_isMarked (v : bool) : t -> t :=
  set_base (MindMapNode.set_isMarked (Some v)).
Definition set_children (v : list jsstring) : t -> t :=
  set_base (MindMapNode.set_children v).
Definition set_isDragging (v : bool) (n : t) : t :=
  mk (base n) (x n) (y n) (vx n) (vy n) (radius n) (color n) (Some v).
Definition set_pos (x' y' : number) (n : t) : t :=
  mk (base n) x' y' (vx n) (vy n) (radius n) (color n) (isDragging n).
Definition set_vel (vx' vy' : number) (n : t) : t :=
  mk (base n) (x n) (y n) vx' vy' (radius n) (color n) (isDragging n).
End PhysicsNode.

(** [interface PhysicsLink]. *)
Module PhysicsLink.
Record t := mk {
  source : jsstring;
  target : jsstring;
  strength : number
}.
End PhysicsLink.

(** *** Constants *)

Module COLORS.
Definition root : jsstring := lit "#4f46e5".
Definition up : jsstring := lit "#60a5fa".
Definition side : jsstring := lit "#a78bfa".
Definition down : jsstring := lit "#94a3b8".
Definition image : jsstring := lit "#f43f5e".
End COLORS.

Module BASE_RADIUS.
Definition root : number := Num.ofZ 45.
Definition level1 : number := Num.ofZ 35.
Definition normal : number := Num.ofZ 28.
Definition image : number := Num.ofZ 40.
End BASE_RADIUS.

Module PHYSICS.
Definition FRICTION : number := Num.dec 50 100.
Definition REPULSION : number := Num.ofZ 1000.
Definition LINK_STRENGTH : number := Num.dec 8 1000.
Definition LINK_DISTANCE : number := Num.ofZ 260.
Definition CENTER_GRAVITY : number := Num.dec 1 10000.
Definition STOP_THRESHOLD : number := Num.ofZ 2.
End PHYSICS.

(** ** The object heap

    Node objects are allocated once and never freed; an address is the
    index of the object in the heap. *)

Abbreviation ref := nat.
Abbreviation heap := (list PhysicsNode.t).

Definition alloc (h : heap) (n : PhysicsNode.t) : heap * ref :=
  (h ++ [n], length h).

(** [refs.find(n => n.id === i)]: the first object of the array whose id
    is [i]. *)
Fixpoint find_by_id (h : heap) (refs : list ref) (i : jsstring) : option ref :=
  match refs with
  | [] => None
  | r :: refs' =>
      match h !! r with
      | Some n => if str_eqb (PhysicsNode.id n) i then Some r
                  else find_by_id h refs' i
      | None => find_by_id h refs' i
      end
  end.

(** ** [createPhysicsNode] *)

(** The radius and the colour chosen from level, kind and category. *)
Definition baseStyle (node : MindMapNode.t) : number * jsstring :=
  if (MindMapNode.level node =? 0)%Z then (BASE_RADIUS.root, COLORS.root)
  else if bool_decide (MindMapNode.type node = Image)
       then (BASE_RADIUS.image, COLORS.image)
  else if bool_decide (MindMapNode.associationType node = Some Up)
       then (BASE_RADIUS.normal, COLORS.up)
  else if bool_decide (MindMapNode.associationType node = Some Side)
       then (BASE_RADIUS.normal, COLORS.side)
  else (BASE_RADIUS.normal, COLORS.down).

(** The adaptive radius: labels of more than six code units grow the
    circle, up to 90. *)
Definition adaptiveRadius (r : number) (textLen : nat) : number :=
  if (6 <? textLen)%nat then
    let growth := (Num.sqrt (Num.ofZ (Z.of_nat textLen)) * Num.ofZ 6)%js in
    Num.Math_min (r + growth)%js (Num.ofZ 90)
  else r.

Definition createPhysicsNode (node : MindMapNode.t) (x y : number)
  : PhysicsNode.t :=
  let style := baseStyle node in
  let r := adaptiveRadius (fst style) (length (MindMapNode.text node)) in
  PhysicsNode.mk node x y (Num.ofZ 0) (Num.ofZ 0) r (snd style) None.

Arguments baseStyle : simpl never.
Arguments adaptiveRadius : simpl never.

(** ** Component state

    The refs and the React state of [BrainstormCanvas] that the engine reads
    or writes, the object heap, and what leaves the component: the node
    arrays handed to [setNodes]. *)

Module Transform.
Record t := mk { x : number; y : number; k : number }.
Definition identity : t := mk (Num.ofZ 0) (Num.ofZ 0) (Num.ofZ 1).
End Transform.

Module Point.
Record t := mk { x : number; y : number }.
End Point.

Inductive ToastType := Warning | Error.

Module Toast.
Record t := mk { message : jsstring; type : ToastType }.
End Toast.

Inductive Cursor := CursorPointer | CursorGrab | CursorGrabbing.

Module State.
Record t := mk {
  objects : heap;
  nodesRef : list ref;
  linksRef : list PhysicsLink.t;
  transformRef : Transform.t;
  simulationActiveRef : bool;
  isDragging : bool;
  dragNode : option ref;
  lastMousePos : Point.t;
  startDragPos : Point.t;
  cursor : option Cursor;
  isInitializing : bool;
  infoNode : option ref;
  toast : option Toast.t;
  (** the delay of the pending [setTimeout] of the toast effect *)
  toastTimer : option Z;
  tick : nat;
  (** the arguments of the [setNodes] calls so far, latest first *)
  published : list (list ref)
}.

Definition set_objects v (st : t) : t :=
  mk v (nodesRef st) (linksRef st) (transformRef st)
     (simulationActiveRef st) (isDragging st) (dragNode st)
     (lastMousePos st) (startDragPos st) (cursor st) (isInitializing st)
     (infoNode st) (toast st) (toastTimer st) (tick st) (published st).
Definition set_nodesRef v (st : t) : t :=
  mk (objects st) v (linksRef st) (transformRef st) (simulationActiveRef st)
     (isDragging st) (dragNode st) (lastMousePos st) (startDragPos st)
     (cursor st) (isInitializing st) (infoNode st) (toast st)
     (toastTimer st) (tick st) (published st).
Definition set_linksRef v (st : t) : t :=
  mk (objects st) (nodesRef st) v (transformRef st) (simulationActiveRef st)
     (isDragging st) (dragNode st) (lastMousePos st) (startDragPos st)
     (cursor st) (isInitializing st) (infoNode st) (toast st)
     (toastTimer st) (tick st) (published st).
Definition set_transformRef v (st : t) : t :=
  mk (objects st) (nodesRef st) (linksRef st) v (simulationActiveRef st)
     (isDragging st) (dragNode st) (lastMousePos st) (startDragPos st)
     (cursor st) (isInitializing st) (infoNode st) (toast st)
     (toastTimer st) (tick st) (published st).
Definition set_simulationActiveRef v (st : t) : t :=
  mk (objects st) (nodesRef st) (linksRef st) (transformRef st) v
     (isDragging st) (dragNode st) (lastMousePos st) (startDragPos st)
     (cursor st) (isInitializing st) (infoNode st) (toast st)
     (toastTimer st) (tick st) (published st).
Definition set_isDragging v (st : t) : t :=
  mk (objects st) (nodesRef st) (linksRef st) (transformRef st)
     (simulationActiveRef st) v (dragNode st) (lastMousePos st)
     (startDragPos st) (cursor st) (isInitializing st) (infoNode st)
     (toast st) (toastTimer st) (tick st) (published st).
Definition set_dragNode v (st : t) : t :=
  mk (objects st) (nodesRef st) (linksRef st) (transformRef st)
     (simulationActiveRef st) (isDragging st) v (lastMousePos st)
     (startDragPos st) (cursor st) (isInitializing st) (infoNode st)
     (toast st) (toastTimer st) (tick st) (published st).
Definition set_lastMousePos v (st : t) : t :=
  mk (objects st) (nodesRef st) (linksRef st) (transformRef st)
     (simulationActiveRef st) (isDragging st) (dragNode st) v
     (startDragPos st) (cursor st) (isInitializing st) (infoNode st)
     (toast st) (toastTimer st) (tick st) (published st).
Definition set_startDragPos v (st : t) : t :=
  mk (objects st) (nodesRef st) (linksRef st) (transformRef st)
     (simulationActiveRef st) (isDragging st) (dragNode st)
     (lastMousePos st) v (cursor st) (isInitializing st) (infoNode st)
     (toast st) (toastTimer st) (tick st) (published st).
Definition set_cursor v (st : t) : t :=
  mk (objects st) (nodesRef st) (linksRef st) (transformRef st)
     (simulationActiveRef st) (isDragging st) (dragNode st)
     (lastMousePos st) (startDragPos st) v (isInitializing st) (infoNode st)
     (toast st) (toastTimer st) (tick st) (published st).
Definition set_isInitializing v (st : t) : t :=
  mk (objects st) (nodesRef st) (linksRef st) (transformRef st)
     (simulationActiveRef st) (isDragging st) (dragNode st)
     (lastMousePos st) (startDragPos st) (cursor st) v (infoNode st)
     (toast st) (toastTimer st) (tick st) (published st).
Definition set_infoNode v (st : t) : t :=
  mk (objects st) (nodesRef st) (linksRef st) (transformRef st)
     (simulationActiveRef st) (isDragging st) (dragNode st)
     (lastMousePos st) (startDragPos st) (cursor st) (isInitializing st) v
     (toast st) (toastTimer st) (tick st) (published st).
Definition set_tick v (st : t) : t :=
  mk (objects st) (nodesRef st) (linksRef st) (transformRef st)
     (simulationActiveRef st) (isDragging st) (dragNode st)
     (lastMousePos st) (startDragPos st) (cursor st) (isInitializing st)
     (infoNode st) (toast st) (toastTimer st) v (published st).
Definition set_published v (st : t) : t :=
  mk (objects st) (nodesRef st) (linksRef st) (transformRef st)
     (simulationActiveRef st) (isDragging st) (dragNode st)
     (lastMousePos st) (startDragPos st) (cursor st) (isInitializing st)
     (infoNode st) (toast st) (toastTimer st) (tick st) v.
Definition set_toast_fields v w (st : t) : t :=
  mk (objects st) (nodesRef st) (linksRef st) (transformRef st)
     (simulationActiveRef st) (isDragging st) (dragNode st)
     (lastMousePos st) (startDragPos st) (cursor st) (isInitializing st)
     (infoNode st) v w (tick st) (published st).

(** The component as it is mounted with no nodes in its props. *)
Definition initial : t :=
  mk [] [] [] Transform.identity true false None
     (Point.mk (Num.ofZ 0) (Num.ofZ 0)) (Point.mk (Num.ofZ 0) (Num.ofZ 0))
     None false None None None 0%nat [].
End State.

(** [obj.field = ...] on the object at address [r]. *)
Definition mutate (r : ref) (f : PhysicsNode.t -> PhysicsNode.t)
    (st : State.t) : State.t :=
  State.set_objects (alter f r (State.objects st)) st.

Definition deref (st : State.t) (r : ref) : option PhysicsNode.t :=
  State.objects st !! r.

(** *** Notifications

    [setToast] and the toast effect: whenever the toast becomes a (new)
    object the effect arms a timer of 4000 ms, cancelling the previous one;
    when the timer fires it calls [setToast(null)]. *)

Definition TOAST_DELAY : Z := 4000.

Definition setToast (v : option Toast.t) (st : State.t) : State.t :=
  State.set_toast_fields v (match v with Some _ => Some TOAST_DELAY | None => None end) st.

Definition toastTimerFires (st : State.t) : State.t :=
  match State.toastTimer st with
  | Some _ => setToast None st
  | None => st
  end.

Definition setTick (st : State.t) : State.t :=
  State.set_tick (S (State.tick st)) st.

(** *** [syncNodesToGlobal]: [setNodes([...nodesRef.current])] *)

Definition syncNodesToGlobal (st : State.t) : State.t :=
  State.set_published (State.nodesRef st :: State.published st) st.

(** [handleGoToStudio]; the navigation signal itself leaves the component. *)
Definition handleGoToStudio (st : State.t) : State.t := syncNodesToGlobal st.

(** ** Expansion orchestrator *)

(** What the Expansion Provider hands back. A group that is missing or
    falsy is [None] (the code reads it as [group || []]). *)
Module AssociationResponse.
Record t := mk {
  up : option (list jsstring);
  side : option (list jsstring);
  down : option (list jsstring)
}.
Definition empty : t := mk (Some []) (Some []) (Some []).
End AssociationResponse.

(** How the awaited provider promise settles, as the [try] block of
    [expandNode] sees it: a response; an error thrown inside the block (the
    promise rejects, or reading the resolved value throws) of which
    [message] is what [`${e.message}`] gives in the [catch]; or a rejection
    whose reason is [null] or [undefined], on which reading [e.message]
    throws in its turn. *)
Inductive Outcome :=
  | Resolved (result : AssociationResponse.t)
  | Threw (message : jsstring)
  | ThrewNullish.

(** The host functions a completion calls: the [n]-th [Date.now()], the
    [n]-th [Math.random()], and [Math.cos] / [Math.sin], which ECMAScript
    leaves implementation-approximated. *)
Module Env.
Record t := mk {
  now : nat -> Z;
  random : nat -> number;
  cos : number -> number;
  sin : number -> number
}.
End Env.

Definition Math_PI : number := S754_finite false 7074237752028440 (-51).

Definition msg_nothing_found : jsstring :=
  [27809; 26377; 32852; 24819; 20986; 26032; 35789; 27719]%N.
Definition msg_expand_failed_prefix : jsstring :=
  [25193; 23637; 22833; 36133; 58; 32]%N.
Definition msg_init_failed : jsstring :=
  [21021; 22987; 21270; 22833; 36133]%N.

(** [expandNode], up to the [await]. [Some cur] means the provider has been
    called for the object [cur] and the call is outstanding. *)
Definition expandNode_begin (node : ref) (st : State.t)
  : State.t * option ref :=
  match deref st node with
  | None => (st, None)
  | Some arg =>
      match find_by_id (State.objects st) (State.nodesRef st)
                       (PhysicsNode.id arg) with
      | None => (st, None)
      | Some cur =>
          match deref st cur with
          | None => (st, None)
          | Some currentNode =>
              let hasChildren :=
                existsb (fun l => str_eqb (PhysicsLink.source l)
                                          (PhysicsNode.id currentNode))
                        (State.linksRef st) in
              if flag (PhysicsNode.isLoading currentNode) || hasChildren
              then (st, None)
              else
                let st := mutate cur (PhysicsNode.set_isLoading true) st in
                let st := State.set_simulationActiveRef true st in
                (setTick st, Some cur)
          end
      end
  end.

(** [processGroup]: the node data of one group. [k] counts the calls of
    [Date.now()] made so far in this completion. *)
Fixpoint processGroup (env : Env.t) (parent : PhysicsNode.t)
    (type : AssociationType) (idx k : nat) (texts : list jsstring)
  : list MindMapNode.t :=
  match texts with
  | [] => []
  | text :: texts' =>
      MindMapNode.mk
        (PhysicsNode.id parent ++ lit "-" ++ tag_string type ++ lit "-"
           ++ decimal (Z.of_nat idx) ++ lit "-" ++ decimal (Env.now env k))
        text Text None (PhysicsNode.level parent + 1) []
        (Some (PhysicsNode.id parent)) None None None (Some type)
      :: processGroup env parent type (S idx) (S k) texts'
  end.

Definition newNodesData (env : Env.t) (parent : PhysicsNode.t)
    (result : AssociationResponse.t) : list MindMapNode.t :=
  let up := default [] (AssociationResponse.up result) in
  let side := default [] (AssociationResponse.side result) in
  let down := default [] (AssociationResponse.down result) in
  processGroup env parent Up 0 0 up
  ++ processGroup env parent Side 0 (length up) side
  ++ processGroup env parent Down 0 (length up + length side) down.

(** The spawn position of the [i]-th of [total] children. *)
Definition spawn (env : Env.t) (parent : PhysicsNode.t) (total i : nat)
  : number * number :=
  let angle :=
    ((Num.ofZ (Z.of_nat i) / Num.ofZ (Z.of_nat total)) * Math_PI * Num.ofZ 2
     + Env.random env i * Num.dec 5 10)%js in
  let spawnDist := (PHYSICS.LINK_DISTANCE * Num.dec 8 10)%js in
  ((PhysicsNode.x parent + Env.cos env angle * spawnDist)%js,
   (PhysicsNode.y parent + Env.sin env angle * spawnDist)%js).

Arguments spawn : simpl never.

(** [newNodesData.map((n, i) => createPhysicsNode(n, x, y))]: the new
    objects are allocated in order. *)
Fixpoint newPNodes (env : Env.t) (parent : PhysicsNode.t) (total i : nat)
    (data : list MindMapNode.t) (h : heap) : heap * list ref :=
  match data with
  | [] => (h, [])
  | n :: data' =>
      let pos := spawn env parent total i in
      let '(h, r) := alloc h (createPhysicsNode n (fst pos) (snd pos)) in
      let '(h, rs) := newPNodes env parent total (S i) data' h in
      (h, r :: rs)
  end.

(** The body of the [try] block after the [await]. *)
Definition applyResult (env : Env.t) (cur : ref)
    (result : AssociationResponse.t) (st : State.t) : State.t :=
  match deref st cur with
  | None => st
  | Some currentNode =>
      let data := newNodesData env currentNode result in
      let st := if (length data =? 0)%nat
                then setToast (Some (Toast.mk msg_nothing_found Warning)) st
                else st in
      let '(h, refs) :=
        newPNodes env currentNode (length data) 0 data (State.objects st) in
      let newLinks :=
        map (fun n => PhysicsLink.mk (PhysicsNode.id currentNode)
                                     (MindMapNode.id n) (Num.ofZ 1)) data in
      let st := State.set_objects h st in
      let st := State.set_nodesRef (State.nodesRef st ++ refs) st in
      let st := State.set_linksRef (State.linksRef st ++ newLinks) st in
      mutate cur (PhysicsNode.set_children (map MindMapNode.id data)) st
  end.

(** [expandNode], from the settlement of the provider promise on: the
    [try] body or the [catch], then the [finally]. [cur] is the
    [currentNode] the closure captured before the call. On a reason that is
    [null] or [undefined] the [catch] throws while it builds the message,
    before [setToast] is called; the [finally] runs all the same. *)
Definition expandNode_complete (env : Env.t) (cur : ref) (o : Outcome)
    (st : State.t) : State.t :=
  let st :=
    match o with
    | Resolved result => applyResult env cur result st
    | Threw message =>
        setToast (Some (Toast.mk (msg_expand_failed_prefix ++ message) Error)) st
    | ThrewNullish => st
    end in
  let st := mutate cur (PhysicsNode.set_isLoading false) st in
  syncNodesToGlobal st.

(** Whether the promise of [expandNode] rejects: it does when its [catch]
    has thrown. A rejection reaches the [catch] of [startRoot]; after a
    click nothing handles it. *)
Definition expandNode_rejects (o : Outcome) : bool :=
  match o with
  | ThrewNullish => true
  | Resolved _ | Threw _ => false
  end.

(** The [finally] of [startRoot]. *)
Definition startRoot_finally (st : State.t) : State.t :=
  syncNodesToGlobal (State.set_isInitializing false st).

(** [startRoot], up to the [await] inside [expandNode]. [now] is the
    [Date.now()] of the root id. *)
Definition startRoot_begin (text : jsstring) (now : Z) (st : State.t)
  : State.t * option ref :=
  if bool_decide (trim text = []) then (st, None)
  else
    let st := State.set_isInitializing true st in
    let st := State.set_nodesRef [] st in
    let st := State.set_linksRef [] st in
    let st := State.set_transformRef Transform.identity st in
    let st := State.set_simulationActiveRef true st in
    let rootNodeData :=
      MindMapNode.mk (lit "root-" ++ decimal now) text Text None 0 [] None
                     (Some false) (Some true) None (Some Root) in
    let '(h, rootPNode) :=
      alloc (State.objects st)
            (createPhysicsNode rootNodeData (Num.ofZ 0) (Num.ofZ 0)) in
    let st := State.set_objects h st in
    let st := State.set_nodesRef [rootPNode] st in
    match expandNode_begin rootPNode st with
    | (st, Some cur) => (st, Some cur)
    | (st, None) => (startRoot_finally st, None)
    end.

(** The [catch] of [startRoot]; [rootPNode] is the root object. *)
Definition startRoot_catch (rootPNode : ref) (st : State.t) : State.t :=
  let st := mutate rootPNode (PhysicsNode.set_isLoading false) st in
  setToast (Some (Toast.mk msg_init_failed Error)) st.

(** [startRoot], from the settlement of the provider promise on: the rest
    of [expandNode], the [catch] if [expandNode] rejects, and the
    [finally]. The store held the root alone when [expandNode] looked the
    root up, so the node [cur] it captured is the root object. *)
Definition startRoot_complete (env : Env.t) (cur : ref) (o : Outcome)
    (st : State.t) : State.t :=
  let st := expandNode_complete env cur o st in
  let st := if expandNode_rejects o then startRoot_catch cur st else st in
  startRoot_finally st.

(** ** Interaction controller *)

(** The fields of a mouse event the handlers read. *)
Module MouseEvent.
Record t := mk { clientX : number; clientY : number; shiftKey : bool }.
End MouseEvent.

(** The canvas element: [getBoundingClientRect()] and the size of its
    bitmap. The handlers are attached to the canvas, so [canvasRef.current]
    is set whenever one of them runs. *)
Module Canvas.
Record t := mk { left : number; top : number; width : number; height : number }.
End Canvas.

Definition getWorldPos (canvas : Canvas.t) (e : MouseEvent.t) (st : State.t)
  : Point.t :=
  let rawX := (MouseEvent.clientX e - Canvas.left canvas
               - Canvas.width canvas / Num.ofZ 2)%js in
  let rawY := (MouseEvent.clientY e - Canvas.top canvas
               - Canvas.height canvas / Num.ofZ 2)%js in
  let t := State.transformRef st in
  Point.mk ((rawX - Transform.x t) / Transform.k t)%js
           ((rawY - Transform.y t) / Transform.k t)%js.

(** [dist <= node.radius] for the cursor at [pos]. *)
Definition hits (pos : Point.t) (node : PhysicsNode.t) : bool :=
  let dist := Num.sqrt (Num.sq (Point.x pos - PhysicsNode.x node)%js
                        + Num.sq (Point.y pos - PhysicsNode.y node)%js)%js in
  (dist <=? PhysicsNode.radius node)%js.

(** The hit test: the array is scanned from its last element down. *)
Definition hitTest (pos : Point.t) (st : State.t) : option ref :=
  List.find (fun r => match deref st r with
                      | Some node => hits pos node
                      | None => false
                      end)
            (reverse (State.nodesRef st)).

Definition handleMouseDown (canvas : Canvas.t) (e : MouseEvent.t)
    (st : State.t) : State.t :=
  let pos := getWorldPos canvas e st in
  let here := Point.mk (MouseEvent.clientX e) (MouseEvent.clientY e) in
  let st := State.set_lastMousePos here st in
  let st := State.set_startDragPos here st in
  match hitTest pos st with
  | Some node =>
      let st := State.set_isDragging true st in
      let st := State.set_dragNode (Some node) st in
      let st := mutate node (PhysicsNode.set_isDragging true) st in
      State.set_simulationActiveRef true st
  | None =>
      let st := State.set_isDragging true st in
      State.set_dragNode None st
  end.

Definition handleMouseMove (canvas : Canvas.t) (e : MouseEvent.t)
    (st : State.t) : State.t :=
  if negb (State.isDragging st) then
    let pos := getWorldPos canvas e st in
    State.set_cursor
      (Some (match hitTest pos st with
             | Some _ => CursorPointer
             | None => CursorGrab
             end)) st
  else
    let st := State.set_cursor (Some CursorGrabbing) st in
    let dx := (MouseEvent.clientX e - Point.x (State.lastMousePos st))%js in
    let dy := (MouseEvent.clientY e - Point.y (State.lastMousePos st))%js in
    let st := State.set_lastMousePos
                (Point.mk (MouseEvent.clientX e) (MouseEvent.clientY e)) st in
    match State.dragNode st with
    | Some node =>
        let t := State.transformRef st in
        let st := mutate node
                    (fun n => PhysicsNode.set_pos
                                (PhysicsNode.x n + dx / Transform.k t)%js
                                (PhysicsNode.y n + dy / Transform.k t)%js n) st in
        let st := mutate node (PhysicsNode.set_vel (Num.ofZ 0) (Num.ofZ 0)) st in
        State.set_simulationActiveRef true st
    | None =>
        let t := State.transformRef st in
        State.set_transformRef
          (Transform.mk (Transform.x t + dx)%js (Transform.y t + dy)%js
                        (Transform.k t)) st
    end.

Definition CLICK_THRESHOLD : number := Num.ofZ 5.

(** The displacement of the pointer since the pointer-down. *)
Definition moveDist (e : MouseEvent.t) (st : State.t) : number :=
  Num.sqrt (Num.sq (MouseEvent.clientX e - Point.x (State.startDragPos st))%js
            + Num.sq (MouseEvent.clientY e - Point.y (State.startDragPos st))%js)%js.

(** [handleMouseUp] (also the [onMouseLeave] handler), up to the [await]
    inside [expandNode]; nothing follows that [await] in the handler. *)
Definition handleMouseUp (e : MouseEvent.t) (st : State.t)
  : State.t * option ref :=
  let st := State.set_isDragging false st in
  let st := State.set_cursor (Some CursorGrab) st in
  match State.dragNode st with
  | None => (st, None)
  | Some node =>
      let st := mutate node (PhysicsNode.set_isDragging false) st in
      let st := State.set_dragNode None st in
      if (moveDist e st <? CLICK_THRESHOLD)%js then
        if MouseEvent.shiftKey e then
          let st := mutate node
                      (fun n => PhysicsNode.set_isMarked
                                  (negb (flag (PhysicsNode.isMarked n))) n) st in
          let st := syncNodesToGlobal st in
          (setTick st, None)
        else if bool_decide (PhysicsNode.type <$> deref st node = Some Image) then
          (State.set_infoNode (Some node) st, None)
        else expandNode_begin node st
      else (st, None)
  end.

(** *** Viewport: wheel and the toolbar buttons *)

Definition ZOOM_MIN : number := Num.dec 1 10.
Definition ZOOM_MAX : number := Num.ofZ 5.

Definition set_scale (k : number) (st : State.t) : State.t :=
  let t := State.transformRef st in
  State.set_transformRef (Transform.mk (Transform.x t) (Transform.y t) k) st.

Definition scale (st : State.t) : number := Transform.k (State.transformRef st).

Definition handleWheel (deltaY : number) (st : State.t) : State.t :=
  let zoomSensitivity := Num.dec 1 1000 in
  let delta := (- deltaY * zoomSensitivity)%js in
  let newScale := Num.Math_max ZOOM_MIN (Num.Math_min ZOOM_MAX (scale st + delta)%js) in
  set_scale newScale st.

Definition zoomIn (st : State.t) : State.t :=
  set_scale (scale st * Num.dec 12 10)%js st.

Definition zoomOut (st : State.t) : State.t :=
  set_scale (scale st * Num.dec 8 10)%js st.

Definition resetView (st : State.t) : State.t :=
  State.set_transformRef Transform.identity st.

(** ** Text layout engine: [drawWrappedText] *)

Section TextLayout.

(** [ctx.measureText(s).width] under the font set by the caller. *)
Variable measure : jsstring -> number.

(** The character loop: [lines] and [tempLine] are the loop variables. *)
Fixpoint charWrap (maxWidth : number) (chars : jsstring)
    (lines : list jsstring) (tempLine : jsstring) : list jsstring :=
  match chars with
  | [] => lines ++ [tempLine]
  | c :: chars' =>
      if (measure (tempLine ++ [c]) <? maxWidth)%js
      then charWrap maxWidth chars' lines (tempLine ++ [c])
      else charWrap maxWidth chars' (lines ++ [tempLine]) [c]
  end.

(** The word loop over [words[1..]]. *)
Fixpoint wordWrap (maxWidth : number) (words : list jsstring)
    (lines : list jsstring) (currentLine : jsstring) : list jsstring :=
  match words with
  | [] => lines ++ [currentLine]
  | word :: words' =>
      let width := measure (with_space currentLine word) in
      if (width <? maxWidth)%js
      then wordWrap maxWidth words' lines (with_space currentLine word)
      else wordWrap maxWidth words' (lines ++ [currentLine]) word
  end.

Definition wrapLines (text : jsstring) (maxWidth : number) : list jsstring :=
  let words := split_space text in
  let currentLine := hd [] words in
  if (length words =? 1)%nat && (5 <? length text)%nat then
    if (measure text >? maxWidth)%js
    then charWrap maxWidth text [] []
    else [text]
  else wordWrap maxWidth (tl words) [] currentLine.

(** The [fillText] calls, in order: the line and where it is drawn. *)
Definition drawWrappedText (text : jsstring) (x y maxWidth lineHeight : number)
  : list (jsstring * number * number) :=
  let lines := wrapLines text maxWidth in
  let totalHeight := (Num.ofZ (Z.of_nat (length lines)) * lineHeight)%js in
  let startY := (y - totalHeight / Num.ofZ 2 + lineHeight / Num.ofZ 2)%js in
  let startY := (startY + lineHeight * Num.dec 1 10)%js in
  imap (fun i line =>
          (line, x, (startY + Num.ofZ (Z.of_nat i) * lineHeight)%js)) lines.

End TextLayout.

(** ** Force simulation: the physics update of [loop] *)

(** [if (!n.isDragging) { n.vx += ax; n.vy += ay; }] *)
Definition push (ax ay : number) (n : PhysicsNode.t) : PhysicsNode.t :=
  if flag (PhysicsNode.isDragging n) then n
  else PhysicsNode.set_vel (PhysicsNode.vx n + ax)%js (PhysicsNode.vy n + ay)%js n.

(** [if (!n.isDragging) { n.vx -= ax; n.vy -= ay; }] *)
Definition pull (ax ay : number) (n : PhysicsNode.t) : PhysicsNode.t :=
  if flag (PhysicsNode.isDragging n) then n
  else PhysicsNode.set_vel (PhysicsNode.vx n - ax)%js (PhysicsNode.vy n - ay)%js n.

(** *** Repulsion *)

Module Repulsion.

(** The body of the inner loop, for the objects [a = pNodes[i]] and
    [b = pNodes[j]]. *)
Definition repelPair (a b : ref) (h : heap) : heap :=
  match h !! a, h !! b with
  | Some na, Some nb =>
      let dx := (PhysicsNode.x nb - PhysicsNode.x na)%js in
      let dy := (PhysicsNode.y nb - PhysicsNode.y na)%js in
      let distSq := Num.or_else (dx * dx + dy * dy)%js (Num.dec 1 10) in
      let dist := Num.sqrt distSq in
      let minDist :=
        (PhysicsNode.radius na + PhysicsNode.radius nb + Num.ofZ 30)%js in
      if (dist <? minDist * Num.dec 25 10)%js then
        let force := (PHYSICS.REPULSION * Num.ofZ 50 / (distSq + Num.ofZ 100))%js in
        let fx := (dx / dist * force)%js in
        let fy := (dy / dist * force)%js in
        alter (push fx fy) b (alter (pull fx fy) a h)
      else h
  | _, _ => h
  end.

(** The two nested loops: every [a] against every later [b]. *)
Fixpoint repelAll (pNodes : list ref) (h : heap) : heap :=
  match pNodes with
  | [] => h
  | a :: rest =>
      repelAll rest (fold_left (fun h b => repelPair a b h) rest h)
  end.

End Repulsion.

(** *** Spring links *)

Module Spring.

(** The quantities computed for one link from its two endpoints. *)
Definition dx (source target : PhysicsNode.t) : number :=
  (PhysicsNode.x target - PhysicsNode.x source)%js.
Definition dy (source target : PhysicsNode.t) : number :=
  (PhysicsNode.y target - PhysicsNode.y source)%js.
Definition dist (source target : PhysicsNode.t) : number :=
  Num.or_else
    (Num.sqrt (dx source target * dx source target
               + dy source target * dy source target)%js)
    (Num.ofZ 1).
Definition targetDist (source target : PhysicsNode.t) : number :=
  (PHYSICS.LINK_DISTANCE
   + (PhysicsNode.radius source + PhysicsNode.radius target) * Num.dec 5 10)%js.
Definition force (source target : PhysicsNode.t) : number :=
  ((dist source target - targetDist source target) * PHYSICS.LINK_STRENGTH)%js.
Definition fx (source target : PhysicsNode.t) : number :=
  (dx source target / dist source target * force source target)%js.
Definition fy (source target : PhysicsNode.t) : number :=
  (dy source target / dist source target * force source target)%js.

(** The body of [links.forEach]. *)
Definition springLink (pNodes : list ref) (link : PhysicsLink.t) (h : heap)
  : heap :=
  match find_by_id h pNodes (PhysicsLink.source link),
        find_by_id h pNodes (PhysicsLink.target link) with
  | Some s, Some t =>
      match h !! s, h !! t with
      | Some source, Some target =>
          let ax := fx source target in
          let ay := fy source target in
          alter (pull ax ay) t (alter (push ax ay) s h)
      | _, _ => h
      end
  | _, _ => h
  end.

Definition springLinks (pNodes : list ref) (links : list PhysicsLink.t)
    (h : heap) : heap :=
  fold_left (fun h link => springLink pNodes link h) links h.

End Spring.

(** *** Gravity, friction and the sleep check *)

Module Integration.

(** [if (Math.abs(v) < 0.2) v = 0]. *)
Definition snap (v : number) : number :=
  if (SFabs v <? Num.dec 2 10)%js then Num.ofZ 0 else v.

(** The body of the last [forEach] for a node that is not dragged. *)
Definition integrate (n : PhysicsNode.t) : PhysicsNode.t :=
  let vx := (PhysicsNode.vx n
             + (Num.ofZ 0 - PhysicsNode.x n) * PHYSICS.CENTER_GRAVITY)%js in
  let vy := (PhysicsNode.vy n
             + (Num.ofZ 0 - PhysicsNode.y n) * PHYSICS.CENTER_GRAVITY)%js in
  let vx := snap (vx * PHYSICS.FRICTION)%js in
  let vy := snap (vy * PHYSICS.FRICTION)%js in
  PhysicsNode.set_pos (PhysicsNode.x n + vx)%js (PhysicsNode.y n + vy)%js
                      (PhysicsNode.set_vel vx vy n).

(** One node of the last [forEach]: the heap and [totalEnergy] after it. *)
Definition integrateNode (acc : heap * number) (r : ref) : heap * number :=
  let '(h, totalEnergy) := acc in
  match h !! r with
  | Some n =>
      if flag (PhysicsNode.isDragging n) then acc
      else
        let n' := integrate n in
        (<[r := n']> h,
         (totalEnergy + (SFabs (PhysicsNode.vx n') + SFabs (PhysicsNode.vy n')))%js)
  | None => acc
  end.

Definition integrateAll (pNodes : list ref) (h : heap) : heap * number :=
  fold_left integrateNode pNodes (h, Num.ofZ 0).

End Integration.

(** The physics update of one frame. It runs only while the simulation is
    awake or a drag is going on; drawing, which follows it in [loop],
    writes nothing the engine reads. *)
Definition physicsUpdate (st : State.t) : State.t :=
  if State.simulationActiveRef st || State.isDragging st then
    let pNodes := State.nodesRef st in
    let h := Repulsion.repelAll pNodes (State.objects st) in
    let h := Spring.springLinks pNodes (State.linksRef st) h in
    let '(h, totalEnergy) := Integration.integrateAll pNodes h in
    let st := State.set_objects h st in
    let someLoading :=
      existsb (fun r => match h !! r with
                        | Some n => flag (PhysicsNode.isLoading n)
                        | None => false
                        end) pNodes in
    if (totalEnergy <? PHYSICS.STOP_THRESHOLD)%js
       && negb (State.isDragging st) && negb someLoading
    then State.set_simulationActiveRef false st
    else st
  else st.

(** ** The bundled Expansion Provider: [expandBrainstormNode] *)

Module Provider.

(** An error object as [withFallback] reads it: [error.status] and
    [error.message || ""]. *)
Module ApiError.
Record t := mk { status : option Z; message : jsstring }.
End ApiError.

(** A computation that returns or throws. *)
Inductive Result (A : Type) :=
  | Ok (a : A)
  | Throw (e : ApiError.t).
Arguments Ok {A} a.
Arguments Throw {A} e.

(** What [JSON.parse] returned, as the orchestrator will read it: an
    object with (some of) the three groups, or a value on which reading
    the groups throws a [TypeError] with the given message. *)
Inductive JsonShape :=
  | Shaped (r : AssociationResponse.t)
  | IllShaped (typeError : jsstring).

(** How one [generateContent] call ends: it rejects, or it answers with
    [response.text], which may be [undefined]. *)
Inductive CallOutcome :=
  | CallRejects (e : ApiError.t)
  | CallResponds (text : option jsstring).

Fixpoint startsWith (pat s : jsstring) : bool :=
  match pat, s with
  | [], _ => true
  | p :: pat', c :: s' => (p =? c)%N && startsWith pat' s'
  | _ :: _, [] => false
  end.

(** [hay.includes(needle)]. *)
Fixpoint includes (needle hay : jsstring) : bool :=
  startsWith needle hay
  || match hay with
     | [] => false
     | _ :: hay' => includes needle hay'
     end.

(** [s.replace(/pat/g, '')] for a literal, non-empty [pat]: [skip] is the
    number of code units of the current match still to drop. *)
Fixpoint removeAll_go (pat : jsstring) (skip : nat) (s : jsstring) : jsstring :=
  match s with
  | [] => []
  | c :: s' =>
      match skip with
      | S skip' => removeAll_go pat skip' s'
      | O => if startsWith pat s
             then removeAll_go pat (pred (length pat)) s'
             else c :: removeAll_go pat 0 s'
      end
  end.
Definition removeAll (pat s : jsstring) : jsstring := removeAll_go pat 0 s.

Definition fence_json : jsstring := lit "```json".
Definition fence : jsstring := lit "```".

Section Wrapper.

(** [JSON.parse]; a [SyntaxError] is a [Throw]. *)
Variable JSON_parse : jsstring -> Result JsonShape.
(** [String.prototype.toLowerCase] (the Unicode case mapping). *)
Variable toLowerCase : jsstring -> jsstring.

Definition emptyResponse : JsonShape := Shaped AssociationResponse.empty.

Definition cleanText (text : jsstring) : jsstring :=
  trim (removeAll fence (removeAll fence_json text)).

(** [execute(model)] given how the [generateContent] call ends. *)
Definition execute (call : CallOutcome) : Result JsonShape :=
  match call with
  | CallRejects e => Throw e
  | CallResponds None => Ok emptyResponse
  | CallResponds (Some []) => Ok emptyResponse
  | CallResponds (Some text) => JSON_parse (cleanText text)
  end.

(** The test of [withFallback] for switching to the fallback. *)
Definition shouldFallback (error : ApiError.t) : bool :=
  let errorMessage := toLowerCase (ApiError.message error) in
  let status := ApiError.status error in
  let has s := includes (lit s) errorMessage in
  let isPermissionError :=
    bool_decide (status = Some 403) || has "403" || has "permission" in
  let isResourceExhausted := bool_decide (status = Some 429) || has "429" in
  let isServerError :=
    bool_decide (status = Some 500) || has "500" || has "rpc" in
  let isOverloaded :=
    bool_decide (status = Some 503) || has "503" || has "overloaded"
    || has "unavailable" in
  let isLocationError :=
    bool_decide (status = Some 400)
    && (has "location" || has "precondition" || has "region") in
  isPermissionError || isResourceExhausted || isServerError
  || isOverloaded || isLocationError.

(** [withFallback(primaryFn, fallbackFn)]: [fallback] is what
    [fallbackFn] gives if it is run. *)
Definition withFallback {A} (primary fallback : Result A) : Result A :=
  match primary with
  | Ok a => Ok a
  | Throw error => if shouldFallback error then fallback else Throw error
  end.

(** [expandBrainstormNode], given how the call to the first model ends
    and how the call to the fallback model ends (if it is made). The
    prompt sent to the models and the one second pause before the
    fallback have no part in what is returned. *)
Definition expandBrainstormNode (primary secondary : CallOutcome)
  : Result JsonShape :=
  match withFallback (execute primary) (execute secondary) with
  | Ok v => Ok v
  | Throw _ => Ok emptyResponse
  end.

(** How the orchestrator's [await] sees the wrapper's promise. *)
Definition settle (r : Result JsonShape) : Outcome :=
  match r with
  | Ok (Shaped response) => Resolved response
  | Ok (IllShaped typeError) => Threw typeError
  | Throw e => Threw (ApiError.message e)
  end.

End Wrapper.

End Provider.

(** ** Restoration from the props: the first effect of [BrainstormCanvas]

    When the component is mounted with a graph in its props (the App shows
    the canvas again after the key screen), the store is rebuilt from it.
    The props hold the objects published earlier; the spread [...n] copies
    every field of them and [x], [y], [vx], [vy], [radius] and [color] are
    then overwritten, so of the fields beyond [MindMapNode] only
    [isDragging] survives. *)

(** The radius estimated from the restored text. *)
Definition restoredRadius (n : MindMapNode.t) : number :=
  let r := if (MindMapNode.level n =? 0)%Z then BASE_RADIUS.root
           else if bool_decide (MindMapNode.type n = Image) then BASE_RADIUS.image
           else BASE_RADIUS.normal in
  if (6 <? length (MindMapNode.text n))%nat
  then (r + Num.Math_min
              (Num.ofZ (Z.of_nat (length (MindMapNode.text n))) * Num.dec 15 10)
              (Num.ofZ 40))%js
  else r.

Definition restoredColor (n : MindMapNode.t) : jsstring :=
  if (MindMapNode.level n =? 0)%Z then COLORS.root
  else if bool_decide (MindMapNode.associationType n = Some Up) then COLORS.up
  else if bool_decide (MindMapNode.associationType n = Some Side) then COLORS.side
  else COLORS.down.

Arguments restoredRadius : simpl never.
Arguments restoredColor : simpl never.

(** [nodes.map(n => ({ ...n, x: ..., y: ..., ... }))]; [k] counts the calls
    of [Math.random()] made so far. *)
Fixpoint restoreNodes (random : nat -> number) (k : nat)
    (nodes : list PhysicsNode.t) : list PhysicsNode.t :=
  match nodes with
  | [] => []
  | n :: nodes' =>
      PhysicsNode.mk (PhysicsNode.base n)
        ((random k - Num.dec 5 10) * Num.ofZ 100)%js
        ((random (S k) - Num.dec 5 10) * Num.ofZ 100)%js
        (Num.ofZ 0) (Num.ofZ 0)
        (restoredRadius (PhysicsNode.base n))
        (restoredColor (PhysicsNode.base n))
        (PhysicsNode.isDragging n)
      :: restoreNodes random (S (S k)) nodes'
  end.

(** The links rebuilt from the parent ids: one for every node whose
    [parentId] is truthy (an empty id is not) and is the id of a restored
    node. *)
Definition rebuildLinks (nodes : list PhysicsNode.t) : list PhysicsLink.t :=
  omap (fun n =>
          match PhysicsNode.parentId n with
          | Some p =>
              if negb (str_eqb p [])
                 && existsb (fun q => str_eqb (PhysicsNode.id q) p) nodes
              then Some (PhysicsLink.mk p (PhysicsNode.id n) (Num.ofZ 1))
              else None
          | None => None
          end) nodes.

(** The effect. [nodes] are the objects of the props as the effect reads
    them and [initialized] is [initializedRef.current]; its new value is
    returned with the state. *)
Definition restoreFromProps (random : nat -> number) (nodes : list PhysicsNode.t)
    (initialized : bool) (st : State.t) : State.t * bool :=
  if (0 <? length nodes)%nat && (length (State.nodesRef st) =? 0)%nat
     && negb initialized
  then
    let restored := restoreNodes random 0 nodes in
    let refs := seq (length (State.objects st)) (length restored) in
    let st := State.set_objects (State.objects st ++ restored) st in
    let st := State.set_nodesRef refs st in
    let st := State.set_linksRef (rebuildLinks restored) st in
    (State.set_simulationActiveRef true st, true)
  else (st, initialized).

(** ** [App]: what the studio receives

    [nodes] is the argument of the latest [setNodes] (the empty array before
    the first one) and [markedNodes = nodes.filter(n => n.isMarked)]. *)
Definition markedNodes (st : State.t) : list ref :=
  List.filter (fun r => match deref st r with
                        | Some n => flag (PhysicsNode.isMarked n)
                        | None => false
                        end)
              (hd [] (State.published st)).

(** ** [analyzeStartImage] and the image upload *)

Module ImageAnalysis.

(** "艺术设计" and "创意设计" *)
Definition label_art : jsstring := [33402; 26415; 35774; 35745]%N.
Definition label_creative : jsstring := [21019; 24847; 35774; 35745]%N.

(** [execute(model)] given how the [generateContent] call ends:
    [response.text?.trim() || "艺术设计"]. *)
Definition execute (call : Provider.CallOutcome) : Provider.Result jsstring :=
  match call with
  | Provider.CallRejects e => Provider.Throw e
  | Provider.CallResponds None => Provider.Ok label_art
  | Provider.CallResponds (Some text) =>
      Provider.Ok (match trim text with
                   | [] => label_art
                   | c :: t => c :: t
                   end)
  end.

(** [analyzeStartImage] once the image has been resized (the promise of
    [resizeImageBase64] only ever resolves), given how the calls to the
    first and to the fallback model end. *)
Definition analyzeStartImage (toLowerCase : jsstring -> jsstring)
    (primary secondary : Provider.CallOutcome) : jsstring :=
  match Provider.withFallback toLowerCase (execute primary) (execute secondary) with
  | Provider.Ok analysis => analysis
  | Provider.Throw _ => label_creative
  end.

End ImageAnalysis.

(** [handleImageUpload], from the settlement of [analyzeStartImage] on:
    the analysis goes into the text box (which the engine does not read)
    and to [startRoot], whose part before its [await] runs at once. *)
Definition handleImageUpload_analysed (analysis : jsstring) (now : Z)
    (st : State.t) : State.t * option ref :=
  startRoot_begin analysis now st.

(** ** [urlToData]: the MIME type of a fetched asset *)

(** [s.endsWith(suffix)]. *)
Definition endsWith (suffix s : jsstring) : bool :=
  Provider.startsWith (reverse suffix) (reverse s).

Definition mime_octet_stream : jsstring := lit "application/octet-stream".
Definition mime_png : jsstring := lit "image/png".
Definition mime_jpeg : jsstring := lit "image/jpeg".
Definition mime_jpg : jsstring := lit "image/jpg".
Definition mime_webp : jsstring := lit "image/webp".

(** [detectedMime] as [urlToData] hands it on, from [blob.type] and the
    URL. *)
Definition detectedMime (toLowerCase : jsstring -> jsstring)
    (blobType url : jsstring) : jsstring :=
  let lowUrl := toLowerCase url in
  let detected :=
    if str_eqb blobType [] || str_eqb blobType mime_octet_stream then
      if endsWith (lit ".png") lowUrl then mime_png
      else if endsWith (lit ".jpg") lowUrl || endsWith (lit ".jpeg") lowUrl
           then mime_jpeg
      else if endsWith (lit ".webp") lowUrl then mime_webp
      else mime_jpeg
    else blobType in
  if str_eqb detected mime_jpg then mime_jpeg else detected.

(** * Vocabulary of the statements *)

(** A number that is neither NaN nor an infinity. *)
Definition isFinite (x : number) : bool :=
  match x with
  | S754_zero _ | S754_finite _ _ _ => true
  | _ => false
  end.

Definition in_zoom_range (k : number) : bool :=
  (ZOOM_MIN <=? k)%js && (k <=? ZOOM_MAX)%js.

(** [Math.max(0.1, Math.min(5, x))]. *)
Definition clamp (x : number) : number :=
  Num.Math_max ZOOM_MIN (Num.Math_min ZOOM_MAX x).

(** The amount a wheel event adds to the scale. *)
Definition wheelDelta (deltaY : number) : number := (- deltaY * Num.dec 1 1000)%js.

Definition wheelEvents (deltas : list number) (st : State.t) : State.t :=
  fold_left (fun st d => handleWheel d st) deltas st.

(** The store holds a link whose source is [i]. *)
Definition hasChildren (st : State.t) (i : jsstring) : Prop :=
  exists l, l ∈ State.linksRef st /\ PhysicsLink.source l = i.

(** What can happen to the mounted component, one handler at a time. The
    two [...Settles] events are the settlements of a provider promise: the
    continuation of an [expandNode] started by a click, and the
    continuation of the one awaited by [startRoot]. [CloseInfo] closes the
    detail view of an image node; [Frame] is the animation frame callback. *)
Inductive Event :=
  | MouseDown (canvas : Canvas.t) (e : MouseEvent.t)
  | MouseMove (canvas : Canvas.t) (e : MouseEvent.t)
  | MouseUp (e : MouseEvent.t)
  | Wheel (deltaY : number)
  | ZoomInButton
  | ZoomOutButton
  | ResetViewButton
  | SubmitRoot (text : jsstring) (now : Z)
  | ExpansionSettles (env : Env.t) (cur : ref) (o : Outcome)
  | RootExpansionSettles (env : Env.t) (cur : ref) (o : Outcome)
  | ToastTimer
  | GoToStudio
  | CloseInfo
  | Frame.

Definition step (ev : Event) (st : State.t) : State.t :=
  match ev with
  | MouseDown canvas e => handleMouseDown canvas e st
  | MouseMove canvas e => handleMouseMove canvas e st
  | MouseUp e => fst (handleMouseUp e st)
  | Wheel deltaY => handleWheel deltaY st
  | ZoomInButton => zoomIn st
  | ZoomOutButton => zoomOut st
  | ResetViewButton => resetView st
  | SubmitRoot text now => fst (startRoot_begin text now st)
  | ExpansionSettles env cur o => expandNode_complete env cur o st
  | RootExpansionSettles env cur o => startRoot_complete env cur o st
  | ToastTimer => toastTimerFires st
  | GoToStudio => handleGoToStudio st
  | CloseInfo => State.set_infoNode None st
  | Frame => physicsUpdate st
  end.

Definition run (evs : list Event) (st : State.t) : State.t :=
  fold_left (fun st ev => step ev st) evs st.

(** The event is the settlement of the provider call made for [cur]. *)
Definition settles (cur : ref) (ev : Event) : Prop :=
  match ev with
  | ExpansionSettles _ r _ | RootExpansionSettles _ r _ => r = cur
  | _ => False
  end.

(** The object at [r] exists and its [isLoading] is [v]. *)
Definition loadingIs (v : bool) (h : heap) (r : ref) : Prop :=
  exists n, h !! r = Some n /\ PhysicsNode.isLoading n = Some v.

Definition keepsLoading (f : PhysicsNode.t -> PhysicsNode.t) : Prop :=
  forall n, PhysicsNode.isLoading (f n) = PhysicsNode.isLoading n.

(** What the specification says of a child: its label, and that it is a
    text node one level below the root, tagged with its group and pointing
    back to the root. *)
Definition isChildOf (rootId : jsstring) (c : PhysicsNode.t)
    (expected : jsstring * AssociationType) : Prop :=
  PhysicsNode.text c = fst expected
  /\ PhysicsNode.type c = Text
  /\ PhysicsNode.level c = 1
  /\ PhysicsNode.associationType c = Some (snd expected)
  /\ PhysicsNode.parentId c = Some rootId.

(** The gesture ends where it began, give or take less than 5 pixels. *)
Definition isClick (e : MouseEvent.t) (st : State.t) : bool :=
  (moveDist e st <? CLICK_THRESHOLD)%js.

Definition notDragged (h : heap) (r : ref) : Prop :=
  exists n, h !! r = Some n /\ PhysicsNode.isDragging n = Some false.

(** The line was measured and found narrower than [maxWidth]. *)
Definition fits (measure : jsstring -> number) (maxWidth : number)
    (line : jsstring) : Prop :=
  (measure line <? maxWidth)%js = true.

(** A line of the character loop that was not measured: the empty initial
    line or a lone code unit. *)
Definition unmeasured (line : jsstring) : Prop :=
  line = [] \/ exists c, line = [c].

(** What the render pass hands to [drawWrappedText] as [maxWidth]:
    [node.radius * 1.8]. *)
Definition labelMaxWidth (node : PhysicsNode.t) : number :=
  (PhysicsNode.radius node * Num.dec 18 10)%js.

(** The model call whose end decides what [expandBrainstormNode] returns:
    the fallback model's when the first call throws an error that
    [withFallback] retries, the first model's otherwise. *)
Definition decidingCall (JSON_parse : jsstring -> Provider.Result Provider.JsonShape)
    (toLowerCase : jsstring -> jsstring)
    (primary secondary : Provider.CallOutcome) : Provider.CallOutcome :=
  match Provider.execute JSON_parse primary with
  | Provider.Throw error =>
      if Provider.shouldFallback toLowerCase error then secondary else primary
  | Provider.Ok _ => primary
  end.

(** A provider fault: the call rejects, answers without text, or answers
    with a text that [JSON.parse] refuses. *)
Definition faulty (JSON_parse : jsstring -> Provider.Result Provider.JsonShape)
    (call : Provider.CallOutcome) : Prop :=
  match call with
  | Provider.CallRejects _ => True
  | Provider.CallResponds None => True
  | Provider.CallResponds (Some text) =>
      text = [] \/ exists e, JSON_parse (Provider.cleanText text) = Provider.Throw e
  end.

(** ** Vocabulary of the further properties *)

(** The node under the pointer of the event: the hit test of the handlers
    for the object at [r]. *)
Definition under (canvas : Canvas.t) (e : MouseEvent.t) (st : State.t)
    (r : ref) : bool :=
  match deref st r with
  | Some node => hits (getWorldPos canvas e st) node
  | None => false
  end.

(** [n'] is [n] with another velocity. *)
Definition sameButVelocity (n n' : PhysicsNode.t) : Prop :=
  exists vx vy, n' = PhysicsNode.set_vel vx vy n.

(** [n'] is [n] with another position and velocity. *)
Definition sameButMotion (n n' : PhysicsNode.t) : Prop :=
  exists x y vx vy, n' = PhysicsNode.set_pos x y (PhysicsNode.set_vel vx vy n).

(** A velocity component as the integration leaves it: exactly 0, at
    least 0.2 in magnitude, or NaN (on which the test [Math.abs(v) < 0.2]
    fails as well). *)
Definition clamped (v : number) : Prop :=
  v = Num.ofZ 0
  \/ (Num.dec 2 10 <=? SFabs v)%js = true
  \/ Num.isNaN v = true.

(** The events of a drag in progress: frames and pointer moves. *)
Definition frameOrMove (ev : Event) : bool :=
  match ev with
  | Frame | MouseMove _ _ => true
  | _ => false
  end.

Definition isMove (ev : Event) : bool :=
  match ev with
  | MouseMove _ _ => true
  | _ => false
  end.

(** [lines.join(' ')]. *)
Fixpoint join_space (lines : list jsstring) : jsstring :=
  match lines with
  | [] => []
  | [line] => line
  | line :: lines' => with_space line (join_space lines')
  end.

(** The backtick, of which the Markdown fences are made. *)
Definition backtick : N := 96.

(** What the force phases may do to a node: change its velocity, unless
    it is being dragged. *)
Definition forced (n n' : PhysicsNode.t) : Prop :=
  sameButVelocity n n' /\ (flag (PhysicsNode.isDragging n) = true -> n' = n).

(** What a whole frame may do to a node: change its position and its
    velocity, unless it is being dragged. *)
Definition framed (n n' : PhysicsNode.t) : Prop :=
  sameButMotion n n' /\ (flag (PhysicsNode.isDragging n) = true -> n' = n).

(** The store holds distinct objects, all of them allocated. *)
Definition storeOk (st : State.t) : Prop :=
  NoDup (State.nodesRef st)
  /\ forall r, r ∈ State.nodesRef st -> (r < length (State.objects st))%nat.

(** What a drag of the object [r] reads and writes: the object, the last
    pointer position, the viewport and the gesture state. *)
Definition dragView (r : ref) (st : State.t) :=
  (deref st r, State.lastMousePos st, State.transformRef st,
   State.isDragging st, State.dragNode st).

(** The object [r] is being dragged. *)
Definition dragging (r : ref) (st : State.t) : Prop :=
  State.isDragging st = true /\ State.dragNode st = Some r
  /\ exists n, deref st r = Some n /\ flag (PhysicsNode.isDragging n) = true.

(** The heap after the three phases of a frame that runs. *)
Definition frameHeap (st : State.t) : heap :=
  fst (Integration.integrateAll (State.nodesRef st)
         (Spring.springLinks (State.nodesRef st) (State.linksRef st)
            (Repulsion.repelAll (State.nodesRef st) (State.objects st)))).

(** The outcome adds no node: the call failed, or the response is empty. *)
Definition barren (o : Outcome) : Prop :=
  match o with
  | Threw _ | ThrewNullish => True
  | Resolved result =>
      default [] (AssociationResponse.up result) = []
      /\ default [] (AssociationResponse.side result) = []
      /\ default [] (AssociationResponse.down result) = []
  end.

(** A text made of white space only. *)
Abbreviation blank := (Forall (fun c => is_whitespace c = true)).


(** The strings of a response with the group each one came in, in the
    order the orchestrator processes them. *)
Definition taggedTexts (result : AssociationResponse.t)
  : list (jsstring * AssociationType) :=
  map (fun text => (text, Up)) (default [] (AssociationResponse.up result))
  ++ map (fun text => (text, Side)) (default [] (AssociationResponse.side result))
  ++ map (fun text => (text, Down)) (default [] (AssociationResponse.down result)).

(** A child as an expansion of [parent] creates it for a string of the
    response. *)
Definition childOf (parent c : PhysicsNode.t)
    (expected : jsstring * AssociationType) : Prop :=
  PhysicsNode.text c = fst expected
  /\ PhysicsNode.type c = Text
  /\ PhysicsNode.level c = PhysicsNode.level parent + 1
  /\ PhysicsNode.associationType c = Some (snd expected)
  /\ PhysicsNode.parentId c = Some (PhysicsNode.id parent)
  /\ PhysicsNode.children c = []
  /\ PhysicsNode.isLoading c = None
  /\ PhysicsNode.isMarked c = None
  /\ PhysicsNode.vx c = Num.ofZ 0
  /\ PhysicsNode.vy c = Num.ofZ 0
  /\ PhysicsNode.isDragging c = None.

(** What a gesture on the background leaves alone: the node objects, the
    store, the links, the zoom, what was published and whether the
    simulation is awake. *)
Definition sameGraph (st st' : State.t) : Prop :=
  State.objects st' = State.objects st
  /\ State.nodesRef st' = State.nodesRef st
  /\ State.linksRef st' = State.linksRef st
  /\ scale st' = scale st
  /\ State.published st' = State.published st
  /\ State.simulationActiveRef st' = State.simulationActiveRef st.

(** * Example runs

    Concrete states and inputs on which the statements below are
    evaluated. *)

(** The host functions used in the examples: a clock stuck at 3, a random
    source that always gives 0, and the values of [cos] and [sin] at 0. *)
Definition env0 : Env.t :=
  Env.mk (fun _ => 3) (fun _ => Num.ofZ 0) (fun _ => Num.ofZ 1) (fun _ => Num.ofZ 0).

(** The root "a" has been submitted at time 1; its expansion is pending. *)
Definition st_root_a : State.t := fst (startRoot_begin (lit "a") 1 State.initial).

(** The root "a" came back with nothing: it is idle and childless again. *)
Definition st_idle_a : State.t :=
  startRoot_complete env0 0%nat (Resolved AssociationResponse.empty) st_root_a.

(** Root "a" was submitted at time 1 and, while its expansion was
    outstanding, root "b" was submitted at time 2. *)
Definition st_race : State.t :=
  run [SubmitRoot (lit "a") 1; SubmitRoot (lit "b") 2] State.initial.

(** "胡萝卜" *)
Definition carrot : jsstring := [32993; 33821; 21340]%N.
(** "蔬菜", "食物" *)
Definition vegetable : jsstring := [34092; 33756]%N.
Definition food : jsstring := [39135; 29289]%N.
(** "兔子", "沙拉" *)
Definition rabbit : jsstring := [20820; 23376]%N.
Definition salad : jsstring := [27801; 25289]%N.
(** "胡萝卜切面" *)
Definition carrotSlice : jsstring := [32993; 33821; 21340; 20999; 38754]%N.

Definition carrotResponse : AssociationResponse.t :=
  AssociationResponse.mk (Some [vegetable; food]) (Some [rabbit; salad])
                         (Some [carrotSlice]).

(** A canvas of 800 by 600 pixels at the corner of the page; the world
    origin, where the root sits, is under the pixel (400, 300). *)
Definition canvas0 : Canvas.t :=
  Canvas.mk (Num.ofZ 0) (Num.ofZ 0) (Num.ofZ 800) (Num.ofZ 600).

Definition mouseAt (x y : Z) : MouseEvent.t :=
  MouseEvent.mk (Num.ofZ x) (Num.ofZ y) false.

(** The root has been pressed at the centre of the canvas. *)
Definition st_pressed : State.t :=
  handleMouseDown canvas0 (mouseAt 400 300) st_idle_a.

(** The root "a" with one child "x", spawned 208 to its right. *)
Definition st_one_child : State.t :=
  startRoot_complete env0 0%nat
    (Resolved (AssociationResponse.mk (Some [lit "x"]) None None)) st_root_a.

Definition link_root_x : PhysicsLink.t :=
  PhysicsLink.mk (lit "root-1") (lit "root-1-up-0-3") (Num.ofZ 1).

(** A font in which every code unit is 10 pixels wide. *)
Definition measure10 (s : jsstring) : number := Num.ofZ (10 * Z.of_nat (length s)).

(** U+FDFD, a ligature that fonts draw several ems wide; here 100 pixels,
    as every code unit of this font. *)
Definition wideGlyph : N := 65021.
Definition measure100 (s : jsstring) : number := Num.ofZ (100 * Z.of_nat (length s)).

(** A child node labelled with seven such glyphs, as [createPhysicsNode]
    sizes it: radius 28 + 6 * sqrt 7, so [maxWidth] is about 79. *)
Definition wideLabelNode : PhysicsNode.t :=
  createPhysicsNode
    (MindMapNode.mk (lit "n") (replicate 7 wideGlyph) Text None 1 []
                    (Some (lit "root-1")) None None None (Some Up))
    (Num.ofZ 0) (Num.ofZ 0).

(** A [JSON.parse] that refuses everything, with the message V8 gives. *)
Definition parse_nothing (s : jsstring) : Provider.Result Provider.JsonShape :=
  Provider.Throw (Provider.ApiError.mk None (lit "Unexpected token")).

(** The first model is overloaded, the fallback model answers with prose. *)
Definition call_overloaded : Provider.CallOutcome :=
  Provider.CallRejects (Provider.ApiError.mk (Some 503) (lit "overloaded")).
Definition call_prose : Provider.CallOutcome :=
  Provider.CallResponds (Some (lit "Sorry, I cannot help with that.")).

(** The carrot response as the fallback model words it:
    [{"up":["蔬菜","食物"],"side":["兔子","沙拉"],"down":["胡萝卜切面"]}]. *)
Definition carrotJson : jsstring :=
  [123; 34; 117; 112; 34; 58; 91; 34; 34092; 33756; 34; 44; 34; 39135; 29289;
   34; 93; 44; 34; 115; 105; 100; 101; 34; 58; 91; 34; 20820; 23376; 34; 44;
   34; 27801; 25289; 34; 93; 44; 34; 100; 111; 119; 110; 34; 58; 91; 34;
   32993; 33821; 21340; 20999; 38754; 34; 93; 125]%N.

(** [JSON.parse] on the texts of the example: it reads [carrotJson] and
    refuses the rest. *)
Definition parse_carrot (s : jsstring) : Provider.Result Provider.JsonShape :=
  if str_eqb s carrotJson then Provider.Ok (Provider.Shaped carrotResponse)
  else Provider.Throw (Provider.ApiError.mk None (lit "Unexpected token")).

Definition call_carrot : Provider.CallOutcome :=
  Provider.CallResponds (Some carrotJson).

(** A label of two words, the second 140 pixels wide in [measure10]. *)
Definition twoWordLabel : jsstring := lit "ab cdefghijklmnop".

(** The child "x" of [st_one_child] has been pressed: it sits 208 to the
    right of the root, under the pixel (608, 300). *)
Definition st_child_pressed : State.t :=
  handleMouseDown canvas0 (mouseAt 608 300) st_one_child.

(** * Properties *)

(** ** Facts about binary64 arithmetic *)

Section Rounding.

Local Abbreviation nonneg mrs := (0 <= shr_m mrs).

Lemma shr_1_nonneg mrs : nonneg mrs -> nonneg (shr_1 mrs).
Proof.
  destruct mrs as [m r s]; simpl.
  destruct m as [|[p|p|]|[p|p|]]; simpl; lia.
Qed.

Lemma iter_pos_invariant {A} (P : A -> Prop) (f : A -> A) :
  (forall a, P a -> P (f a)) -> forall n a, P a -> P (SpecFloat.iter_pos f n a).
Proof.
  intros Hf n; induction n as [n IH|n IH|]; intros a Ha; simpl; auto.
Qed.

Lemma shr_nonneg mrs e n : nonneg mrs -> nonneg (fst (shr mrs e n)).
Proof.
  intros H; destruct n; simpl; auto.
  apply (iter_pos_invariant (fun r => nonneg r)); auto using shr_1_nonneg.
Qed.

Lemma shr_record_of_loc_m m l : shr_m (shr_record_of_loc m l) = m.
Proof. destruct l as [|[]]; reflexivity. Qed.

Lemma shr_fexp_nonneg p e m ex l :
  0 <= m -> nonneg (fst (shr_fexp p e m ex l)).
Proof.
  intros H; unfold shr_fexp. apply shr_nonneg.
  now rewrite shr_record_of_loc_m.
Qed.

Lemma round_nearest_even_nonneg m l : 0 <= m -> 0 <= round_nearest_even m l.
Proof.
  intros H; destruct l as [|[]]; simpl; try lia.
  destruct (Z.even m); lia.
Qed.

(** Rounding a non-negative mantissa never produces NaN. *)
Lemma binary_round_aux_not_nan p e sx mx ex lx :
  0 <= mx -> Num.isNaN (binary_round_aux p e sx mx ex lx) = false.
Proof.
  intros H; unfold binary_round_aux.
  pose proof (shr_fexp_nonneg p e mx ex lx H) as H1.
  destruct (shr_fexp p e mx ex lx) as [mrs' e']; simpl in H1.
  pose proof (shr_fexp_nonneg p e
                (round_nearest_even (shr_m mrs') (loc_of_shr_record mrs'))
                e' loc_Exact
                (round_nearest_even_nonneg _ _ H1)) as H2.
  destruct (shr_fexp p e _ e' loc_Exact) as [mrs'' e'']; simpl in H2.
  destruct (shr_m mrs'') as [|m|m]; try reflexivity; try lia.
  now destruct (e'' <=? e - p).
Qed.

Lemma binary_round_not_nan p e sx mx ex :
  Num.isNaN (binary_round p e sx mx ex) = false.
Proof.
  unfold binary_round. destruct (shl_align _ _ _) as [mz ez].
  apply binary_round_aux_not_nan; lia.
Qed.

Lemma binary_normalize_not_nan p e m ex sz :
  Num.isNaN (binary_normalize p e m ex sz) = false.
Proof.
  destruct m; simpl; auto using binary_round_not_nan.
Qed.

End Rounding.

Lemma mul_not_nan (x y : number) :
  Num.isNaN x = false -> isFinite y = true -> Num.truthy y = true ->
  Num.isNaN (x * y)%js = false.
Proof.
  destruct x as [sx|sx| |sx mx ex], y as [sy|sy| |sy my ey];
    simpl; try discriminate; try reflexivity.
  intros _ _ _. apply binary_round_aux_not_nan; lia.
Qed.

Lemma add_not_nan (x y : number) :
  isFinite x = true -> Num.isNaN y = false -> Num.isNaN (x + y)%js = false.
Proof.
  destruct x as [sx|sx| |sx mx ex], y as [sy|sy| |sy my ey];
    simpl; try discriminate; try reflexivity.
  - now destruct sx, sy.
  - intros _ _. apply binary_normalize_not_nan.
Qed.

Lemma neg_not_nan (x : number) : Num.isNaN (- x)%js = Num.isNaN x.
Proof. now destruct x. Qed.

(** *** The order on numbers *)

Lemma SFcompare_antisym (x y : number) :
  SFcompare y x = CompOpp <$> SFcompare x y.
Proof.
  destruct x as [sx|sx| |sx mx ex], y as [sy|sy| |sy my ey]; simpl;
    try reflexivity;
    try (destruct sx; reflexivity); try (destruct sy; reflexivity);
    try (destruct sx, sy; reflexivity).
  destruct sx, sy; simpl; try reflexivity.
  - rewrite (Z.compare_antisym ey ex).
    destruct (ey ?= ex); simpl; try reflexivity.
    change (Pos.compare_cont Eq ?a ?b) with (Pos.compare a b).
    now rewrite (Pos.compare_antisym my mx), CompOpp_involutive.
  - rewrite (Z.compare_antisym ey ex).
    destruct (ey ?= ex); simpl; try reflexivity.
    change (Pos.compare_cont Eq ?a ?b) with (Pos.compare a b).
    now rewrite (Pos.compare_antisym my mx), CompOpp_involutive.
Qed.

Lemma le_not_lt (x y : number) : (x <=? y)%js = true -> (y <? x)%js = false.
Proof.
  unfold Num.le, Num.lt, SFleb, SFltb. rewrite (SFcompare_antisym x y).
  destruct (SFcompare x y) as [[]|]; simpl; congruence.
Qed.

Lemma lt_le (x y : number) : (x <? y)%js = true -> (x <=? y)%js = true.
Proof.
  unfold Num.le, Num.lt, SFleb, SFltb.
  destruct (SFcompare x y) as [[]|]; simpl; congruence.
Qed.

(** ** Viewport zoom (wheel and toolbar buttons) *)

Lemma ZOOM_MIN_val : ZOOM_MIN = S754_finite false 7205759403792794 (-56).
Proof. vm_compute. reflexivity. Qed.

Lemma ZOOM_MAX_val : ZOOM_MAX = S754_finite false 5629499534213120 (-50).
Proof. vm_compute. reflexivity. Qed.

Lemma min_step_finite s m e (x : number) :
  Num.isNaN x = false ->
  Num.min_step (S754_finite s m e) x
  = if (x <? S754_finite s m e)%js then x else S754_finite s m e.
Proof. destruct x as [[]|[]| |]; try discriminate; reflexivity. Qed.

Lemma max_step_finite s m e (x : number) :
  Num.isNaN x = false ->
  Num.max_step (S754_finite s m e) x
  = if (x >? S754_finite s m e)%js then x else S754_finite s m e.
Proof. destruct x as [[]|[]| |]; try discriminate; reflexivity. Qed.

Lemma clamp_cases (x : number) :
  Num.isNaN x = false ->
  clamp x = if (x <? ZOOM_MAX)%js
            then if (ZOOM_MIN <? x)%js then x else ZOOM_MIN
            else ZOOM_MAX.
Proof.
  intros Hx. unfold clamp, Num.Math_max, Num.Math_min.
  replace (Num.min_step Num.pInf ZOOM_MAX) with ZOOM_MAX
    by (vm_compute; reflexivity).
  replace (Num.max_step Num.nInf ZOOM_MIN) with ZOOM_MIN
    by (vm_compute; reflexivity).
  rewrite ZOOM_MAX_val, (min_step_finite _ _ _ x Hx), <- ZOOM_MAX_val.
  destruct (x <? ZOOM_MAX)%js.
  - rewrite ZOOM_MIN_val, (max_step_finite _ _ _ x Hx), <- ZOOM_MIN_val.
    reflexivity.
  - vm_compute. reflexivity.
Qed.

Lemma clamp_in_range (x : number) :
  Num.isNaN x = false -> in_zoom_range (clamp x) = true.
Proof.
  intros Hx. rewrite (clamp_cases x Hx).
  destruct (x <? ZOOM_MAX)%js eqn:Hmax; [|vm_compute; reflexivity].
  destruct (ZOOM_MIN <? x)%js eqn:Hmin; [|vm_compute; reflexivity].
  unfold in_zoom_range. now rewrite (lt_le _ _ Hmin), (lt_le _ _ Hmax).
Qed.

Lemma in_zoom_range_finite (k : number) :
  in_zoom_range k = true -> isFinite k = true.
Proof.
  destruct k as [[]|[]| |]; try reflexivity; vm_compute; discriminate.
Qed.

Lemma le_not_nan_r (x y : number) : (x <=? y)%js = true -> Num.isNaN y = false.
Proof. destruct x, y; try reflexivity; discriminate. Qed.

Lemma le_not_nan_l (x y : number) : (x <=? y)%js = true -> Num.isNaN x = false.
Proof. destruct x, y; try reflexivity; discriminate. Qed.

(** Below the lower bound is below the upper bound. *)
Lemma le_min_lt_max (x : number) :
  (x <=? ZOOM_MIN)%js = true -> (x <? ZOOM_MAX)%js = true.
Proof.
  rewrite ZOOM_MIN_val, ZOOM_MAX_val.
  destruct x as [s|[]| |[] m e]; try reflexivity; try discriminate.
  unfold Num.le, Num.lt, SFleb, SFltb; cbn [SFcompare].
  destruct (Z.compare_spec e (-56)) as [H|H|H];
    destruct (Z.compare_spec e (-50)) as [H'|H'|H'];
    try reflexivity; try discriminate; lia.
Qed.

Lemma clamp_at_max (x : number) : (ZOOM_MAX <=? x)%js = true -> clamp x = ZOOM_MAX.
Proof.
  intros H. rewrite (clamp_cases x (le_not_nan_r _ _ H)).
  now rewrite (le_not_lt _ _ H).
Qed.

Lemma clamp_at_min (x : number) : (x <=? ZOOM_MIN)%js = true -> clamp x = ZOOM_MIN.
Proof.
  intros H. rewrite (clamp_cases x (le_not_nan_l _ _ H)).
  now rewrite (le_min_lt_max x H), (le_not_lt _ _ H).
Qed.

Lemma scale_set_scale k st : scale (set_scale k st) = k.
Proof. now destruct st. Qed.

Lemma pan_set_scale k st :
  Transform.x (State.transformRef (set_scale k st)) = Transform.x (State.transformRef st)
  /\ Transform.y (State.transformRef (set_scale k st)) = Transform.y (State.transformRef st).
Proof. now destruct st. Qed.

Lemma scale_handleWheel d st :
  scale (handleWheel d st) = clamp (scale st + wheelDelta d)%js.
Proof. unfold handleWheel. now rewrite scale_set_scale. Qed.

Lemma wheelDelta_not_nan d : Num.isNaN d = false -> Num.isNaN (wheelDelta d) = false.
Proof.
  intros H. unfold wheelDelta. apply mul_not_nan.
  - now rewrite neg_not_nan.
  - vm_compute; reflexivity.
  - vm_compute; reflexivity.
Qed.

Lemma handleWheel_in_range d st :
  in_zoom_range (scale st) = true -> Num.isNaN d = false ->
  in_zoom_range (scale (handleWheel d st)) = true.
Proof.
  intros Hk Hd. rewrite scale_handleWheel. apply clamp_in_range.
  apply add_not_nan; auto using in_zoom_range_finite, wheelDelta_not_nan.
Qed.

Lemma wheelEvents_in_range deltas : forall st,
  in_zoom_range (scale st) = true ->
  Forall (fun d => Num.isNaN d = false) deltas ->
  in_zoom_range (scale (wheelEvents deltas st)) = true.
Proof.
  induction deltas as [|d deltas IH]; intros st Hk Hd; simpl; [exact Hk|].
  inversion Hd; subst. apply IH; auto using handleWheel_in_range.
Qed.

Lemma wheelEvents_pan deltas : forall st,
  Transform.x (State.transformRef (wheelEvents deltas st))
  = Transform.x (State.transformRef st)
  /\ Transform.y (State.transformRef (wheelEvents deltas st))
     = Transform.y (State.transformRef st).
Proof.
  induction deltas as [|d deltas IH]; intros st; simpl; [easy|].
  destruct (IH (handleWheel d st)) as [-> ->]. apply pan_set_scale.
Qed.

(** C8. Starting from a scale in [0.1, 5], after any finite sequence of
    wheel events (each carrying a number, not NaN, as its [deltaY]) the
    scale is in [0.1, 5] and the pan offset is what it was. Each event sets
    the scale to [-deltaY * 0.001] added to the old scale, clamped; an event
    that would take the scale to 5 or above leaves exactly 5, one that would
    take it to 0.1 or below leaves exactly 0.1: for instance a [deltaY] of
    -10000, or a hundred events of -100, from scale 1 end at exactly 5, and
    a [deltaY] of 10000 ends at exactly 0.1. *)
Theorem wheel_zoom_stays_within_bounds (st : State.t) (deltas : list number) :
  in_zoom_range (scale st) = true ->
  Forall (fun d => Num.isNaN d = false) deltas ->
  in_zoom_range (scale (wheelEvents deltas st)) = true
  /\ Transform.x (State.transformRef (wheelEvents deltas st))
     = Transform.x (State.transformRef st)
  /\ Transform.y (State.transformRef (wheelEvents deltas st))
     = Transform.y (State.transformRef st)
  /\ (forall d, scale (handleWheel d st)
                = Num.Math_max ZOOM_MIN
                    (Num.Math_min ZOOM_MAX (scale st + - d * Num.dec 1 1000)%js))
  /\ (forall d, (ZOOM_MAX <=? scale st + wheelDelta d)%js = true ->
                scale (handleWheel d st) = ZOOM_MAX)
  /\ (forall d, (scale st + wheelDelta d <=? ZOOM_MIN)%js = true ->
                scale (handleWheel d st) = ZOOM_MIN)
  /\ scale (handleWheel (Num.ofZ (-10000)) State.initial) = ZOOM_MAX
  /\ scale (wheelEvents (replicate 100 (Num.ofZ (-100))) State.initial) = ZOOM_MAX
  /\ scale (handleWheel (Num.ofZ 10000) State.initial) = ZOOM_MIN.
Proof.
  intros Hk Hd. split; [now apply wheelEvents_in_range|].
  destruct (wheelEvents_pan deltas st) as [Hx Hy].
  split; [exact Hx|]. split; [exact Hy|].
  split; [intros d; apply scale_handleWheel|].
  split; [intros d H; rewrite scale_handleWheel; now apply clamp_at_max|].
  split; [intros d H; rewrite scale_handleWheel; now apply clamp_at_min|].
  split; [vm_compute; reflexivity|].
  split; vm_compute; reflexivity.
Qed.

Lemma wheel_zoom_stays_within_bounds_witness :
  in_zoom_range
    (scale (wheelEvents [Num.ofZ (-300); Num.ofZ 120000; Num.ofZ (-53)]
                        State.initial)) = true.
Proof.
  refine (proj1 (wheel_zoom_stays_within_bounds State.initial
                   [Num.ofZ (-300); Num.ofZ 120000; Num.ofZ (-53)] _ _)).
  - vm_compute. reflexivity.
  - repeat constructor.
Defined.

(** C9. The zoom-in and zoom-out buttons multiply the scale by 1.2 and by
    0.8 and store the product as it is: nine presses of zoom-in from the
    reset view take the scale above 5, eleven presses of zoom-out take it
    below 0.1, although the reset view's scale is within [0.1, 5]. *)
Theorem zoom_buttons_are_not_clamped :
  (forall st, scale (zoomIn st) = (scale st * Num.dec 12 10)%js)
  /\ (forall st, scale (zoomOut st) = (scale st * Num.dec 8 10)%js)
  /\ in_zoom_range (scale State.initial) = true
  /\ (exists n, (ZOOM_MAX <? scale (Nat.iter n zoomIn State.initial))%js = true)
  /\ (exists n, (scale (Nat.iter n zoomOut State.initial) <? ZOOM_MIN)%js = true).
Proof.
  split; [|split; [|split; [|split]]].
  - intros st. apply scale_set_scale.
  - intros st. apply scale_set_scale.
  - vm_compute. reflexivity.
  - exists 9%nat. vm_compute. reflexivity.
  - exists 11%nat. vm_compute. reflexivity.
Qed.

(** ** The object heap: reads after writes *)

Lemma objects_mutate r f st :
  State.objects (mutate r f st) = alter f r (State.objects st).
Proof. reflexivity. Qed.

Lemma deref_mutate_eq r f st n :
  deref st r = Some n -> deref (mutate r f st) r = Some (f n).
Proof.
  unfold deref. rewrite objects_mutate. intros H.
  now rewrite list_lookup_alter_eq, H.
Qed.

Lemma deref_mutate_ne r r' f st :
  r <> r' -> deref (mutate r f st) r' = deref st r'.
Proof.
  unfold deref. rewrite objects_mutate. intros H.
  now apply list_lookup_alter_ne.
Qed.

Lemma str_eqb_eq a b : str_eqb a b = true <-> a = b.
Proof. unfold str_eqb. apply bool_decide_eq_true. Qed.

Lemma str_eqb_refl a : str_eqb a a = true.
Proof. now apply str_eqb_eq. Qed.

Lemma find_by_id_Some h refs i r :
  find_by_id h refs i = Some r ->
  r ∈ refs /\ exists n, h !! r = Some n /\ PhysicsNode.id n = i.
Proof.
  induction refs as [|r0 refs IH]; simpl; [discriminate|].
  destruct (h !! r0) as [n|] eqn:Hn.
  - destruct (str_eqb (PhysicsNode.id n) i) eqn:Hi.
    + intros [= <-]. split; [left|]. exists n. split; auto.
      now apply str_eqb_eq.
    + intros H. destruct (IH H) as [? ?]. split; [now right|auto].
  - intros H. destruct (IH H) as [? ?]. split; [now right|auto].
Qed.

Lemma find_by_id_None h refs i r n :
  find_by_id h refs i = None -> r ∈ refs -> h !! r = Some n ->
  PhysicsNode.id n <> i.
Proof.
  induction refs as [|r0 refs IH]; simpl; intros Hf Hin Hn.
  - inversion Hin.
  - apply elem_of_cons in Hin as [->|Hin].
    + rewrite Hn in Hf. destruct (str_eqb (PhysicsNode.id n) i) eqn:Hi;
        [discriminate|]. intros E. apply str_eqb_eq in E. congruence.
    + destruct (h !! r0) as [n0|]; [|now apply IH].
      destruct (str_eqb (PhysicsNode.id n0) i); [discriminate|now apply IH].
Qed.

(** In a store whose ids are pairwise distinct, the lookup by id of a
    node of the store gives that node. *)
Lemma find_by_id_self (h : heap) refs r n :
  NoDup (omap (fun r => PhysicsNode.id <$> h !! r) refs) ->
  r ∈ refs -> h !! r = Some n ->
  find_by_id h refs (PhysicsNode.id n) = Some r.
Proof.
  induction refs as [|r0 refs IH]; intros Hnd Hin Hn; [inversion Hin|].
  cbn [find_by_id omap list_omap] in *.
  destruct (decide (r0 = r)) as [->|Hne].
  - now rewrite Hn, str_eqb_refl.
  - apply elem_of_cons in Hin as [->|Hin]; [contradiction|].
    destruct (h !! r0) as [n0|] eqn:Hn0; cbn in Hnd; [|now apply IH].
    apply NoDup_cons in Hnd as [Hnotin Hnd].
    destruct (str_eqb (PhysicsNode.id n0) (PhysicsNode.id n)) eqn:E;
      [|now apply IH].
    apply str_eqb_eq in E. exfalso. apply Hnotin. rewrite E.
    apply list_elem_of_omap. exists r. split; [exact Hin|].
    now rewrite Hn.
Qed.

(** ** Expansion: requests that are refused *)

Lemma hasChildren_existsb st i :
  hasChildren st i ->
  existsb (fun l => str_eqb (PhysicsLink.source l) i) (State.linksRef st) = true.
Proof.
  intros (l & Hl & Hs). apply existsb_exists. exists l. split.
  - now apply list_elem_of_In.
  - now apply str_eqb_eq.
Qed.

(** C4. When the node the store holds under the id of the node that was
    clicked is loading, or some link of the store has that id as its source,
    [expandNode] returns at once: no provider call is issued and the whole
    state (node objects, store arrays, links, viewport and the rest) is the
    state it was called in. *)
Theorem expandNode_noop_when_loading_or_expanded
    (st : State.t) (node cur : ref) (arg currentNode : PhysicsNode.t) :
  deref st node = Some arg ->
  find_by_id (State.objects st) (State.nodesRef st) (PhysicsNode.id arg) = Some cur ->
  deref st cur = Some currentNode ->
  flag (PhysicsNode.isLoading currentNode) = true
  \/ hasChildren st (PhysicsNode.id currentNode) ->
  expandNode_begin node st = (st, None).
Proof.
  intros Harg Hfind Hcur Hblocked. unfold expandNode_begin.
  rewrite Harg, Hfind, Hcur.
  destruct Hblocked as [->|H]; [reflexivity|].
  rewrite (hasChildren_existsb _ _ H). now rewrite orb_true_r.
Qed.

Lemma expandNode_noop_when_loading_or_expanded_witness :
  expandNode_begin 0%nat st_root_a = (st_root_a, None).
Proof.
  refine (expandNode_noop_when_loading_or_expanded st_root_a 0%nat 0%nat _ _ _ _ _ _).
  - vm_compute. reflexivity.
  - vm_compute. reflexivity.
  - vm_compute. reflexivity.
  - left. vm_compute. reflexivity.
Defined.

(** ** The loading flag *)

Lemma loadingIs_alter_keep v f r' (h : heap) r :
  keepsLoading f -> loadingIs v h r -> loadingIs v (alter f r' h) r.
Proof.
  intros Hf (n & Hn & Hl). destruct (decide (r' = r)) as [->|Hne].
  - exists (f n). rewrite list_lookup_alter_eq, Hn. split; [reflexivity|].
    now rewrite Hf.
  - exists n. now rewrite list_lookup_alter_ne.
Qed.

Lemma loadingIs_alter_ne v f r' (h : heap) r :
  r' <> r -> loadingIs v h r -> loadingIs v (alter f r' h) r.
Proof.
  intros Hne (n & Hn & Hl). exists n. now rewrite list_lookup_alter_ne.
Qed.

Lemma loadingIs_alter_set v r' (h : heap) r :
  loadingIs v h r -> loadingIs v (alter (PhysicsNode.set_isLoading v) r' h) r.
Proof.
  intros (n & Hn & Hl). destruct (decide (r' = r)) as [->|Hne].
  - exists (PhysicsNode.set_isLoading v n).
    now rewrite list_lookup_alter_eq, Hn.
  - exists n. now rewrite list_lookup_alter_ne.
Qed.

Lemma loadingIs_app v (h h' : heap) r : loadingIs v h r -> loadingIs v (h ++ h') r.
Proof.
  intros (n & Hn & Hl). exists n. split; [|exact Hl].
  now apply lookup_app_l_Some.
Qed.

Lemma newPNodes_extends env parent total data : forall i (h : heap),
  exists h', fst (newPNodes env parent total i data h) = h ++ h'
             /\ map PhysicsNode.base h' = data
             /\ snd (newPNodes env parent total i data h)
                = seq (length h) (length data).
Proof.
  induction data as [|n data IH]; intros i h; cbn [newPNodes].
  - exists []. now rewrite app_nil_r.
  - unfold alloc.
    set (c := createPhysicsNode n _ _).
    destruct (IH (S i) (h ++ [c])) as (h' & Hh' & Hbase & Hrefs).
    destruct (newPNodes env parent total (S i) data _) as [h2 rs].
    cbn [fst snd] in *. subst h2 rs.
    exists (c :: h'). rewrite <- app_assoc. cbn [app map length seq].
    rewrite Hbase, length_app. cbn [length].
    replace (length h + 1)%nat with (S (length h)) by lia. auto.
Qed.

Lemma keepsLoading_set_isDragging v : keepsLoading (PhysicsNode.set_isDragging v).
Proof. now intros n. Qed.
Lemma keepsLoading_set_pos x y : keepsLoading (fun n => PhysicsNode.set_pos (x n) (y n) n).
Proof. now intros n. Qed.
Lemma keepsLoading_set_vel x y : keepsLoading (PhysicsNode.set_vel x y).
Proof. now intros n. Qed.
Lemma keepsLoading_set_isMarked v : keepsLoading (fun n => PhysicsNode.set_isMarked (v n) n).
Proof. now intros n. Qed.
Lemma keepsLoading_set_children v : keepsLoading (PhysicsNode.set_children v).
Proof. now intros n. Qed.
Lemma keepsLoading_push ax ay : keepsLoading (push ax ay).
Proof. intros n. unfold push. now destruct (flag _). Qed.
Lemma keepsLoading_pull ax ay : keepsLoading (pull ax ay).
Proof. intros n. unfold pull. now destruct (flag _). Qed.

Create HintDb loading.
#[local] Hint Resolve loadingIs_alter_keep loadingIs_alter_set loadingIs_app
  keepsLoading_set_isDragging keepsLoading_set_pos keepsLoading_set_vel
  keepsLoading_set_isMarked keepsLoading_set_children keepsLoading_push
  keepsLoading_pull : loading.

Lemma expandNode_begin_loading v node st r :
  loadingIs v (State.objects st) r ->
  loadingIs v (State.objects (fst (expandNode_begin node st))) r
  \/ (v = false /\ snd (expandNode_begin node st) = Some r).
Proof.
  intros H. unfold expandNode_begin.
  destruct (deref st node) as [arg|]; [|now left].
  destruct (find_by_id _ _ _) as [cur|]; [|now left].
  destruct (deref st cur) as [currentNode|] eqn:Hcur; [|now left].
  destruct (flag _ || existsb _ _); [now left|]. simpl.
  destruct (decide (cur = r)) as [->|Hne].
  - destruct v; [left; auto with loading|right; auto].
  - left. now apply loadingIs_alter_ne.
Qed.

(** The store after the [try] body, field by field. *)
Lemma applyResult_fields env cur result st currentNode :
  deref st cur = Some currentNode ->
  let data := newNodesData env currentNode result in
  let alloc := newPNodes env currentNode (length data) 0 data (State.objects st) in
  State.objects (applyResult env cur result st)
  = alter (PhysicsNode.set_children (map MindMapNode.id data)) cur (fst alloc)
  /\ State.nodesRef (applyResult env cur result st) = State.nodesRef st ++ snd alloc
  /\ State.linksRef (applyResult env cur result st)
     = State.linksRef st
       ++ map (fun n => PhysicsLink.mk (PhysicsNode.id currentNode)
                                       (MindMapNode.id n) (Num.ofZ 1)) data
  /\ State.published (applyResult env cur result st) = State.published st
  /\ State.toast (applyResult env cur result st)
     = if (length data =? 0)%nat
       then Some (Toast.mk msg_nothing_found Warning)
       else State.toast st.
Proof.
  intros Hcur data alloc. subst alloc. unfold applyResult. rewrite Hcur.
  fold data.
  destruct (length data =? 0)%nat;
    cbn [State.objects setToast State.set_toast_fields];
    destruct (newPNodes env currentNode (length data) 0 data (State.objects st))
      as [h refs];
    repeat split; reflexivity.
Qed.

Lemma applyResult_loading v env cur result st r :
  loadingIs v (State.objects st) r ->
  loadingIs v (State.objects (applyResult env cur result st)) r.
Proof.
  intros H. destruct (deref st cur) as [currentNode|] eqn:Hcur.
  - destruct (applyResult_fields env cur result st currentNode Hcur)
      as (-> & _).
    destruct (newPNodes_extends env currentNode
                (length (newNodesData env currentNode result))
                (newNodesData env currentNode result) 0%nat (State.objects st))
      as (h' & -> & _ & _).
    auto with loading.
  - unfold applyResult. now rewrite Hcur.
Qed.

Lemma expandNode_complete_loading_other v env cur o st r :
  cur <> r ->
  loadingIs v (State.objects st) r ->
  loadingIs v (State.objects (expandNode_complete env cur o st)) r.
Proof.
  intros Hne H. unfold expandNode_complete. simpl.
  apply loadingIs_alter_ne; [exact Hne|].
  destruct o; simpl; [now apply applyResult_loading|exact H|exact H].
Qed.

Lemma startRoot_complete_loading_other v env cur o st r :
  cur <> r ->
  loadingIs v (State.objects st) r ->
  loadingIs v (State.objects (startRoot_complete env cur o st)) r.
Proof.
  intros Hne H. unfold startRoot_complete, startRoot_finally.
  cbn [State.objects syncNodesToGlobal State.set_published
       State.set_isInitializing].
  pose proof (expandNode_complete_loading_other v env cur o st r Hne H) as H'.
  destruct (expandNode_rejects o); [|exact H'].
  unfold startRoot_catch. cbn [setToast State.objects State.set_toast_fields].
  rewrite objects_mutate. now apply loadingIs_alter_ne.
Qed.

Lemma springLink_loading v pNodes link (h : heap) r :
  loadingIs v h r -> loadingIs v (Spring.springLink pNodes link h) r.
Proof.
  intros H. unfold Spring.springLink.
  destruct (find_by_id h pNodes _) as [s|]; [|exact H].
  destruct (find_by_id h pNodes _) as [t|]; [|exact H].
  destruct (h !! s) as [source|]; [|exact H].
  destruct (h !! t) as [target|]; [|exact H].
  auto with loading.
Qed.

Lemma springLinks_loading v pNodes links : forall (h : heap) r,
  loadingIs v h r -> loadingIs v (Spring.springLinks pNodes links h) r.
Proof.
  induction links as [|l links IH]; intros h r H; simpl; [exact H|].
  apply IH. now apply springLink_loading.
Qed.

Lemma repelPair_loading v a b (h : heap) r :
  loadingIs v h r -> loadingIs v (Repulsion.repelPair a b h) r.
Proof.
  intros H. unfold Repulsion.repelPair.
  destruct (h !! a) as [na|]; [|exact H].
  destruct (h !! b) as [nb|]; [|exact H].
  destruct (_ <? _)%js; auto with loading.
Qed.

Lemma repelAll_loading v pNodes : forall (h : heap) r,
  loadingIs v h r -> loadingIs v (Repulsion.repelAll pNodes h) r.
Proof.
  induction pNodes as [|a rest IH]; intros h r H; cbn [Repulsion.repelAll];
    [exact H|].
  apply IH. clear IH. revert h H.
  induction rest as [|b rest IH]; intros h H; cbn [fold_left]; [exact H|].
  apply IH. now apply repelPair_loading.
Qed.

Lemma integrateNode_loading v acc a r :
  loadingIs v (fst acc) r -> loadingIs v (fst (Integration.integrateNode acc a)) r.
Proof.
  destruct acc as [h e]. cbn [fst Integration.integrateNode]. intros H.
  destruct (h !! a) as [n|] eqn:Hn; [|exact H].
  destruct (flag _); [exact H|]. cbn [fst].
  destruct H as (n0 & Hn0 & Hl). destruct (decide (a = r)) as [->|Hne].
  - exists (Integration.integrate n). split.
    + apply list_lookup_insert_eq. now apply lookup_lt_Some in Hn.
    + rewrite Hn in Hn0. injection Hn0 as ->. exact Hl.
  - exists n0. now rewrite list_lookup_insert_ne.
Qed.

Lemma integrateAll_loading v pNodes (h : heap) r :
  loadingIs v h r -> loadingIs v (fst (Integration.integrateAll pNodes h)) r.
Proof.
  unfold Integration.integrateAll.
  generalize (Num.ofZ 0). revert h.
  induction pNodes as [|a rest IH]; intros h e H; cbn [fold_left]; [exact H|].
  pose proof (integrateNode_loading v (h, e) a r H) as H'.
  destruct (Integration.integrateNode (h, e) a) as [h' e']. now apply IH.
Qed.

Lemma physicsUpdate_loading v st r :
  loadingIs v (State.objects st) r ->
  loadingIs v (State.objects (physicsUpdate st)) r.
Proof.
  intros H. unfold physicsUpdate. destruct (_ || _); [|exact H].
  pose proof (integrateAll_loading v (State.nodesRef st)
                (Spring.springLinks (State.nodesRef st) (State.linksRef st)
                   (Repulsion.repelAll (State.nodesRef st) (State.objects st)))
                r) as Hi.
  destruct (Integration.integrateAll _ _) as [h e]. cbn [fst] in Hi.
  assert (loadingIs v h r)
    by (apply Hi; now apply springLinks_loading, repelAll_loading).
  now destruct (_ && _).
Qed.

Lemma handleMouseUp_loading e st r :
  loadingIs true (State.objects st) r ->
  loadingIs true (State.objects (fst (handleMouseUp e st))) r.
Proof.
  intros H. unfold handleMouseUp. cbn [State.dragNode State.set_cursor State.set_isDragging].
  destruct (State.dragNode st) as [node|]; [|exact H].
  set (st1 := State.set_dragNode None _).
  assert (H1 : loadingIs true (State.objects st1) r).
  { subst st1. cbn [State.objects State.set_dragNode]. rewrite objects_mutate.
    cbn [State.objects State.set_cursor State.set_isDragging].
    auto with loading. }
  destruct (moveDist e st1 <? CLICK_THRESHOLD)%js; [|exact H1].
  destruct (MouseEvent.shiftKey e).
  - cbn [fst setTick syncNodesToGlobal State.objects State.set_tick State.set_published].
    rewrite objects_mutate. apply loadingIs_alter_keep; [now intros ?|exact H1].
  - destruct (bool_decide _); [exact H1|].
    destruct (expandNode_begin_loading true node st1 r H1) as [H2|[H2 _]];
      [exact H2|discriminate H2].
Qed.

Lemma startRoot_begin_loading text now st r :
  loadingIs true (State.objects st) r ->
  loadingIs true (State.objects (fst (startRoot_begin text now st))) r.
Proof.
  intros H. unfold startRoot_begin.
  destruct (bool_decide _); [exact H|]. unfold alloc.
  match goal with
  | |- context [expandNode_begin ?n ?s] =>
      assert (Hs : loadingIs true (State.objects s) r)
        by (cbn [State.objects State.set_objects State.set_nodesRef];
            auto with loading);
      destruct (expandNode_begin_loading true n s r Hs) as [Hb|[Hb _]];
        [|discriminate Hb];
      destruct (expandNode_begin n s) as [st' [cur|]]
  end; exact Hb.
Qed.

(** An outstanding provider call keeps the flag of its node set through
    every event but its own settlement. *)
Lemma step_keeps_loading ev st r :
  loadingIs true (State.objects st) r -> ~ settles r ev ->
  loadingIs true (State.objects (step ev st)) r.
Proof.
  intros H Hev. destruct ev; cbn [step settles] in *; try exact H.
  - unfold handleMouseDown. destruct (hitTest _ _); [|exact H].
    cbn [State.objects State.set_simulationActiveRef]. rewrite objects_mutate.
    auto with loading.
  - unfold handleMouseMove. destruct (negb _); [exact H|].
    cbn [State.dragNode State.set_lastMousePos State.set_cursor].
    destruct (State.dragNode st); [|exact H].
    cbn [State.objects State.set_simulationActiveRef].
    rewrite !objects_mutate. apply loadingIs_alter_keep; [now intros ?|].
    apply loadingIs_alter_keep; [now intros ?|exact H].
  - now apply handleMouseUp_loading.
  - now apply startRoot_begin_loading.
  - apply expandNode_complete_loading_other; [congruence|exact H].
  - apply startRoot_complete_loading_other; [congruence|exact H].
  - unfold toastTimerFires. now destruct (State.toastTimer st).
  - now apply physicsUpdate_loading.
Qed.

Lemma run_keeps_loading evs : forall st r,
  loadingIs true (State.objects st) r ->
  Forall (fun ev => ~ settles r ev) evs ->
  loadingIs true (State.objects (run evs st)) r.
Proof.
  induction evs as [|ev evs IH]; intros st r H Hevs; simpl; [exact H|].
  inversion Hevs; subst. apply IH; auto using step_keeps_loading.
Qed.

Lemma expandNode_begin_sets_loading node st st1 cur :
  expandNode_begin node st = (st1, Some cur) ->
  loadingIs true (State.objects st1) cur.
Proof.
  unfold expandNode_begin.
  destruct (deref st node) as [arg|]; [|discriminate].
  destruct (find_by_id _ _ _) as [cur'|]; [|discriminate].
  destruct (deref st cur') as [currentNode|] eqn:Hcur; [|discriminate].
  destruct (flag _ || existsb _ _); [discriminate|].
  intros [= <- <-]. cbn [setTick State.objects State.set_tick State.set_simulationActiveRef].
  exists (PhysicsNode.set_isLoading true currentNode).
  split; [|reflexivity]. now apply deref_mutate_eq.
Qed.

Lemma expandNode_complete_clears_loading env cur o st n :
  deref st cur = Some n ->
  loadingIs false (State.objects (expandNode_complete env cur o st)) cur.
Proof.
  intros Hn. unfold expandNode_complete.
  cbn [syncNodesToGlobal State.objects State.set_published].
  rewrite objects_mutate.
  assert (H : exists n', deref (match o with
                                | Resolved result => applyResult env cur result st
                                | Threw message =>
                                    setToast (Some (Toast.mk (msg_expand_failed_prefix ++ message) Error)) st
                                | ThrewNullish => st
                                end) cur = Some n').
  { destruct o as [result|message|]; [|now exists n..].
    unfold deref.
    destruct (applyResult_fields env cur result st n Hn) as (-> & _).
    destruct (newPNodes_extends env n (length (newNodesData env n result))
                (newNodesData env n result) 0%nat (State.objects st))
      as (h' & -> & _ & _).
    rewrite list_lookup_alter_eq, (lookup_app_l_Some _ _ _ _ Hn). eauto. }
  destruct H as (n' & Hn'). exists (PhysicsNode.set_isLoading false n').
  unfold deref in Hn'. now rewrite list_lookup_alter_eq, Hn'.
Qed.

(** ** Expansion: the loading flag and a rejected call *)

(** C3 (amended). From the moment [expandNode] has called the provider for
    a node, that node's [isLoading] is true, and it stays true through every
    later event until the call settles; once the call has settled, with a
    response or with an error, under a click or under [startRoot], it is
    false. When the call is rejected the store arrays are what they were
    and the only change to the node objects is the cleared flag. When the
    reason of the rejection is anything but [null] or [undefined], a
    notification of type [error] (not [warning]) carrying the reason's
    message is shown, under [startRoot] as after a click, which the toast
    timer removes 4000 ms later. When the reason is [null] or [undefined]
    the [catch] of [expandNode] throws before it notifies: after a click
    the notification is what it was before, and under [startRoot] the
    notification "初始化失败", of type [error], is shown instead, with the
    same timer. *)
Theorem loading_flag_follows_the_call (st st1 : State.t) (node cur : ref) :
  expandNode_begin node st = (st1, Some cur) ->
  loadingIs true (State.objects st1) cur
  /\ forall evs, Forall (fun ev => ~ settles cur ev) evs ->
       let st2 := run evs st1 in
       loadingIs true (State.objects st2) cur
       /\ (forall env o,
             loadingIs false (State.objects (expandNode_complete env cur o st2)) cur)
       /\ (forall env message,
             let st3 := expandNode_complete env cur (Threw message) st2 in
             State.nodesRef st3 = State.nodesRef st2
             /\ State.linksRef st3 = State.linksRef st2
             /\ State.objects st3
                = alter (PhysicsNode.set_isLoading false) cur (State.objects st2)
             /\ State.toast st3
                = Some (Toast.mk (msg_expand_failed_prefix ++ message) Error)
             /\ State.toastTimer st3 = Some 4000
             /\ State.toast (toastTimerFires st3) = None
             /\ State.toastTimer (toastTimerFires st3) = None)
       /\ (forall env o,
             loadingIs false (State.objects (startRoot_complete env cur o st2)) cur)
       /\ (forall env message,
             let st3 := startRoot_complete env cur (Threw message) st2 in
             State.nodesRef st3 = State.nodesRef st2
             /\ State.linksRef st3 = State.linksRef st2
             /\ State.objects st3
                = alter (PhysicsNode.set_isLoading false) cur (State.objects st2)
             /\ State.toast st3
                = Some (Toast.mk (msg_expand_failed_prefix ++ message) Error)
             /\ State.toastTimer st3 = Some 4000
             /\ State.toast (toastTimerFires st3) = None)
       /\ (forall env,
             let st3 := expandNode_complete env cur ThrewNullish st2 in
             expandNode_rejects ThrewNullish = true
             /\ State.nodesRef st3 = State.nodesRef st2
             /\ State.linksRef st3 = State.linksRef st2
             /\ State.objects st3
                = alter (PhysicsNode.set_isLoading false) cur (State.objects st2)
             /\ State.toast st3 = State.toast st2
             /\ State.toastTimer st3 = State.toastTimer st2)
       /\ (forall env,
             let st3 := startRoot_complete env cur ThrewNullish st2 in
             State.nodesRef st3 = State.nodesRef st2
             /\ State.linksRef st3 = State.linksRef st2
             /\ State.objects st3
                = alter (PhysicsNode.set_isLoading false) cur
                    (alter (PhysicsNode.set_isLoading false) cur
                       (State.objects st2))
             /\ State.toast st3 = Some (Toast.mk msg_init_failed Error)
             /\ State.toastTimer st3 = Some 4000
             /\ State.toast (toastTimerFires st3) = None
             /\ State.toastTimer (toastTimerFires st3) = None).
Proof.
  intros Hbegin.
  pose proof (expandNode_begin_sets_loading _ _ _ _ Hbegin) as H1.
  split; [exact H1|]. intros evs Hevs st2.
  pose proof (run_keeps_loading evs st1 cur H1 Hevs) as H2. fold st2 in H2.
  destruct H2 as (n & Hn & Hl).
  assert (Hclear : forall env o,
            loadingIs false (State.objects (expandNode_complete env cur o st2)) cur)
    by (intros env o; now apply (expandNode_complete_clears_loading env cur o st2 n)).
  split; [now exists n|]. split; [exact Hclear|]. split.
  { intros env message st3. subst st3. repeat split; reflexivity. }
  split.
  { intros env o. unfold startRoot_complete, startRoot_finally.
    cbn [State.objects syncNodesToGlobal State.set_published
         State.set_isInitializing].
    destruct (expandNode_rejects o); [|apply Hclear].
    unfold startRoot_catch. cbn [setToast State.objects State.set_toast_fields].
    rewrite objects_mutate. apply loadingIs_alter_set, Hclear. }
  split; [intros env message st3; subst st3; repeat split; reflexivity|].
  split; intros env st3; subst st3; repeat split; reflexivity.
Qed.

Lemma loading_flag_follows_the_call_witness :
  loadingIs true (State.objects (fst (expandNode_begin 0%nat st_idle_a))) 0%nat.
Proof.
  refine (proj1 (loading_flag_follows_the_call st_idle_a
                   (fst (expandNode_begin 0%nat st_idle_a)) 0%nat 0%nat _)).
  vm_compute. reflexivity.
Defined.

(** C3 as stated fails: the notification of a rejected call has type
    [error]; the [warning] type is the one of an empty response. And a
    call rejected with [null] or [undefined] brings no notification of
    [expandNode]'s at all. *)
Lemma rejected_call_notification_is_not_a_warning :
  let st3 := expandNode_complete env0 0%nat (Threw (lit "503")) st_root_a in
  let st4 := expandNode_complete env0 0%nat ThrewNullish st_root_a in
  snd (startRoot_begin (lit "a") 1 State.initial) = Some 0%nat
  /\ State.toast st3 = Some (Toast.mk (msg_expand_failed_prefix ++ lit "503") Error)
  /\ ~ (exists message, State.toast st3 = Some (Toast.mk message Warning))
  /\ State.toast st4 = None.
Proof.
  split; [vm_compute; reflexivity|]. split; [vm_compute; reflexivity|].
  split; [|vm_compute; reflexivity].
  intros (message & H). vm_compute in H. discriminate H.
Qed.

Lemma applyResult_published env cur result st :
  State.published (applyResult env cur result st) = State.published st.
Proof.
  unfold applyResult. destruct (deref st cur) as [n|]; [|reflexivity].
  destruct (length _ =? 0)%nat; destruct (newPNodes _ _ _ _ _ _); reflexivity.
Qed.

Lemma expandNode_complete_published env cur o st :
  State.published (expandNode_complete env cur o st)
  = State.nodesRef (expandNode_complete env cur o st) :: State.published st.
Proof.
  unfold expandNode_complete.
  cbn [syncNodesToGlobal State.published State.set_published State.nodesRef
       mutate State.set_objects].
  destruct o; [now rewrite applyResult_published|reflexivity..].
Qed.

(** ** Expansion: when the requested id is resolved *)

(** C1 (amended). The node is resolved by its id in the current store when
    the expansion is requested, before the provider is called: if the store
    holds no node with that id then, the request is dropped in silence, with
    no provider call and the state untouched. The completion does not look
    the id up again: it goes through the node object resolved at request
    time, clears that object's [isLoading] and publishes the store as it is
    then. *)
Theorem expansion_resolves_the_node_at_request_time :
  (forall (st : State.t) (node : ref) (arg : PhysicsNode.t),
     deref st node = Some arg ->
     find_by_id (State.objects st) (State.nodesRef st) (PhysicsNode.id arg) = None ->
     expandNode_begin node st = (st, None))
  /\ (forall env (cur : ref) o (st : State.t) (n : PhysicsNode.t),
        deref st cur = Some n ->
        let st' := expandNode_complete env cur o st in
        loadingIs false (State.objects st') cur
        /\ State.published st' = State.nodesRef st' :: State.published st).
Proof.
  split.
  - intros st node arg Harg Hfind. unfold expandNode_begin.
    now rewrite Harg, Hfind.
  - intros env cur o st n Hn st'. split.
    + now apply (expandNode_complete_clears_loading env cur o st n).
    + apply expandNode_complete_published.
Qed.

Lemma expansion_resolves_the_node_at_request_time_witness :
  expandNode_begin 0%nat st_race = (st_race, None).
Proof.
  refine (proj1 expansion_resolves_the_node_at_request_time st_race 0%nat _ _ _).
  - vm_compute. reflexivity.
  - vm_compute. reflexivity.
Defined.

(** C1 as stated fails. The call made for root "a" (object 0, id "root-1")
    settles after the store has been reset to root "b": no node of the
    store has the id "root-1", yet the child is added to the store, a link
    from "root-1" is added, and object 0 is written. *)
Lemma stale_expansion_is_applied_after_reset :
  let response := AssociationResponse.mk (Some [lit "x"]) None None in
  let st' := expandNode_complete env0 0%nat (Resolved response) st_race in
  snd (startRoot_begin (lit "a") 1 State.initial) = Some 0%nat
  /\ PhysicsNode.id <$> deref st_race 0%nat = Some (lit "root-1")
  /\ find_by_id (State.objects st_race) (State.nodesRef st_race) (lit "root-1") = None
  /\ State.nodesRef st_race = [1%nat]
  /\ State.nodesRef st' = [1%nat; 2%nat]
  /\ PhysicsNode.text <$> deref st' 2%nat = Some (lit "x")
  /\ State.linksRef st_race = []
  /\ map PhysicsLink.source (State.linksRef st') = [lit "root-1"]
  /\ deref st' 0%nat <> deref st_race 0%nat
  /\ ~ (State.nodesRef st' = State.nodesRef st_race
        /\ State.linksRef st' = State.linksRef st_race
        /\ State.objects st' = State.objects st_race).
Proof.
  repeat (split; [vm_compute; reflexivity|]).
  split.
  - vm_compute. discriminate.
  - intros (H & _). vm_compute in H. discriminate H.
Qed.

(** ** Expansion: the children of a response *)

(** Each string of a group becomes the data of a text node one level below
    the parent, tagged with the group and pointing back to the parent. *)
Lemma processGroup_shape env parent type texts : forall idx k,
  Forall2 (fun n text =>
             MindMapNode.text n = text
             /\ MindMapNode.type n = Text
             /\ MindMapNode.level n = PhysicsNode.level parent + 1
             /\ MindMapNode.associationType n = Some type
             /\ MindMapNode.parentId n = Some (PhysicsNode.id parent)
             /\ MindMapNode.children n = [])
          (processGroup env parent type idx k texts) texts.
Proof.
  induction texts as [|text texts IH]; intros idx k; cbn [processGroup];
    constructor; auto.
  repeat split.
Qed.

(** The new nodes enter the store in the order up, side, down, one per
    string, and each comes with a link from the parent. *)
Lemma expansion_adds_one_node_and_link_per_string env cur result st currentNode :
  deref st cur = Some currentNode ->
  let n := (length (default [] (AssociationResponse.up result))
            + length (default [] (AssociationResponse.side result))
            + length (default [] (AssociationResponse.down result)))%nat in
  let st' := expandNode_complete env cur (Resolved result) st in
  State.nodesRef st' = State.nodesRef st ++ seq (length (State.objects st)) n
  /\ length (State.objects st') = (length (State.objects st) + n)%nat
  /\ length (State.linksRef st') = (length (State.linksRef st) + n)%nat
  /\ Forall (fun l => PhysicsLink.source l = PhysicsNode.id currentNode)
            (drop (length (State.linksRef st)) (State.linksRef st')).
Proof.
  intros Hcur n st'. subst st'. unfold expandNode_complete.
  destruct (applyResult_fields env cur result st currentNode Hcur)
    as (Ho & Hr & Hl & _).
  set (data := newNodesData env currentNode result) in *.
  assert (Hlen : length data = n).
  { subst data n. unfold newNodesData. rewrite !length_app.
    assert (Hpg : forall type idx k texts,
               length (processGroup env currentNode type idx k texts)
               = length texts).
    { intros type idx k texts. revert idx k.
      induction texts; intros; cbn [processGroup length]; auto. }
    rewrite !Hpg. lia. }
  destruct (newPNodes_extends env currentNode (length data) data 0%nat
              (State.objects st)) as (h' & Hh' & Hbase & Hrefs).
  cbn [syncNodesToGlobal mutate State.nodesRef State.linksRef State.objects
       State.set_published State.set_objects].
  rewrite Hr, Hl, Ho, Hrefs, Hh', Hlen, !length_alter, !length_app, length_map.
  rewrite drop_app_length, Hlen.
  assert (length h' = n) by (now rewrite <- Hlen, <- Hbase, length_map).
  repeat split; try lia.
  apply Forall_map. now apply Forall_forall.
Qed.

(** ** Expansion: the carrot scenario *)

Lemma carrot_not_blank : bool_decide (trim carrot = []) = false.
Proof. vm_compute. reflexivity. Qed.

(** C5. Submitting "胡萝卜" to a freshly mounted component, at any time and
    with any random source, and then receiving up = ["蔬菜", "食物"],
    side = ["兔子", "沙拉"], down = ["胡萝卜切面"] leaves a store of six
    nodes: the root (level 0, not loading) and five children, in the order
    of the groups, each a text node of level 1 tagged with its group and
    with the root's id as [parentId]; and five links, one per child, all
    with the root's id as source. *)
Theorem carrot_scenario (now0 : Z) (env : Env.t) :
  let rootId := lit "root-" ++ decimal now0 in
  exists st1,
    startRoot_begin carrot now0 State.initial = (st1, Some 0%nat)
    /\ let st2 := startRoot_complete env 0%nat (Resolved carrotResponse) st1 in
       exists root c1 c2 c3 c4 c5,
         State.objects st2 = [root; c1; c2; c3; c4; c5]
         /\ State.nodesRef st2 = [0; 1; 2; 3; 4; 5]%nat
         /\ PhysicsNode.id root = rootId
         /\ PhysicsNode.text root = carrot
         /\ PhysicsNode.level root = 0
         /\ PhysicsNode.isLoading root = Some false
         /\ Forall2 (isChildOf rootId) [c1; c2; c3; c4; c5]
              [(vegetable, Up); (food, Up); (rabbit, Side); (salad, Side);
               (carrotSlice, Down)]
         /\ State.linksRef st2
            = map (fun c => PhysicsLink.mk rootId (PhysicsNode.id c) (Num.ofZ 1))
                  [c1; c2; c3; c4; c5].
Proof.
  intros rootId. subst rootId.
  unfold startRoot_begin. rewrite carrot_not_blank.
  unfold alloc, expandNode_begin, deref.
  cbn -[lit]. rewrite str_eqb_refl. cbn -[lit].
  eexists. split; [reflexivity|].
  unfold startRoot_complete, expandNode_complete, applyResult, deref.
  cbn -[lit].
  do 6 eexists. split; [reflexivity|].
  split; [reflexivity|]. split; [reflexivity|]. split; [reflexivity|].
  split; [reflexivity|]. split; [reflexivity|].
  split; [|reflexivity].
  repeat (constructor; [repeat split; reflexivity|]). constructor.
Qed.

(** ** Pointer-up *)

Lemma expandNode_begin_frame node st :
  let st' := fst (expandNode_begin node st) in
  State.published st' = State.published st
  /\ State.isDragging st' = State.isDragging st
  /\ State.dragNode st' = State.dragNode st
  /\ (State.objects st' = State.objects st
      \/ exists cur, State.objects st'
                     = alter (PhysicsNode.set_isLoading true) cur (State.objects st)).
Proof.
  unfold expandNode_begin.
  destruct (deref st node) as [arg|]; [|now auto].
  destruct (find_by_id _ _ _) as [cur|]; [|now auto].
  destruct (deref st cur) as [currentNode|]; [|now auto].
  destruct (flag _ || existsb _ _); [now auto|].
  cbn. repeat split. right. now exists cur.
Qed.

Lemma notDragged_alter f r' (h : heap) r :
  (forall n, PhysicsNode.isDragging (f n) = PhysicsNode.isDragging n) ->
  notDragged h r -> notDragged (alter f r' h) r.
Proof.
  intros Hf (n & Hn & Hd). destruct (decide (r' = r)) as [->|Hne].
  - exists (f n). rewrite list_lookup_alter_eq, Hn. split; [reflexivity|].
    now rewrite Hf.
  - exists n. now rewrite list_lookup_alter_ne.
Qed.

(** C2 (amended). On pointer-up the drag state is cleared in all cases:
    the drag flag is off, no node is held, and the node that was held is no
    longer marked as dragged. The handler publishes the node list for one
    gesture only, a shift-click on a node; a drag, a gesture that started
    on the background, a click on an image node and a plain click on a text
    node publish nothing at pointer-up. When the displacement is not below
    the threshold no click semantics fire: no expansion is started, no mark
    is toggled, no detail view is opened, and the only write is the cleared
    drag flag of the node. *)
Theorem pointer_up_clears_drag_state (e : MouseEvent.t) (st : State.t) :
  let st' := fst (handleMouseUp e st) in
  State.isDragging st' = false
  /\ State.dragNode st' = None
  /\ (forall node n, State.dragNode st = Some node -> deref st node = Some n ->
        notDragged (State.objects st') node)
  /\ State.published st'
     = (if bool_decide (is_Some (State.dragNode st))
           && isClick e st && MouseEvent.shiftKey e
        then State.nodesRef st :: State.published st
        else State.published st)
  /\ (isClick e st = false ->
        snd (handleMouseUp e st) = None
        /\ State.infoNode st' = State.infoNode st
        /\ State.tick st' = State.tick st
        /\ State.objects st'
           = match State.dragNode st with
             | Some node =>
                 alter (PhysicsNode.set_isDragging false) node (State.objects st)
             | None => State.objects st
             end).
Proof.
  unfold handleMouseUp, isClick.
  cbn [State.dragNode State.set_cursor State.set_isDragging].
  destruct (State.dragNode st) as [node|] eqn:Hdrag.
  2:{ cbn. rewrite ?Hdrag. split; [reflexivity|]. split; [reflexivity|].
      split; [intros ? ? [=]|]. split; [reflexivity|].
      intros _. now rewrite ?Hdrag. }
  set (st1 := State.set_dragNode None _).
  change (moveDist e st1) with (moveDist e st).
  assert (Hheld : forall n, deref st node = Some n ->
                            notDragged (State.objects st1) node).
  { intros n Hn. exists (PhysicsNode.set_isDragging false n). split; [|reflexivity].
    subst st1. cbn [State.objects State.set_dragNode]. rewrite objects_mutate.
    cbn [State.objects State.set_cursor State.set_isDragging].
    unfold deref in Hn. now rewrite list_lookup_alter_eq, Hn. }
  rewrite (bool_decide_eq_true_2 (is_Some (Some node)))
    by (eapply mk_is_Some; reflexivity).
  cbn [andb].
  destruct (moveDist e st <? CLICK_THRESHOLD)%js; cbn [andb].
  2:{ cbn [fst snd]. split; [reflexivity|]. split; [reflexivity|].
      split; [intros ? n [= <-] Hn; eauto|]. split; [reflexivity|].
      intros _. subst st1. repeat split; reflexivity. }
  destruct (MouseEvent.shiftKey e).
  - cbn [fst]. split; [reflexivity|]. split; [reflexivity|].
    split; [|split; [reflexivity|discriminate]].
    intros ? n [= <-] Hn.
    cbn [setTick syncNodesToGlobal State.objects State.set_tick State.set_published].
    rewrite objects_mutate. apply notDragged_alter; [reflexivity|eauto].
  - destruct (bool_decide _).
    + cbn [fst]. split; [reflexivity|]. split; [reflexivity|].
      split; [|split; [reflexivity|discriminate]].
      intros ? n [= <-] Hn. eauto.
    + destruct (expandNode_begin_frame node st1) as (Hp & Hd & Hn & Ho).
      split; [exact Hd|]. split; [exact Hn|]. split.
      * intros ? n [= <-] Hnode. destruct Ho as [->|(cur & ->)]; [eauto|].
        apply notDragged_alter; [reflexivity|eauto].
      * split; [exact Hp|discriminate].
Qed.

(** C2 as stated fails: the root is pressed and released 100 pixels away
    (a drag), and the empty canvas is pressed and released in place; in
    both gestures pointer-up clears the drag state and publishes nothing. *)
Lemma pointer_up_after_a_drag_publishes_nothing :
  let pressed := handleMouseDown canvas0 (mouseAt 400 300) st_idle_a in
  let released := fst (handleMouseUp (mouseAt 500 300) pressed) in
  let pressed_bg := handleMouseDown canvas0 (mouseAt 10 10) st_idle_a in
  let released_bg := fst (handleMouseUp (mouseAt 10 10) pressed_bg) in
  State.dragNode pressed = Some 0%nat
  /\ isClick (mouseAt 500 300) pressed = false
  /\ State.isDragging released = false
  /\ State.published released = State.published pressed
  /\ State.published released <> State.nodesRef released :: State.published pressed
  /\ State.dragNode pressed_bg = None
  /\ State.published released_bg = State.published pressed_bg
  /\ State.published released_bg
     <> State.nodesRef released_bg :: State.published pressed_bg.
Proof.
  repeat (split; [vm_compute; first [reflexivity|discriminate]|]).
  vm_compute. discriminate.
Qed.

Lemma pointer_up_clears_drag_state_witness :
  notDragged (State.objects (fst (handleMouseUp (mouseAt 500 300) st_pressed)))
             0%nat.
Proof.
  eapply (proj1 (proj2 (proj2
            (pointer_up_clears_drag_state (mouseAt 500 300) st_pressed)))).
  - vm_compute. reflexivity.
  - vm_compute. reflexivity.
Defined.

(** ** Spring links *)

(** C6. For a link whose two ends are found in the store as distinct
    objects, one pass of the spring phase computes the distance [dist]
    between the ends (1 when they coincide), the target distance 260 plus
    half the sum of the two radii, and the force (dist - targetDist) * 0.008;
    it adds the force along the axis from source to target, (dx / dist, dy /
    dist) times the force, to the velocity of the source and subtracts the
    same from the velocity of the target; an end that is being dragged is
    left as it is, and so is every other object. *)
Theorem spring_force_on_a_link
    (h : heap) (pNodes : list ref) (link : PhysicsLink.t)
    (s t : ref) (source target : PhysicsNode.t) :
  find_by_id h pNodes (PhysicsLink.source link) = Some s ->
  find_by_id h pNodes (PhysicsLink.target link) = Some t ->
  h !! s = Some source ->
  h !! t = Some target ->
  s <> t ->
  let dx := (PhysicsNode.x target - PhysicsNode.x source)%js in
  let dy := (PhysicsNode.y target - PhysicsNode.y source)%js in
  let dist := Num.or_else (Num.sqrt (dx * dx + dy * dy)%js) (Num.ofZ 1) in
  let targetDist :=
    (Num.ofZ 260
     + (PhysicsNode.radius source + PhysicsNode.radius target) * Num.dec 5 10)%js in
  let force := ((dist - targetDist) * Num.dec 8 1000)%js in
  let fx := (dx / dist * force)%js in
  let fy := (dy / dist * force)%js in
  let h' := Spring.springLink pNodes link h in
  h' !! s
  = Some (if flag (PhysicsNode.isDragging source) then source
          else PhysicsNode.set_vel (PhysicsNode.vx source + fx)%js
                                   (PhysicsNode.vy source + fy)%js source)
  /\ h' !! t
     = Some (if flag (PhysicsNode.isDragging target) then target
             else PhysicsNode.set_vel (PhysicsNode.vx target - fx)%js
                                      (PhysicsNode.vy target - fy)%js target)
  /\ (forall r, r <> s -> r <> t -> h' !! r = h !! r)
  /\ length h' = length h.
Proof.
  intros Hs Ht Hsource Htarget Hne dx dy dist targetDist force fx fy h'.
  subst h'. unfold Spring.springLink. rewrite Hs, Ht, Hsource, Htarget.
  change (Spring.fx source target) with fx.
  change (Spring.fy source target) with fy.
  split; [|split; [|split]].
  - rewrite list_lookup_alter_ne by congruence.
    now rewrite list_lookup_alter_eq, Hsource.
  - rewrite list_lookup_alter_eq, list_lookup_alter_ne by congruence.
    now rewrite Htarget.
  - intros r Hrs Hrt. now rewrite !list_lookup_alter_ne by congruence.
  - now rewrite !length_alter.
Qed.

Lemma spring_force_on_a_link_witness :
  State.linksRef st_one_child = [link_root_x]
  /\ exists source',
       Spring.springLink (State.nodesRef st_one_child) link_root_x
                         (State.objects st_one_child) !! 0%nat
       = Some source'.
Proof.
  split; [vm_compute; reflexivity|]. eexists.
  eapply (proj1 (spring_force_on_a_link (State.objects st_one_child)
                   (State.nodesRef st_one_child) link_root_x 0%nat 1%nat
                   _ _ _ _ _ _ _)).
  Unshelve.
  all: try (vm_compute; reflexivity).
  discriminate.
Defined.

(** The link of [st_one_child] is 208 long, shorter than its target
    distance 296.5: the spring pushes the root to the left and the child to
    the right, by the same amount. *)
Example spring_pushes_close_nodes_apart :
  let h' := Spring.springLink (State.nodesRef st_one_child) link_root_x
                              (State.objects st_one_child) in
  PhysicsNode.vx <$> h' !! 0%nat = Some (Num.ofZ 0 + Num.ofZ (-708) / Num.ofZ 1000)%js
  /\ PhysicsNode.vx <$> h' !! 1%nat = Some (Num.ofZ 0 - Num.ofZ (-708) / Num.ofZ 1000)%js.
Proof. split; vm_compute; reflexivity. Qed.

(** One whole frame on [st_one_child]: repulsion and spring both push the
    two nodes apart, the root to the left of the origin and the child
    beyond 208; the energy left, about 1.85, is under the threshold and the
    simulation goes to sleep. *)
Example frame_on_one_child :
  let st := physicsUpdate st_one_child in
  State.simulationActiveRef st = false
  /\ (fun n => (PhysicsNode.x n <? Num.ofZ 0)%js) <$> deref st 0%nat = Some true
  /\ (fun n => (Num.ofZ 208 <? PhysicsNode.x n)%js) <$> deref st 1%nat = Some true.
Proof. repeat split; vm_compute; reflexivity. Qed.

(** ** Text layout *)

Lemma split_space_nonempty s : split_space s <> [].
Proof.
  destruct s as [|c s]; simpl; [discriminate|].
  destruct (c =? 32)%N; [discriminate|].
  destruct (split_space s); discriminate.
Qed.

(** A label that splits into one word is that word. *)
Lemma split_space_single s w : split_space s = [w] -> w = s.
Proof.
  revert w. induction s as [|c s IH]; intros w; simpl.
  - now intros [= <-].
  - destruct (c =? 32)%N.
    + intros [= <- H]. now destruct (split_space_nonempty s).
    + destruct (split_space s) as [|w' ws] eqn:E;
        [now destruct (split_space_nonempty s)|].
      intros [= <- ->]. now rewrite (IH w' eq_refl).
Qed.

Section TextLayoutFacts.

Variable measure : jsstring -> number.
Variable maxWidth : number.

Local Abbreviation fits := (fits measure maxWidth).

Lemma wordWrap_lines (P : jsstring -> Prop) words :
  (forall w, w ∈ words -> P w) ->
  forall lines currentLine,
    (forall l, l ∈ lines -> P l \/ fits l) ->
    P currentLine \/ fits currentLine ->
    forall l, l ∈ wordWrap measure maxWidth words lines currentLine ->
              P l \/ fits l.
Proof.
  induction words as [|word words IH]; intros Hw lines cur Hlines Hcur l;
    cbn [wordWrap].
  - intros [H| ->%list_elem_of_singleton]%elem_of_app; auto.
  - assert (Hw' : forall w, w ∈ words -> P w)
      by (intros w H; apply Hw; now right).
    destruct (measure (with_space cur word) <? maxWidth)%js eqn:E.
    + apply IH; auto.
    + apply IH; auto.
      * intros l' [H| ->%list_elem_of_singleton]%elem_of_app; auto.
      * left. apply Hw. now left.
Qed.

Lemma charWrap_lines chars :
  forall lines tempLine,
    (forall l, l ∈ lines -> unmeasured l \/ fits l) ->
    unmeasured tempLine \/ fits tempLine ->
    forall l, l ∈ charWrap measure maxWidth chars lines tempLine ->
              unmeasured l \/ fits l.
Proof.
  induction chars as [|c chars IH]; intros lines temp Hlines Htemp l;
    cbn [charWrap].
  - intros [H| ->%list_elem_of_singleton]%elem_of_app; auto.
  - destruct (measure (temp ++ [c]) <? maxWidth)%js eqn:E.
    + apply IH; auto.
    + apply IH.
      * intros l' [H| ->%list_elem_of_singleton]%elem_of_app; auto.
      * left. right. now exists c.
Qed.

(** C7 (amended). A label with spaces is wrapped word by word, and never
    character by character: each of its lines is a single word of the
    label, which may be as wide as it likes, or was measured narrower than
    [maxWidth]. A label without spaces that is longer than five code units
    and wider than [maxWidth] is wrapped character by character: each of
    its lines is empty, a single code unit, or was measured narrower than
    [maxWidth]. Any other label without spaces is drawn as one line. *)
Theorem wrapped_line_widths (text : jsstring) :
  let words := split_space text in
  let lines := wrapLines measure text maxWidth in
  (length words <> 1%nat ->
     lines = wordWrap measure maxWidth (tl words) [] (hd [] words)
     /\ forall line, line ∈ lines -> line ∈ words \/ fits line)
  /\ (length words = 1%nat -> (5 < length text)%nat ->
      (measure text >? maxWidth)%js = true ->
      lines = charWrap measure maxWidth text [] []
      /\ forall line, line ∈ lines ->
           line = [] \/ (exists c, line = [c]) \/ fits line)
  /\ (length words = 1%nat ->
      (length text <= 5)%nat \/ (measure text >? maxWidth)%js = false ->
      lines = [text]).
Proof.
  intros words lines. subst words lines. unfold wrapLines.
  pose proof (split_space_nonempty text) as Hne.
  destruct (split_space text) as [|w ws] eqn:E; [contradiction|].
  split; [|split].
  - intros Hlen. apply Nat.eqb_neq in Hlen. rewrite Hlen. cbn [andb hd tl].
    split; [reflexivity|]. apply wordWrap_lines.
    + intros w' H. now right.
    + intros l H. inversion H.
    + left. now left.
  - intros Hlen Hlong Hwide. apply Nat.eqb_eq in Hlen. rewrite Hlen.
    apply Nat.ltb_lt in Hlong. rewrite Hlong, Hwide. cbn [andb].
    split; [reflexivity|]. intros line H.
    assert (Hnil : forall l : jsstring, l ∈ [] -> unmeasured l \/ fits l)
      by (intros l Hl; inversion Hl).
    destruct (charWrap_lines text [] [] Hnil
                (or_introl (or_introl eq_refl)) line H) as [[?|?]|?]; auto.
  - intros Hlen Hcase.
    assert (Hw : w = text /\ ws = []).
    { destruct ws; [|discriminate].
      now rewrite (split_space_single text w E). }
    destruct Hw as [-> ->]. cbn [length Nat.eqb andb hd tl].
    destruct Hcase as [Hshort|Hfit].
    + apply Nat.ltb_ge in Hshort. rewrite Hshort. reflexivity.
    + rewrite Hfit. destruct (5 <? length text)%nat; reflexivity.
Qed.

End TextLayoutFacts.

Lemma wrapped_line_widths_witness :
  lit "new world" ∈ split_space (lit "hello brave new world")
  \/ fits measure10 (Num.ofZ 120) (lit "new world").
Proof.
  refine (proj2 (proj1 (wrapped_line_widths measure10 (Num.ofZ 120)
                          (lit "hello brave new world")) _) _ _).
  - vm_compute. discriminate.
  - vm_compute. right. left.
Defined.

Example wrap_hello_brave_new_world :
  wrapLines measure10 (lit "hello brave new world") (Num.ofZ 120)
  = [lit "hello brave"; lit "new world"].
Proof. vm_compute. reflexivity. Qed.

(** C7 as stated fails on a label with a space. On a width of 50 the
    label "ab cdefghijklmnop" is drawn as its two words; the second is 140
    wide and is kept whole, although it is not a lone code unit: wrapped
    character by character it gives four lines, each within the width.
    No character-level wrapping is applied to the word of a sentence. *)
Lemma long_word_of_a_sentence_is_not_character_wrapped :
  let maxWidth := Num.ofZ 50 in
  let lines := wrapLines measure10 twoWordLabel maxWidth in
  split_space twoWordLabel = [lit "ab"; lit "cdefghijklmnop"]
  /\ lines = [lit "ab"; lit "cdefghijklmnop"]
  /\ (measure10 (lit "cdefghijklmnop") <=? maxWidth)%js = false
  /\ charWrap measure10 maxWidth (lit "cdefghijklmnop") [] []
     = [lit "cdef"; lit "ghij"; lit "klmn"; lit "op"]
  /\ Forall (fun line => (measure10 line <=? maxWidth)%js = true)
            (charWrap measure10 maxWidth (lit "cdefghijklmnop") [] [])
  /\ ~ Forall (fun line => (measure10 line <=? maxWidth)%js = true
                           \/ unmeasured line) lines.
Proof.
  intros maxWidth lines.
  assert (E : lines = [lit "ab"; lit "cdefghijklmnop"])
    by (vm_compute; reflexivity).
  split; [vm_compute; reflexivity|]. split; [exact E|].
  split; [vm_compute; reflexivity|]. split; [vm_compute; reflexivity|].
  split.
  - replace (charWrap measure10 maxWidth (lit "cdefghijklmnop") [] [])
      with [lit "cdef"; lit "ghij"; lit "klmn"; lit "op"]
      by (vm_compute; reflexivity).
    repeat (constructor; [vm_compute; reflexivity|]). constructor.
  - rewrite E. intros H.
    apply Forall_cons in H as [_ H]. apply Forall_cons in H as [H _].
    destruct H as [H|[H|[c H]]]; vm_compute in H; discriminate H.
Qed.

(** The character loop can overflow too, on a label without spaces: the
    label is wider than [maxWidth], so it is wrapped character by
    character, and the lines this produces hold one glyph each, 100 pixels
    on a width of about 79. *)
Lemma char_wrapped_line_wider_than_maxWidth :
  let text := PhysicsNode.text wideLabelNode in
  let maxWidth := labelMaxWidth wideLabelNode in
  let lines := wrapLines measure100 text maxWidth in
  length (split_space text) = 1%nat
  /\ (measure100 text >? maxWidth)%js = true
  /\ lines = charWrap measure100 maxWidth text [] []
  /\ lines = [] :: replicate 7 [wideGlyph]
  /\ (measure100 [wideGlyph] <=? maxWidth)%js = false
  /\ ~ Forall (fun line => (measure100 line <=? maxWidth)%js = true) lines.
Proof.
  intros text maxWidth lines.
  assert (E : lines = [] :: replicate 7 [wideGlyph]) by (vm_compute; reflexivity).
  repeat (split; [vm_compute; reflexivity|]).
  rewrite E. cbn [replicate]. intros H.
  apply Forall_cons in H as [_ H]. apply Forall_cons in H as [H _].
  vm_compute in H. discriminate H.
Qed.

(** ** The provider wrapper *)

Section WrapperFacts.

Import Provider.

Variable JSON_parse : jsstring -> Result JsonShape.
Variable toLowerCase : jsstring -> jsstring.

Local Abbreviation expand := (expandBrainstormNode JSON_parse toLowerCase).
Local Abbreviation deciding := (decidingCall JSON_parse toLowerCase).

Lemma execute_faulty call :
  faulty JSON_parse call ->
  execute JSON_parse call = Ok emptyResponse
  \/ exists e, execute JSON_parse call = Throw e.
Proof.
  destruct call as [e|[[|c text]|]]; cbn; eauto.
  intros [H|H]; [discriminate|eauto].
Qed.

Lemma expand_never_rejects primary secondary :
  exists v, expand primary secondary = Ok v.
Proof.
  unfold expandBrainstormNode. destruct (withFallback _ _ _); eauto.
Qed.

Lemma expand_faulty primary secondary :
  faulty JSON_parse (deciding primary secondary) ->
  expand primary secondary = Ok emptyResponse.
Proof.
  unfold expandBrainstormNode, decidingCall, withFallback.
  destruct (execute JSON_parse primary) as [v|e] eqn:Hp.
  - intros H. destruct (execute_faulty primary H) as [E|[e E]]; congruence.
  - destruct (shouldFallback toLowerCase e); [|reflexivity].
    intros H. destruct (execute_faulty secondary H) as [->|[e' ->]]; reflexivity.
Qed.

Lemma empty_response_is_a_warning env cur st n :
  deref st cur = Some n ->
  let st' := expandNode_complete env cur (settle (Ok emptyResponse)) st in
  State.toast st' = Some (Toast.mk msg_nothing_found Warning)
  /\ State.nodesRef st' = State.nodesRef st
  /\ State.linksRef st' = State.linksRef st
  /\ length (State.objects st') = length (State.objects st).
Proof.
  intros Hn st'. subst st'. unfold expandNode_complete. cbn [settle emptyResponse].
  destruct (applyResult_fields env cur AssociationResponse.empty st n Hn)
    as (Ho & Hr & Hl & _ & Ht).
  cbn in Ho, Hr, Hl, Ht. rewrite app_nil_r in Hr, Hl.
  cbn [syncNodesToGlobal mutate State.toast State.nodesRef State.linksRef
       State.objects State.set_published State.set_objects].
  rewrite Ht, Hr, Hl, Ho, !length_alter. auto.
Qed.

Lemma execute_ill_shaped call message :
  execute JSON_parse call = Ok (IllShaped message) ->
  exists text, call = CallResponds (Some text)
               /\ JSON_parse (cleanText text) = Ok (IllShaped message).
Proof.
  destruct call as [e|[[|c text]|]]; cbn; try discriminate. eauto.
Qed.

(** The error branch of the orchestrator is entered through the wrapper
    only when the text of the deciding call parses into something that is
    not a response object. *)
Lemma error_branch_needs_an_ill_shaped_response primary secondary message :
  settle (expand primary secondary) = Threw message ->
  exists text, deciding primary secondary = CallResponds (Some text)
               /\ JSON_parse (cleanText text) = Ok (IllShaped message).
Proof.
  unfold expandBrainstormNode, decidingCall, withFallback.
  destruct (execute JSON_parse primary) as [[r|m]|e] eqn:Hp; cbn.
  - discriminate.
  - intros [= <-]. now apply execute_ill_shaped.
  - destruct (shouldFallback toLowerCase e); [|discriminate].
    destruct (execute JSON_parse secondary) as [[r|m]|e'] eqn:Hs; cbn;
      try discriminate.
    intros [= <-]. now apply execute_ill_shaped.
Qed.

(** C10 (amended). [expandBrainstormNode] never rejects. When the call
    that decides its outcome (the first model's, or the fallback model's
    when the first error is one [withFallback] retries) ends in a provider
    fault (it rejects, answers without text, or answers with text that
    [JSON.parse] refuses), the wrapper resolves with
    [{ up: [], side: [], down: [] }]; the orchestrator then shows the
    "nothing found" warning, not the error notification, and adds no
    nodes or links. The error branch of the orchestrator is entered only
    when the deciding call answered with text that parses, into something
    other than a response object: never through a fault. A fault of the
    first call that [withFallback] retries does not decide: the wrapper
    then resolves with what the fallback call gives, the empty result only
    if that call fails too; a fault of the first call that is not retried
    gives the empty result. *)
Theorem provider_faults_arrive_as_empty_results
    (primary secondary : CallOutcome) :
  (exists v, expand primary secondary = Ok v)
  /\ (faulty JSON_parse (deciding primary secondary) ->
      expand primary secondary = Ok emptyResponse
      /\ forall env cur st n,
           deref st cur = Some n ->
           let st' :=
             expandNode_complete env cur
               (settle (expand primary secondary)) st in
           State.toast st' = Some (Toast.mk msg_nothing_found Warning)
           /\ State.nodesRef st' = State.nodesRef st
           /\ State.linksRef st' = State.linksRef st
           /\ length (State.objects st') = length (State.objects st))
  /\ (forall message,
        settle (expand primary secondary) = Threw message ->
        ~ faulty JSON_parse (deciding primary secondary)
        /\ exists text,
             deciding primary secondary = CallResponds (Some text)
             /\ JSON_parse (cleanText text) = Ok (IllShaped message))
  /\ (forall error,
        execute JSON_parse primary = Throw error ->
        expand primary secondary
        = if shouldFallback toLowerCase error
          then match execute JSON_parse secondary with
               | Ok v => Ok v
               | Throw _ => Ok emptyResponse
               end
          else Ok emptyResponse)
  /\ settle (expand primary secondary) <> ThrewNullish.
Proof.
  split; [apply expand_never_rejects|]. split; [|split; [|split]].
  - intros H. pose proof (expand_faulty primary secondary H) as E.
    split; [exact E|]. intros env cur st n Hn. rewrite E.
    now apply (empty_response_is_a_warning env cur st n).
  - intros message H. split.
    + intros Hf. rewrite (expand_faulty primary secondary Hf) in H.
      discriminate H.
    + now apply error_branch_needs_an_ill_shaped_response.
  - intros error E. unfold expandBrainstormNode, withFallback. rewrite E.
    now destruct (shouldFallback toLowerCase error).
  - destruct (expand_never_rejects primary secondary) as [[r|m] ->]; discriminate.
Qed.

End WrapperFacts.

Lemma provider_faults_arrive_as_empty_results_witness :
  Provider.expandBrainstormNode parse_nothing (fun s => s)
    call_overloaded call_prose
  = Provider.Ok Provider.emptyResponse.
Proof.
  refine (proj1 (proj1 (proj2 (provider_faults_arrive_as_empty_results
                                 parse_nothing (fun s => s)
                                 call_overloaded call_prose)) _)).
  right. exists (Provider.ApiError.mk None (lit "Unexpected token")).
  reflexivity.
Defined.

(** C10 as stated fails: the first model is overloaded, a provider error,
    and the wrapper does not resolve with the empty result. [withFallback]
    retries the error on the fallback model, whose answer parses into the
    carrot response, and the wrapper resolves with that; the orchestrator
    then adds the five children and shows no warning. *)
Lemma retried_error_with_a_good_fallback_is_not_empty :
  let result :=
    Provider.expandBrainstormNode parse_carrot (fun s => s)
      call_overloaded call_carrot in
  let st' := expandNode_complete env0 0%nat (Provider.settle result) st_root_a in
  Provider.execute parse_carrot call_overloaded
  = Provider.Throw (Provider.ApiError.mk (Some 503) (lit "overloaded"))
  /\ Provider.shouldFallback (fun s => s)
       (Provider.ApiError.mk (Some 503) (lit "overloaded")) = true
  /\ result = Provider.Ok (Provider.Shaped carrotResponse)
  /\ result <> Provider.Ok Provider.emptyResponse
  /\ Provider.settle result = Resolved carrotResponse
  /\ State.nodesRef st' = [0; 1; 2; 3; 4; 5]%nat
  /\ State.toast st' = None.
Proof.
  repeat (split; [vm_compute; first [reflexivity|discriminate]|]).
  vm_compute. reflexivity.
Qed.

(** * Further properties of the code *)

(** ** More facts about binary64 arithmetic *)

Lemma SFcompare_not_nan (x y : number) :
  Num.isNaN x = false -> Num.isNaN y = false -> is_Some (SFcompare x y).
Proof.
  destruct x as [sx|sx| |sx mx ex], y as [sy|sy| |sy my ey];
    try discriminate; intros _ _; eexists; reflexivity.
Qed.

Lemma lt_false_le (x y : number) :
  Num.isNaN x = false -> Num.isNaN y = false ->
  (y <? x)%js = false -> (x <=? y)%js = true.
Proof.
  intros Hx Hy. destruct (SFcompare_not_nan x y Hx Hy) as [c Hc].
  unfold Num.le, Num.lt, SFleb, SFltb. rewrite (SFcompare_antisym x y), Hc.
  destruct c; simpl; congruence.
Qed.

Lemma min_step_pInf (x : number) :
  Num.isNaN x = false -> Num.min_step Num.pInf x = x.
Proof. destruct x as [[]|[]| |[]]; try discriminate; reflexivity. Qed.

Lemma min_step_finite_r (x : number) s m e :
  Num.isNaN x = false ->
  Num.min_step x (S754_finite s m e)
  = if (S754_finite s m e <? x)%js then S754_finite s m e else x.
Proof. destruct x as [[]|[]| |]; try discriminate; reflexivity. Qed.

Lemma le_refl_finite s m e : (S754_finite s m e <=? S754_finite s m e)%js = true.
Proof.
  unfold Num.le, SFleb. cbn [SFcompare]. rewrite Z.compare_refl.
  change (Pos.compare_cont Eq m m) with (Pos.compare m m).
  rewrite Pos.compare_refl. now destruct s.
Qed.

(** [Math.min(x, c)] is at most [c], for [x] a number and [c] finite and
    not zero. *)
Lemma Math_min_le_r (x : number) s m e :
  Num.isNaN x = false ->
  (Num.Math_min x (S754_finite s m e) <=? S754_finite s m e)%js = true.
Proof.
  intros Hx. unfold Num.Math_min.
  rewrite (min_step_pInf x Hx), (min_step_finite_r x s m e Hx).
  destruct (S754_finite s m e <? x)%js eqn:E.
  - apply le_refl_finite.
  - now apply lt_false_le.
Qed.

(** The sign of a rounded value is the sign that was asked for. *)
Lemma binary_round_aux_sign p e sx mx ex lx :
  0 <= mx ->
  match binary_round_aux p e sx mx ex lx with
  | S754_zero s | S754_infinity s | S754_finite s _ _ => s = sx
  | S754_nan => False
  end.
Proof.
  intros H. pose proof (binary_round_aux_not_nan p e sx mx ex lx H) as Hn.
  revert Hn. unfold binary_round_aux.
  destruct (shr_fexp p e mx ex lx) as [mrs' e'].
  destruct (shr_fexp p e _ e' loc_Exact) as [mrs'' e''].
  destruct (shr_m mrs'') as [|m|m]; try reflexivity; [|discriminate].
  now destruct (e'' <=? e - p).
Qed.

Lemma ofZ_nonneg (z : Z) :
  0 <= z ->
  match Num.ofZ z with
  | S754_zero s | S754_infinity s | S754_finite s _ _ => s = false
  | S754_nan => False
  end.
Proof.
  intros H. unfold Num.ofZ, binary_normalize. destruct z as [|m|m]; [reflexivity| |lia].
  unfold binary_round. destruct (shl_align _ _ _) as [mz ez].
  apply binary_round_aux_sign. lia.
Qed.

Lemma sqrt_core_nonneg p e m ex :
  0 <= m -> 0 <= fst (fst (SFsqrt_core_binary p e m ex)).
Proof.
  intros H. unfold SFsqrt_core_binary.
  set (s := ex - 2 * _).
  set (m' := match s with 0 => m | Z.pos _ => Z.shiftl m s | Z.neg _ => 0 end).
  assert (Hm' : 0 <= m').
  { subst m'. destruct s; try lia. now apply Z.shiftl_nonneg. }
  pose proof (Z.sqrtrem_spec m' Hm') as Hs.
  change IntDef.Z.sqrtrem with Z.sqrtrem.
  destruct (Z.sqrtrem m') as [q r]. cbn [fst]. lia.
Qed.

(** The square root of a number that is not negative is a number. *)
Lemma sqrt_ofZ_not_nan (z : Z) : 0 <= z -> Num.isNaN (Num.sqrt (Num.ofZ z)) = false.
Proof.
  intros H. pose proof (ofZ_nonneg z H) as Hs.
  destruct (Num.ofZ z) as [s|s| |s m e]; try contradiction; subst; try reflexivity.
  unfold Num.sqrt, SFsqrt.
  pose proof (sqrt_core_nonneg Num.prec Num.emax (Z.pos m) e ltac:(lia)) as Hq.
  destruct (SFsqrt_core_binary _ _ _ _) as [[mz ez] lz]. cbn [fst] in Hq.
  now apply binary_round_aux_not_nan.
Qed.

(** A finite number minus itself is zero. *)
Lemma sub_diag_finite (x : number) :
  isFinite x = true -> (x - x)%js = S754_zero false.
Proof.
  destruct x as [[]| | |s m e]; try discriminate; try reflexivity.
  intros _. unfold Num.sub, SFsub. now rewrite Z.sub_diag.
Qed.

(** ** [createPhysicsNode] *)

Lemma baseStyle_radius (node : MindMapNode.t) :
  fst (baseStyle node) = BASE_RADIUS.root
  \/ fst (baseStyle node) = BASE_RADIUS.image
  \/ fst (baseStyle node) = BASE_RADIUS.normal.
Proof.
  unfold baseStyle. destruct (_ =? _); [now left|].
  repeat (destruct (bool_decide _); [cbn [fst]; tauto|]). cbn [fst]. tauto.
Qed.

Lemma growth_not_nan (textLen : nat) :
  Num.isNaN (Num.sqrt (Num.ofZ (Z.of_nat textLen)) * Num.ofZ 6)%js = false.
Proof.
  apply mul_not_nan; [|reflexivity|reflexivity].
  apply sqrt_ofZ_not_nan. lia.
Qed.

Lemma adaptiveRadius_capped (r : number) (textLen : nat) :
  isFinite r = true -> (r <=? Num.ofZ 90)%js = true ->
  (adaptiveRadius r textLen <=? Num.ofZ 90)%js = true.
Proof.
  intros Hf Hr. unfold adaptiveRadius. destruct (6 <? textLen)%nat; [|exact Hr].
  cbv zeta.
  replace (Num.ofZ 90) with (S754_finite false 6333186975989760 (-46))
    by (vm_compute; reflexivity).
  apply Math_min_le_r, add_not_nan; [exact Hf|apply growth_not_nan].
Qed.

(** X1. Whatever its data and position, a node is created at rest and not
    dragged, with the data it was given and a radius of at most 90; a label
    of at most six code units gets exactly the base radius of its kind: 45
    for the root, 40 for an image, 28 for any other node. *)
Theorem created_node_radius_is_capped (node : MindMapNode.t) (x y : number) :
  let n := createPhysicsNode node x y in
  (PhysicsNode.radius n <=? Num.ofZ 90)%js = true
  /\ ((length (MindMapNode.text node) <= 6)%nat ->
      PhysicsNode.radius n
      = if (MindMapNode.level node =? 0)%Z then Num.ofZ 45
        else if bool_decide (MindMapNode.type node = Image) then Num.ofZ 40
        else Num.ofZ 28)
  /\ PhysicsNode.base n = node
  /\ PhysicsNode.x n = x /\ PhysicsNode.y n = y
  /\ PhysicsNode.vx n = Num.ofZ 0 /\ PhysicsNode.vy n = Num.ofZ 0
  /\ PhysicsNode.isDragging n = None.
Proof.
  cbv zeta. unfold createPhysicsNode. cbn [PhysicsNode.radius PhysicsNode.base
    PhysicsNode.x PhysicsNode.y PhysicsNode.vx PhysicsNode.vy PhysicsNode.isDragging].
  split; [|split; [|repeat split]].
  - destruct (baseStyle_radius node) as [-> |[-> | ->]];
      apply adaptiveRadius_capped; vm_compute; reflexivity.
  - intros Hlen. unfold adaptiveRadius.
    apply Nat.ltb_ge in Hlen. rewrite Hlen. unfold baseStyle.
    destruct (_ =? _); [reflexivity|].
    repeat (destruct (bool_decide _); [reflexivity|]). reflexivity.
Qed.

(** ** Pointer-down: the hit test *)

Lemma find_reverse_Some {A} (p : A -> bool) (l : list A) (r : A) :
  List.find p (reverse l) = Some r ->
  exists i, l !! i = Some r /\ p r = true
            /\ forall j r', (i < j)%nat -> l !! j = Some r' -> p r' = false.
Proof.
  induction l as [|a l IH] using rev_ind; [discriminate|].
  rewrite reverse_snoc. cbn [List.find]. destruct (p a) eqn:Ha.
  - intros [= <-]. exists (length l). split; [now apply list_lookup_middle|].
    split; [exact Ha|]. intros j r' Hj Hr'.
    apply lookup_lt_Some in Hr'. rewrite length_app in Hr'. cbn in Hr'. lia.
  - intros H. destruct (IH H) as (i & Hi & Hp & Hlater).
    exists i. split; [now apply lookup_app_l_Some|]. split; [exact Hp|].
    intros j r' Hj Hr'. destruct (decide (j < length l)%nat) as [Hlt|Hge].
    + rewrite lookup_app_l in Hr' by exact Hlt. eauto.
    + rewrite lookup_app_r in Hr' by lia.
      destruct (j - length l)%nat; [|destruct n; discriminate].
      now injection Hr' as <-.
Qed.

Lemma find_reverse_None {A} (p : A -> bool) (l : list A) :
  List.find p (reverse l) = None -> forall r, r ∈ l -> p r = false.
Proof.
  intros H r Hr. destruct (p r) eqn:E; [|reflexivity].
  assert (Hin : In r (reverse l)).
  { apply list_elem_of_In. now apply elem_of_reverse. }
  now rewrite (find_none p (reverse l) H r Hin) in E.
Qed.

(** X2. A pointer-down always starts a gesture and records where it began.
    It grabs the node under the pointer that comes last in the store array
    (the one drawn on top), marks that node as dragged and wakes the
    simulation; when no node of the store is under the pointer it grabs
    nothing, and writes no node. The store arrays and the viewport are
    left as they were. *)
Theorem pointer_down_grabs_the_topmost_node
    (canvas : Canvas.t) (e : MouseEvent.t) (st : State.t) :
  let st' := handleMouseDown canvas e st in
  State.isDragging st' = true
  /\ State.startDragPos st' = Point.mk (MouseEvent.clientX e) (MouseEvent.clientY e)
  /\ State.lastMousePos st' = Point.mk (MouseEvent.clientX e) (MouseEvent.clientY e)
  /\ State.nodesRef st' = State.nodesRef st
  /\ State.linksRef st' = State.linksRef st
  /\ State.transformRef st' = State.transformRef st
  /\ State.published st' = State.published st
  /\ match State.dragNode st' with
     | Some r =>
         (exists i, State.nodesRef st !! i = Some r
                    /\ under canvas e st r = true
                    /\ forall j r', (i < j)%nat ->
                         State.nodesRef st !! j = Some r' ->
                         under canvas e st r' = false)
         /\ State.objects st'
            = alter (PhysicsNode.set_isDragging true) r (State.objects st)
         /\ State.simulationActiveRef st' = true
     | None =>
         (forall r, r ∈ State.nodesRef st -> under canvas e st r = false)
         /\ State.objects st' = State.objects st
         /\ State.simulationActiveRef st' = State.simulationActiveRef st
     end.
Proof.
  cbv zeta. unfold handleMouseDown.
  set (here := Point.mk _ _).
  set (st0 := State.set_startDragPos here (State.set_lastMousePos here st)).
  assert (Hhit : hitTest (getWorldPos canvas e st) st0
                 = List.find (under canvas e st) (reverse (State.nodesRef st)))
    by reflexivity.
  rewrite Hhit.
  destruct (List.find _ _) as [r|] eqn:Hfind.
  - repeat (split; [reflexivity|]). cbn [State.dragNode State.set_dragNode
      State.set_simulationActiveRef mutate State.set_objects].
    split; [|split; reflexivity].
    now apply find_reverse_Some.
  - repeat (split; [reflexivity|]). cbn [State.dragNode State.set_dragNode].
    split; [|split; reflexivity].
    now apply find_reverse_None.
Qed.

(** ** The physics update: what a frame may change *)

Section Phases.

Variable R : PhysicsNode.t -> PhysicsNode.t -> Prop.
Hypothesis R_push : forall n0 n ax ay, R n0 n -> R n0 (push ax ay n).
Hypothesis R_pull : forall n0 n ax ay, R n0 n -> R n0 (pull ax ay n).

Lemma repelPair_rel (h0 h : heap) a b :
  Forall2 R h0 h -> Forall2 R h0 (Repulsion.repelPair a b h).
Proof using R_push R_pull.
  intros H. unfold Repulsion.repelPair.
  destruct (h !! a) as [na|]; [|exact H].
  destruct (h !! b) as [nb|]; [|exact H].
  destruct (_ <? _)%js; [|exact H].
  apply Forall2_alter_r; [apply Forall2_alter_r; [exact H|]|]; eauto.
Qed.

Lemma repelAll_rel pNodes : forall (h0 h : heap),
  Forall2 R h0 h -> Forall2 R h0 (Repulsion.repelAll pNodes h).
Proof using R_push R_pull.
  induction pNodes as [|a rest IH]; intros h0 h H; cbn [Repulsion.repelAll];
    [exact H|].
  apply IH. clear IH. revert h H.
  induction rest as [|b rest IH]; intros h H; cbn [fold_left]; [exact H|].
  apply IH. now apply repelPair_rel.
Qed.

Lemma springLink_rel pNodes link (h0 h : heap) :
  Forall2 R h0 h -> Forall2 R h0 (Spring.springLink pNodes link h).
Proof using R_push R_pull.
  intros H. unfold Spring.springLink.
  destruct (find_by_id h pNodes _) as [s|]; [|exact H].
  destruct (find_by_id h pNodes _) as [t|]; [|exact H].
  destruct (h !! s) as [source|]; [|exact H].
  destruct (h !! t) as [target|]; [|exact H].
  apply Forall2_alter_r; [apply Forall2_alter_r; [exact H|]|]; eauto.
Qed.

Lemma springLinks_rel pNodes links : forall (h0 h : heap),
  Forall2 R h0 h -> Forall2 R h0 (Spring.springLinks pNodes links h).
Proof using R_push R_pull.
  induction links as [|l links IH]; intros h0 h H; cbn; [exact H|].
  apply IH. now apply springLink_rel.
Qed.

End Phases.

Lemma forced_refl n : forced n n.
Proof.
  split; [|reflexivity].
  exists (PhysicsNode.vx n), (PhysicsNode.vy n). now destruct n.
Qed.

Lemma forced_push n0 n ax ay : forced n0 n -> forced n0 (push ax ay n).
Proof.
  intros [(vx & vy & ->) Hfz]. unfold push.
  destruct (flag _) eqn:E.
  - split; [now exists vx, vy|intros _; now apply Hfz].
  - split; [now eexists _, _|].
    change (flag (PhysicsNode.isDragging n0) = false) in E. congruence.
Qed.

Lemma forced_pull n0 n ax ay : forced n0 n -> forced n0 (pull ax ay n).
Proof.
  intros [(vx & vy & ->) Hfz]. unfold pull.
  destruct (flag _) eqn:E.
  - split; [now exists vx, vy|intros _; now apply Hfz].
  - split; [now eexists _, _|].
    change (flag (PhysicsNode.isDragging n0) = false) in E. congruence.
Qed.

Lemma forced_framed n n' : forced n n' -> framed n n'.
Proof.
  intros [(vx & vy & ->) Hfz]. split; [|exact Hfz].
  now exists (PhysicsNode.x n), (PhysicsNode.y n), vx, vy.
Qed.

(** The two force phases change velocities only, and not those of a
    dragged node. *)
Lemma forces_forced pNodes links (h : heap) :
  Forall2 forced h
    (Spring.springLinks pNodes links (Repulsion.repelAll pNodes h)).
Proof.
  apply (springLinks_rel forced forced_push forced_pull).
  apply (repelAll_rel forced forced_push forced_pull).
  apply Forall_Forall2_diag, Forall_forall. intros n _. apply forced_refl.
Qed.

Lemma framed_integrate n0 n :
  framed n0 n -> flag (PhysicsNode.isDragging n) = false ->
  framed n0 (Integration.integrate n).
Proof.
  intros [(x & y & vx & vy & ->) Hfz] Hd. split; [now eexists _, _, _, _|].
  intros H. change (flag (PhysicsNode.isDragging n0) = false) in Hd. congruence.
Qed.

Lemma integrateNode_framed (h0 : heap) acc r :
  Forall2 framed h0 (fst acc) ->
  Forall2 framed h0 (fst (Integration.integrateNode acc r)).
Proof.
  destruct acc as [h e]. cbn [fst Integration.integrateNode]. intros H.
  destruct (h !! r) as [n|] eqn:Hn; [|exact H].
  destruct (flag _) eqn:Hd; [exact H|]. cbn [fst].
  rewrite list_insert_alter. apply Forall2_alter_r; [exact H|].
  intros x y _ Hy Hxy. rewrite Hn in Hy. injection Hy as <-.
  now apply framed_integrate.
Qed.

Lemma integrateAll_framed pNodes (h0 h : heap) :
  Forall2 framed h0 h ->
  Forall2 framed h0 (fst (Integration.integrateAll pNodes h)).
Proof.
  unfold Integration.integrateAll. generalize (Num.ofZ 0). revert h.
  induction pNodes as [|a rest IH]; intros h e H; cbn [fold_left]; [exact H|].
  pose proof (integrateNode_framed h0 (h, e) a H) as H'.
  destruct (Integration.integrateNode (h, e) a) as [h' e']. now apply IH.
Qed.

(** *** Objects outside the store *)

Lemma repelAll_outside pNodes : forall (h : heap) r,
  r ∉ pNodes -> Repulsion.repelAll pNodes h !! r = h !! r.
Proof.
  induction pNodes as [|a rest IH]; intros h r Hr; cbn [Repulsion.repelAll];
    [reflexivity|].
  apply not_elem_of_cons in Hr as [Hra Hrest]. rewrite IH by exact Hrest.
  clear IH. revert h.
  induction rest as [|b rest IH]; intros h; cbn [fold_left]; [reflexivity|].
  apply not_elem_of_cons in Hrest as [Hrb Hrest]. rewrite IH by exact Hrest.
  unfold Repulsion.repelPair.
  destruct (h !! a) as [na|]; [|reflexivity].
  destruct (h !! b) as [nb|]; [|reflexivity].
  destruct (_ <? _)%js; [|reflexivity].
  now rewrite !list_lookup_alter_ne by congruence.
Qed.

Lemma springLinks_outside pNodes links : forall (h : heap) r,
  r ∉ pNodes -> Spring.springLinks pNodes links h !! r = h !! r.
Proof.
  induction links as [|l links IH]; intros h r Hr; cbn; [reflexivity|].
  fold (Spring.springLinks pNodes links (Spring.springLink pNodes l h)).
  rewrite IH by exact Hr. unfold Spring.springLink.
  destruct (find_by_id h pNodes _) as [s|] eqn:Hs; [|reflexivity].
  destruct (find_by_id h pNodes (PhysicsLink.target l)) as [t|] eqn:Ht;
    [|reflexivity].
  destruct (h !! s) as [source|]; [|reflexivity].
  destruct (h !! t) as [target|]; [|reflexivity].
  apply find_by_id_Some in Hs as [Hs _]. apply find_by_id_Some in Ht as [Ht _].
  rewrite !list_lookup_alter_ne; [reflexivity| |]; intros ->; contradiction.
Qed.

Lemma integrateNode_other acc a r :
  a <> r -> fst (Integration.integrateNode acc a) !! r = fst acc !! r.
Proof.
  destruct acc as [h e]. cbn [fst Integration.integrateNode]. intros Hne.
  destruct (h !! a) as [n|]; [|reflexivity].
  destruct (flag _); [reflexivity|]. cbn [fst].
  now apply list_lookup_insert_ne.
Qed.

Lemma integrate_fold_outside pNodes : forall acc r,
  r ∉ pNodes ->
  fst (fold_left Integration.integrateNode pNodes acc) !! r = fst acc !! r.
Proof.
  induction pNodes as [|a rest IH]; intros acc r Hr; cbn [fold_left];
    [reflexivity|].
  apply not_elem_of_cons in Hr as [Hra Hrest].
  rewrite IH by exact Hrest. apply integrateNode_other. congruence.
Qed.

(** In a store without repetitions every node that is not dragged is
    integrated exactly once. *)
Lemma integrate_fold_once pNodes : forall acc r n,
  NoDup pNodes -> r ∈ pNodes -> fst acc !! r = Some n ->
  flag (PhysicsNode.isDragging n) = false ->
  fst (fold_left Integration.integrateNode pNodes acc) !! r
  = Some (Integration.integrate n).
Proof.
  induction pNodes as [|a rest IH]; intros acc r n Hnd Hin Hn Hd;
    [inversion Hin|].
  apply NoDup_cons in Hnd as [Hnotin Hnd]. cbn [fold_left].
  destruct (decide (a = r)) as [->|Hne].
  - rewrite integrate_fold_outside by exact Hnotin.
    destruct acc as [h e]. cbn [fst Integration.integrateNode] in *.
    rewrite Hn, Hd. cbn [fst]. apply list_lookup_insert_eq.
    now apply lookup_lt_Some in Hn.
  - apply elem_of_cons in Hin as [->|Hin]; [contradiction|].
    apply IH; auto. now rewrite integrateNode_other.
Qed.

Lemma physicsUpdate_objects st :
  State.objects (physicsUpdate st)
  = if State.simulationActiveRef st || State.isDragging st
    then frameHeap st else State.objects st.
Proof.
  unfold physicsUpdate, frameHeap. destruct (_ || _); [|reflexivity].
  destruct (Integration.integrateAll _ _) as [h e]. cbn [fst].
  now destruct (_ && _).
Qed.

Lemma frameHeap_framed st : Forall2 framed (State.objects st) (frameHeap st).
Proof.
  apply integrateAll_framed.
  eapply Forall2_impl; [apply forces_forced|]. apply forced_framed.
Qed.

Lemma physicsUpdate_framed st :
  Forall2 framed (State.objects st) (State.objects (physicsUpdate st)).
Proof.
  rewrite physicsUpdate_objects. destruct (_ || _); [apply frameHeap_framed|].
  apply Forall_Forall2_diag, Forall_forall. intros n _.
  apply forced_framed, forced_refl.
Qed.

Lemma physicsUpdate_outside st r :
  r ∉ State.nodesRef st -> deref (physicsUpdate st) r = deref st r.
Proof.
  intros Hr. unfold deref. rewrite physicsUpdate_objects.
  destruct (_ || _); [|reflexivity]. unfold frameHeap, Integration.integrateAll.
  rewrite integrate_fold_outside by exact Hr. cbn [fst].
  now rewrite springLinks_outside, repelAll_outside.
Qed.

Lemma physicsUpdate_fields st :
  let st' := physicsUpdate st in
  State.nodesRef st' = State.nodesRef st
  /\ State.linksRef st' = State.linksRef st
  /\ State.transformRef st' = State.transformRef st
  /\ State.isDragging st' = State.isDragging st
  /\ State.dragNode st' = State.dragNode st
  /\ State.lastMousePos st' = State.lastMousePos st
  /\ State.startDragPos st' = State.startDragPos st
  /\ State.published st' = State.published st
  /\ State.toast st' = State.toast st
  /\ State.infoNode st' = State.infoNode st.
Proof.
  cbv zeta. unfold physicsUpdate. destruct (_ || _); [|repeat split].
  destruct (Integration.integrateAll _ _) as [h e].
  destruct (_ && _); repeat split.
Qed.

(** X3. A frame never moves a node that is being dragged: the object is,
    field for field, what it was before the frame, whatever the forces on
    it. *)
Theorem physics_leaves_a_dragged_node_alone
    (st : State.t) (r : ref) (n : PhysicsNode.t) :
  deref st r = Some n -> flag (PhysicsNode.isDragging n) = true ->
  deref (physicsUpdate st) r = Some n.
Proof.
  intros Hn Hd. unfold deref in *.
  destruct (Forall2_lookup_l _ _ _ _ _ (physicsUpdate_framed st) Hn)
    as (n' & Hn' & _ & Hfz).
  now rewrite Hn', (Hfz Hd).
Qed.

(** The child of [st_one_child], which a frame pushes to the right when
    it is free, is held; the frame moves the root and spares the child. *)
Lemma physics_leaves_a_dragged_node_alone_witness :
  exists n, deref st_child_pressed 1%nat = Some n
            /\ deref (physicsUpdate st_child_pressed) 1%nat = Some n
            /\ deref (physicsUpdate st_one_child) 1%nat <> deref st_one_child 1%nat
            /\ deref (physicsUpdate st_child_pressed) 0%nat
               <> deref st_child_pressed 0%nat.
Proof.
  eexists. split; [vm_compute; reflexivity|]. split.
  - apply physics_leaves_a_dragged_node_alone; vm_compute; reflexivity.
  - split; vm_compute; discriminate.
Defined.

(** X4. A frame changes nothing but motion: every object keeps its data
    (id, text, level, marks, loading flag, children), its radius, its
    colour and its drag flag, and only its position and velocity may
    differ; no object is created or dropped; the objects that are not in
    the store are not touched at all; and the store arrays, the links, the
    viewport, the gesture state and what was published are what they
    were. While the simulation sleeps and nothing is dragged the frame
    changes nothing whatsoever. *)
Theorem physics_only_moves_nodes (st : State.t) :
  let st' := physicsUpdate st in
  Forall2 sameButMotion (State.objects st) (State.objects st')
  /\ (forall r, r ∉ State.nodesRef st -> deref st' r = deref st r)
  /\ State.nodesRef st' = State.nodesRef st
  /\ State.linksRef st' = State.linksRef st
  /\ State.transformRef st' = State.transformRef st
  /\ State.isDragging st' = State.isDragging st
  /\ State.dragNode st' = State.dragNode st
  /\ State.published st' = State.published st
  /\ (State.simulationActiveRef st = false -> State.isDragging st = false ->
      st' = st).
Proof.
  cbv zeta.
  destruct (physicsUpdate_fields st) as (Hn & Hl & Ht & Hd & Hdn & _ & _ & Hp & _).
  split; [|split; [|repeat (split; [assumption|])]].
  - eapply Forall2_impl; [apply physicsUpdate_framed|]. now intros n n' [H _].
  - intros r Hr. now apply physicsUpdate_outside.
  - intros Ha Hdr. unfold physicsUpdate. now rewrite Ha, Hdr.
Qed.

Lemma existsb_loading (h : heap) pNodes r :
  r ∈ pNodes -> loadingIs true h r ->
  existsb (fun r => match h !! r with
                    | Some n => flag (PhysicsNode.isLoading n)
                    | None => false
                    end) pNodes = true.
Proof.
  intros Hr (n & Hn & Hl). apply existsb_exists. exists r.
  split; [now apply list_elem_of_In|]. now rewrite Hn, Hl.
Qed.

(** X5. The simulation does not go to sleep while a gesture is in progress
    or while a node of the store is waiting for its expansion: a frame
    that starts awake in such a state ends awake, however little the nodes
    move. *)
Theorem simulation_stays_awake_while_loading_or_dragging (st : State.t) :
  State.simulationActiveRef st = true ->
  State.isDragging st = true
  \/ (exists r, r ∈ State.nodesRef st /\ loadingIs true (State.objects st) r) ->
  State.simulationActiveRef (physicsUpdate st) = true.
Proof.
  intros Ha Hbusy. unfold physicsUpdate. rewrite Ha. cbn [orb].
  pose proof (fun r => integrateAll_loading true (State.nodesRef st)
                (Spring.springLinks (State.nodesRef st) (State.linksRef st)
                   (Repulsion.repelAll (State.nodesRef st) (State.objects st)))
                r) as Hi.
  destruct (Integration.integrateAll _ _) as [h e]. cbn [fst] in Hi.
  destruct Hbusy as [Hd|(r & Hr & Hl)].
  - cbn [State.isDragging State.set_objects]. rewrite Hd.
    cbn [negb andb]. rewrite andb_false_r. exact Ha.
  - rewrite (existsb_loading h (State.nodesRef st) r Hr).
    + cbn [negb]. rewrite andb_false_r. exact Ha.
    + now apply Hi, springLinks_loading, repelAll_loading.
Qed.

Lemma simulation_stays_awake_while_loading_or_dragging_witness :
  State.simulationActiveRef (physicsUpdate st_root_a) = true.
Proof.
  apply simulation_stays_awake_while_loading_or_dragging.
  - vm_compute. reflexivity.
  - right. exists 0%nat. split; [vm_compute; left|].
    eexists. split; vm_compute; reflexivity.
Defined.

Lemma snap_clamped v : clamped (Integration.snap v).
Proof.
  unfold Integration.snap, clamped.
  destruct (SFabs v <? Num.dec 2 10)%js eqn:E; [now left|right].
  destruct (Num.isNaN v) eqn:Hv; [now right|left].
  apply lt_false_le; [reflexivity|now destruct v|exact E].
Qed.

(** A component that is a number is 0 or at least 0.2 in magnitude. *)
Lemma clamped_number v :
  clamped v -> Num.isNaN v = false ->
  v = Num.ofZ 0 \/ (Num.dec 2 10 <=? SFabs v)%js = true.
Proof. intros [H|[H|H]] Hv; [now left|now right|congruence]. Qed.

(** X6. In a frame that runs, every node of the store that is not dragged
    is integrated exactly once (the store holding no object twice): each
    component of its new velocity is exactly 0, at least 0.2 in magnitude,
    or NaN, and its new position is its old position plus its new
    velocity. Repulsion and springs act on the velocity only. *)
Theorem frame_moves_a_free_node_by_its_clamped_velocity
    (st : State.t) (r : ref) (n : PhysicsNode.t) :
  State.simulationActiveRef st || State.isDragging st = true ->
  NoDup (State.nodesRef st) -> r ∈ State.nodesRef st ->
  deref st r = Some n -> flag (PhysicsNode.isDragging n) = false ->
  exists n',
    deref (physicsUpdate st) r = Some n'
    /\ clamped (PhysicsNode.vx n') /\ clamped (PhysicsNode.vy n')
    /\ PhysicsNode.x n' = (PhysicsNode.x n + PhysicsNode.vx n')%js
    /\ PhysicsNode.y n' = (PhysicsNode.y n + PhysicsNode.vy n')%js.
Proof.
  intros Hrun Hnd Hr Hn Hd. unfold deref in *.
  rewrite physicsUpdate_objects, Hrun.
  destruct (Forall2_lookup_l _ _ _ _ _
              (forces_forced (State.nodesRef st) (State.linksRef st)
                             (State.objects st)) Hn)
    as (n1 & Hn1 & (vx & vy & ->) & _).
  exists (Integration.integrate (PhysicsNode.set_vel vx vy n)).
  split; [|split; [apply snap_clamped|split; [apply snap_clamped|split; reflexivity]]].
  unfold frameHeap, Integration.integrateAll.
  now apply integrate_fold_once.
Qed.

Lemma frame_moves_a_free_node_by_its_clamped_velocity_witness :
  exists n', deref (physicsUpdate st_one_child) 1%nat = Some n'
             /\ clamped (PhysicsNode.vx n').
Proof.
  edestruct (frame_moves_a_free_node_by_its_clamped_velocity st_one_child 1%nat)
    as (n' & Hn' & Hvx & _);
    [vm_compute; reflexivity
    |vm_compute; apply NoDup_cons; split; [|apply NoDup_singleton];
     intros H%list_elem_of_singleton; discriminate H
    |vm_compute; right; left
    |vm_compute; reflexivity
    |vm_compute; reflexivity
    |exists n'; split; assumption].
Defined.

(** ** A drag and the frames in between *)

Lemma dragging_view r s s' : dragView r s = dragView r s' -> dragging r s -> dragging r s'.
Proof.
  unfold dragView, dragging. intros [= Hn _ _ Hd Hdn] (H1 & H2 & n & H3 & H4).
  rewrite <- Hd, <- Hdn, <- Hn. eauto.
Qed.

Lemma frame_dragView r st :
  dragging r st -> dragView r (physicsUpdate st) = dragView r st.
Proof.
  intros (_ & _ & n & Hn & Hd). unfold dragView.
  destruct (physicsUpdate_fields st) as (_ & _ & -> & -> & -> & -> & _).
  unfold deref in *.
  destruct (Forall2_lookup_l _ _ _ _ _ (physicsUpdate_framed st) Hn)
    as (n' & Hn' & _ & Hfz).
  now rewrite Hn', Hn, (Hfz Hd).
Qed.

Lemma move_dragView canvas e r s s' :
  dragging r s -> dragView r s = dragView r s' ->
  dragView r (handleMouseMove canvas e s) = dragView r (handleMouseMove canvas e s')
  /\ dragging r (handleMouseMove canvas e s)
  /\ State.transformRef (handleMouseMove canvas e s) = State.transformRef s.
Proof.
  intros Hs Hv. pose proof (dragging_view r s s' Hv Hs) as Hs'.
  destruct Hs as (Hd & Hdn & n & Hn & Hf).
  destruct Hs' as (Hd' & Hdn' & n' & Hn' & _).
  injection Hv as Hnn Hl Ht _ _. rewrite Hn, Hn' in Hnn. injection Hnn as <-.
  assert (Hmove : forall st, State.isDragging st = true ->
            State.dragNode st = Some r -> deref st r = Some n ->
            dragView r (handleMouseMove canvas e st)
            = (Some (PhysicsNode.set_vel (Num.ofZ 0) (Num.ofZ 0)
                 (PhysicsNode.set_pos
                    (PhysicsNode.x n
                     + (MouseEvent.clientX e - Point.x (State.lastMousePos st))
                       / Transform.k (State.transformRef st))%js
                    (PhysicsNode.y n
                     + (MouseEvent.clientY e - Point.y (State.lastMousePos st))
                       / Transform.k (State.transformRef st))%js n)),
               Point.mk (MouseEvent.clientX e) (MouseEvent.clientY e),
               State.transformRef st, true, Some r)).
  { intros st H1 H2 H3. unfold handleMouseMove, dragView. rewrite H1. cbn [negb].
    cbn [State.dragNode State.set_lastMousePos State.set_cursor]. rewrite H2.
    unfold deref in *.
    cbn [State.objects State.set_simulationActiveRef].
    rewrite !objects_mutate.
    cbn [State.lastMousePos State.transformRef State.isDragging State.dragNode
         State.set_simulationActiveRef mutate State.set_objects
         State.set_lastMousePos State.set_cursor].
    rewrite H1, H2.
    cbn [State.objects State.set_lastMousePos State.set_cursor].
    now rewrite !list_lookup_alter_eq, H3. }
  pose proof (Hmove s Hd Hdn Hn) as E. pose proof (Hmove s' Hd' Hdn' Hn') as E'.
  split; [rewrite E, E'; now rewrite Hl, Ht|].
  injection E as En _ Et Ed Edn. split; [|exact Et].
  split; [exact Ed|]. split; [exact Edn|]. eexists. split; [exact En|exact Hf].
Qed.

Lemma run_cons ev evs st : run (ev :: evs) st = run evs (step ev st).
Proof. reflexivity. Qed.

(** X7. While a node is held, frames do not interfere with the drag: after
    any interleaving of animation frames and pointer moves the node is
    exactly where the pointer moves alone would have put it, with the
    velocity they gave it, and the viewport is what it was when the drag
    began. *)
Theorem frames_do_not_disturb_a_drag (evs : list Event) (st : State.t) (r : ref) :
  forallb frameOrMove evs = true ->
  dragging r st ->
  deref (run evs st) r = deref (run (List.filter isMove evs) st) r
  /\ State.transformRef (run evs st) = State.transformRef st.
Proof.
  intros Hevs Hd.
  enough (H : forall s s', dragging r s -> dragView r s = dragView r s' ->
                dragView r (run evs s) = dragView r (run (List.filter isMove evs) s')
                /\ State.transformRef (run evs s) = State.transformRef s).
  { destruct (H st st Hd eq_refl) as [[= Hn _ _ _ _] Ht]. auto. }
  induction evs as [|ev evs IH]; intros s s' Hs Hv; [now split|].
  cbn [forallb] in Hevs. apply andb_prop in Hevs as [Hev Hevs].
  destruct ev; try discriminate Hev; cbn [List.filter isMove];
    rewrite ?run_cons; cbn [step].
  - destruct (move_dragView canvas e r s s' Hs Hv) as (Hv' & Hs' & Ht).
    destruct (IH Hevs _ _ Hs' Hv') as [H1 H2]. split; [exact H1|congruence].
  - pose proof (frame_dragView r s Hs) as Hf.
    assert (Hs' : dragging r (physicsUpdate s))
      by (apply (dragging_view r s); [now symmetry|exact Hs]).
    destruct (IH Hevs (physicsUpdate s) s' Hs' ltac:(congruence)) as [H1 H2].
    split; [exact H1|]. injection Hf as _ _ Ht _ _. congruence.
Qed.

(** The child of [st_one_child] is held and moved 10 pixels to the right
    between two frames; a frame alone would have moved it, had it been
    free. *)
Lemma frames_do_not_disturb_a_drag_witness :
  deref (run [Frame; MouseMove canvas0 (mouseAt 618 300); Frame] st_child_pressed)
        1%nat
  = deref (run [MouseMove canvas0 (mouseAt 618 300)] st_child_pressed) 1%nat
  /\ deref (run [Frame] st_one_child) 1%nat <> deref st_one_child 1%nat
  /\ deref (run [Frame; MouseMove canvas0 (mouseAt 618 300); Frame]
                st_child_pressed) 0%nat
     <> deref (run [MouseMove canvas0 (mouseAt 618 300)] st_child_pressed) 0%nat.
Proof.
  split.
  - refine (proj1 (frames_do_not_disturb_a_drag
                     [Frame; MouseMove canvas0 (mouseAt 618 300); Frame]
                     st_child_pressed 1%nat _ _)).
    + reflexivity.
    + split; [vm_compute; reflexivity|]. split; [vm_compute; reflexivity|].
      eexists. split; vm_compute; reflexivity.
  - split; vm_compute; discriminate.
Defined.


(** ** [trim] *)

Lemma trimStart_nil s : trimStart s = [] <-> blank s.
Proof.
  induction s as [|c s IH]; cbn [trimStart]; [split; [constructor|reflexivity]|].
  destruct (is_whitespace c) eqn:E.
  - rewrite IH. split; [now constructor|now inversion 1].
  - split; [discriminate|]. inversion 1; congruence.
Qed.

Lemma trimStart_head s c t : trimStart s = c :: t -> is_whitespace c = false.
Proof.
  induction s as [|c' s IH]; cbn [trimStart]; [discriminate|].
  destruct (is_whitespace c') eqn:E; [exact IH|]. now intros [= <- _].
Qed.

Lemma trimStart_fixed c t : is_whitespace c = false -> trimStart (c :: t) = c :: t.
Proof. intros H. cbn [trimStart]. now rewrite H. Qed.

Lemma trimStart_idem s : trimStart (trimStart s) = trimStart s.
Proof.
  destruct (trimStart s) as [|c t] eqn:E; [reflexivity|].
  apply trimStart_fixed. now apply (trimStart_head s c t).
Qed.

Lemma trimStart_snoc s c :
  is_whitespace c = false -> trimStart (s ++ [c]) = trimStart s ++ [c].
Proof.
  intros H. induction s as [|c' s IH]; cbn [trimStart app]; [now rewrite H|].
  now destruct (is_whitespace c').
Qed.

(** A text is blank to [trim] exactly when it is made of white space. *)
Lemma trim_nil s : trim s = [] <-> blank s.
Proof.
  unfold trim. rewrite <- trimStart_nil.
  destruct (trimStart s) as [|c t] eqn:E; [now split|].
  pose proof (trimStart_head s c t E) as Hc.
  rewrite reverse_cons, trimStart_snoc, reverse_snoc by exact Hc.
  split; discriminate.
Qed.

(** What [trim] returns neither starts nor ends with white space, so
    trimming it again changes nothing. *)
Lemma trim_idem s : trim (trim s) = trim s.
Proof.
  unfold trim. destruct (trimStart s) as [|c t] eqn:E; [reflexivity|].
  pose proof (trimStart_head s c t E) as Hc.
  rewrite reverse_cons, trimStart_snoc, reverse_snoc by exact Hc.
  rewrite (trimStart_fixed c _ Hc), reverse_cons, reverse_involutive.
  now rewrite trimStart_snoc, trimStart_idem, reverse_snoc by exact Hc.
Qed.

(** ** [startRoot] *)

Lemma startRoot_begin_blank text now st :
  blank text -> startRoot_begin text now st = (st, None).
Proof.
  intros H%trim_nil. unfold startRoot_begin.
  now rewrite bool_decide_eq_true_2.
Qed.

Lemma startRoot_begin_fresh text now st :
  ~ blank text ->
  let root := length (State.objects st) in
  let rootNode :=
    PhysicsNode.set_isLoading true
      (createPhysicsNode
         (MindMapNode.mk (lit "root-" ++ decimal now) text Text None 0 [] None
                         (Some false) (Some true) None (Some Root))
         (Num.ofZ 0) (Num.ofZ 0)) in
  startRoot_begin text now st
  = (setTick
       (State.set_simulationActiveRef true
          (State.set_objects (State.objects st ++ [rootNode])
             (State.set_nodesRef [root]
                (State.set_transformRef Transform.identity
                   (State.set_linksRef []
                      (State.set_isInitializing true st)))))),
     Some root).
Proof.
  intros Hb root rootNode. unfold startRoot_begin.
  rewrite bool_decide_eq_false_2 by (now rewrite trim_nil).
  unfold alloc, expandNode_begin, deref.
  cbn [State.objects State.nodesRef State.linksRef State.set_objects
       State.set_nodesRef State.set_linksRef State.set_transformRef
       State.set_simulationActiveRef State.set_isInitializing find_by_id].
  rewrite (list_lookup_middle _ [] _ _ eq_refl).
  cbn [PhysicsNode.id PhysicsNode.base createPhysicsNode].
  rewrite str_eqb_refl, (list_lookup_middle _ [] _ _ eq_refl).
  cbn [PhysicsNode.isLoading PhysicsNode.base createPhysicsNode
       MindMapNode.isLoading flag default existsb orb].
  unfold mutate, setTick.
  cbn [State.objects State.nodesRef State.linksRef State.set_objects
       State.set_nodesRef State.set_linksRef State.set_transformRef
       State.set_simulationActiveRef State.set_isInitializing State.set_tick
       State.transformRef State.simulationActiveRef State.isDragging
       State.dragNode State.lastMousePos State.startDragPos State.cursor
       State.isInitializing State.infoNode State.toast State.toastTimer
       State.tick State.published].
  rewrite alter_app_r_alt, Nat.sub_diag by reflexivity.
  reflexivity.
Qed.

(** X8. [startRoot] does nothing at all for a text made of white space
    only (the empty text included). For any other text, and whatever the
    component held before, it empties the store and the links, resets the
    viewport, wakes the simulation and leaves one new node in the store:
    the root, at the origin and at rest, of level 0, with the text as it
    was typed, marked as loading, for which the provider has been called.
    The objects of the previous graph stay allocated, untouched. *)
Theorem startRoot_resets_the_store (text : jsstring) (now : Z) (st : State.t) :
  (blank text -> startRoot_begin text now st = (st, None))
  /\ (~ blank text ->
      exists st1 rootNode,
        startRoot_begin text now st = (st1, Some (length (State.objects st)))
        /\ State.objects st1 = State.objects st ++ [rootNode]
        /\ State.nodesRef st1 = [length (State.objects st)]
        /\ State.linksRef st1 = []
        /\ State.transformRef st1 = Transform.identity
        /\ State.simulationActiveRef st1 = true
        /\ State.isInitializing st1 = true
        /\ State.published st1 = State.published st
        /\ PhysicsNode.id rootNode = lit "root-" ++ decimal now
        /\ PhysicsNode.text rootNode = text
        /\ PhysicsNode.level rootNode = 0
        /\ PhysicsNode.parentId rootNode = None
        /\ PhysicsNode.isLoading rootNode = Some true
        /\ PhysicsNode.x rootNode = Num.ofZ 0
        /\ PhysicsNode.y rootNode = Num.ofZ 0
        /\ PhysicsNode.vx rootNode = Num.ofZ 0
        /\ PhysicsNode.vy rootNode = Num.ofZ 0).
Proof.
  split; [apply startRoot_begin_blank|]. intros Hb.
  rewrite (startRoot_begin_fresh text now st Hb).
  eexists _, _. split; [reflexivity|]. repeat split.
Qed.

(** ** The image upload *)

Section ImageAnalysisFacts.

Import Provider ImageAnalysis.

Variable toLowerCase : jsstring -> jsstring.

Lemma label_art_trimmed : trim label_art = label_art.
Proof. vm_compute. reflexivity. Qed.

Lemma label_creative_trimmed : trim label_creative = label_creative.
Proof. vm_compute. reflexivity. Qed.

Lemma execute_trimmed call analysis :
  ImageAnalysis.execute call = Ok analysis ->
  trim analysis = analysis /\ analysis <> [].
Proof.
  destruct call as [e|[text|]]; cbn [ImageAnalysis.execute]; [discriminate| |].
  - destruct (trim text) as [|c t] eqn:E; intros [= <-].
    + split; [apply label_art_trimmed|discriminate].
    + split; [|discriminate]. rewrite <- E. apply trim_idem.
  - intros [= <-]. split; [apply label_art_trimmed|discriminate].
Qed.

Lemma analyzeStartImage_trimmed primary secondary :
  let analysis := analyzeStartImage toLowerCase primary secondary in
  trim analysis = analysis /\ analysis <> [].
Proof.
  cbv zeta. unfold analyzeStartImage, withFallback.
  destruct (ImageAnalysis.execute primary) as [a|e] eqn:Hp.
  - now apply (execute_trimmed primary).
  - destruct (shouldFallback toLowerCase e).
    + destruct (ImageAnalysis.execute secondary) as [a|e'] eqn:Hs.
      * now apply (execute_trimmed secondary).
      * split; [apply label_creative_trimmed|discriminate].
    + split; [apply label_creative_trimmed|discriminate].
Qed.

(** X9. Once the image has been resized, [analyzeStartImage] never
    answers with a blank: what it returns is the model's answer trimmed of
    white space when there is one, and one of two fixed labels otherwise
    ("艺术设计" for an answer that is missing or blank, "创意设计" when the
    calls fail). So the analysis of an uploaded image always starts a new
    graph: [startRoot] accepts it whatever the models did, the store
    becomes the one root node carrying it, and the provider is called for
    that node. *)
Theorem uploaded_image_always_starts_a_root
    (primary secondary : CallOutcome) (now : Z) (st : State.t) :
  let analysis := analyzeStartImage toLowerCase primary secondary in
  trim analysis = analysis
  /\ analysis <> []
  /\ (analysis = label_art \/ analysis = label_creative
      \/ exists text, (primary = CallResponds (Some text)
                       \/ secondary = CallResponds (Some text))
                      /\ analysis = trim text)
  /\ exists st1 rootNode,
       handleImageUpload_analysed analysis now st
       = (st1, Some (length (State.objects st)))
       /\ State.objects st1 = State.objects st ++ [rootNode]
       /\ State.nodesRef st1 = [length (State.objects st)]
       /\ PhysicsNode.text rootNode = analysis
       /\ PhysicsNode.isLoading rootNode = Some true.
Proof.
  cbv zeta.
  destruct (analyzeStartImage_trimmed primary secondary) as [Ht Hne].
  split; [exact Ht|]. split; [exact Hne|]. split.
  - unfold analyzeStartImage, withFallback.
    assert (Hex : forall call a, ImageAnalysis.execute call = Ok a ->
              a = label_art \/ exists text, call = CallResponds (Some text)
                                            /\ a = trim text).
    { intros [e|[text|]] a; cbn [ImageAnalysis.execute]; [discriminate| |].
      - destruct (trim text) as [|c t] eqn:E; intros [= <-]; [now left|].
        right. exists text. now rewrite E.
      - intros [= <-]. now left. }
    destruct (ImageAnalysis.execute primary) as [a|e] eqn:Hp.
    + destruct (Hex primary a Hp) as [->|(text & -> & ->)]; [now left|].
      right. right. exists text. auto.
    + destruct (shouldFallback toLowerCase e); [|now right; left].
      destruct (ImageAnalysis.execute secondary) as [a|e'] eqn:Hs;
        [|now right; left].
      destruct (Hex secondary a Hs) as [->|(text & -> & ->)]; [now left|].
      right. right. exists text. auto.
  - unfold handleImageUpload_analysed.
    rewrite startRoot_begin_fresh by (now rewrite <- trim_nil, Ht).
    eexists _, _. split; [reflexivity|]. repeat split.
Qed.

End ImageAnalysisFacts.

(** ** The store in every reachable state *)

Lemma storeOk_same st st' :
  State.nodesRef st' = State.nodesRef st ->
  length (State.objects st') = length (State.objects st) ->
  storeOk st -> storeOk st'.
Proof. unfold storeOk. intros -> ->. auto. Qed.

Lemma expandNode_begin_store node st :
  State.nodesRef (fst (expandNode_begin node st)) = State.nodesRef st
  /\ State.linksRef (fst (expandNode_begin node st)) = State.linksRef st
  /\ length (State.objects (fst (expandNode_begin node st)))
     = length (State.objects st).
Proof.
  unfold expandNode_begin.
  destruct (deref st node) as [arg|]; [|now auto].
  destruct (find_by_id _ _ _) as [cur|]; [|now auto].
  destruct (deref st cur) as [currentNode|]; [|now auto].
  destruct (flag _ || existsb _ _); [now auto|].
  cbn. now rewrite length_alter.
Qed.

Lemma handleMouseUp_store e st :
  State.nodesRef (fst (handleMouseUp e st)) = State.nodesRef st
  /\ length (State.objects (fst (handleMouseUp e st))) = length (State.objects st).
Proof.
  unfold handleMouseUp. cbn [State.dragNode State.set_cursor State.set_isDragging].
  destruct (State.dragNode st) as [node|]; [|now split].
  set (st1 := State.set_dragNode None _).
  assert (H1 : State.nodesRef st1 = State.nodesRef st
               /\ length (State.objects st1) = length (State.objects st)).
  { subst st1. cbn. now rewrite length_alter. }
  destruct (moveDist e st1 <? CLICK_THRESHOLD)%js; [|exact H1].
  destruct (MouseEvent.shiftKey e).
  - cbn. rewrite length_alter. exact H1.
  - destruct (bool_decide _); [exact H1|].
    destruct (expandNode_begin_store node st1) as (-> & _ & ->). exact H1.
Qed.

Lemma storeOk_root (st st' : State.t) :
  State.nodesRef st' = [length (State.objects st)] ->
  length (State.objects st') = S (length (State.objects st)) ->
  storeOk st'.
Proof.
  intros Hn Hl. unfold storeOk. rewrite Hn, Hl. split.
  - apply NoDup_singleton.
  - intros r ->%list_elem_of_singleton. lia.
Qed.

Lemma startRoot_begin_storeOk text now st :
  storeOk st -> storeOk (fst (startRoot_begin text now st)).
Proof.
  intros H. destruct (decide (blank text)) as [Hb|Hb].
  - now rewrite startRoot_begin_blank.
  - rewrite (startRoot_begin_fresh text now st Hb).
    apply (storeOk_root st); cbn; [reflexivity|].
    rewrite length_app. cbn. lia.
Qed.

Lemma expandNode_complete_storeOk env cur o st :
  storeOk st -> storeOk (expandNode_complete env cur o st).
Proof.
  intros H. unfold expandNode_complete.
  destruct o as [result|message|].
  2,3: apply (storeOk_same st); [reflexivity| |exact H]; cbn;
       now rewrite length_alter.
  destruct (deref st cur) as [currentNode|] eqn:Hcur.
  2:{ unfold applyResult. rewrite Hcur.
      apply (storeOk_same st); [reflexivity| |exact H]. cbn. now rewrite length_alter. }
  destruct (applyResult_fields env cur result st currentNode Hcur)
    as (Ho & Hr & _).
  set (data := newNodesData env currentNode result) in *.
  destruct (newPNodes_extends env currentNode (length data) data 0%nat
              (State.objects st)) as (h' & Hh' & Hbase & Hrefs).
  assert (Hlen : length h' = length data) by (now rewrite <- Hbase, length_map).
  destruct H as [Hnd Hlt]. unfold storeOk.
  cbn [syncNodesToGlobal mutate State.nodesRef State.objects
       State.set_published State.set_objects].
  rewrite Hr, Ho, Hrefs, Hh', !length_alter, length_app, Hlen. split.
  - apply NoDup_app. split; [exact Hnd|]. split; [|apply NoDup_seq].
    intros r Hr1 Hr2. apply Hlt in Hr1. apply elem_of_seq in Hr2. lia.
  - intros r [Hr1|Hr2]%elem_of_app.
    + apply Hlt in Hr1. lia.
    + apply elem_of_seq in Hr2. lia.
Qed.

Lemma step_storeOk ev st : storeOk st -> storeOk (step ev st).
Proof.
  intros H. destruct ev; cbn [step]; try exact H.
  - apply (storeOk_same st); [| |exact H].
    + unfold handleMouseDown. now destruct (hitTest _ _).
    + unfold handleMouseDown. destruct (hitTest _ _); cbn; [|reflexivity].
      now rewrite length_alter.
  - apply (storeOk_same st); [| |exact H]; unfold handleMouseMove;
      destruct (negb _); try reflexivity;
      cbn [State.dragNode State.set_lastMousePos State.set_cursor];
      destruct (State.dragNode st); try reflexivity.
    cbn. now rewrite !length_alter.
  - destruct (handleMouseUp_store e st) as [Hn Hl].
    now apply (storeOk_same st).
  - now apply startRoot_begin_storeOk.
  - now apply expandNode_complete_storeOk.
  - unfold startRoot_complete, startRoot_finally.
    apply (storeOk_same (expandNode_complete env cur o st));
      [| |now apply expandNode_complete_storeOk];
      destruct (expandNode_rejects o); try reflexivity.
    cbn. now rewrite length_alter.
  - unfold toastTimerFires. now destruct (State.toastTimer st).
  - destruct (physicsUpdate_fields st) as (Hn & _).
    apply (storeOk_same st); [exact Hn| |exact H].
    symmetry. eapply Forall2_length, physicsUpdate_framed.
Qed.

(** X10. In every state the component can reach from its mount, with or
    without a graph restored from the props, whatever the events and
    however the provider calls settle, the store array holds no node object
    twice and every entry of it is an allocated object. *)
Theorem store_holds_distinct_live_objects (evs : list Event) :
  storeOk (run evs State.initial)
  /\ (forall st, storeOk st -> storeOk (run evs st))
  /\ (forall random nodes initialized st,
        storeOk st ->
        storeOk (run evs (fst (restoreFromProps random nodes initialized st)))).
Proof.
  assert (H : forall st, storeOk st -> storeOk (run evs st)).
  { induction evs as [|ev evs IH]; intros st Hst; [exact Hst|].
    rewrite run_cons. apply IH. now apply step_storeOk. }
  split; [|split; [exact H|]].
  - apply H. split; [constructor|]. intros r Hr. inversion Hr.
  - intros random nodes initialized st Hst. apply H. unfold restoreFromProps.
    destruct (_ && _); [|exact Hst]. split; cbn; [apply NoDup_seq|].
    intros r Hr%elem_of_seq. rewrite length_app. lia.
Qed.

(** ** Clicks *)

(** Releasing the pointer where it was pressed is a click. *)
Lemma release_in_place_is_a_click (e : MouseEvent.t) (st : State.t) :
  isFinite (MouseEvent.clientX e) = true ->
  isFinite (MouseEvent.clientY e) = true ->
  State.startDragPos st
  = Point.mk (MouseEvent.clientX e) (MouseEvent.clientY e) ->
  isClick e st = true.
Proof.
  intros Hx Hy Hs. unfold isClick, moveDist. rewrite Hs. cbn [Point.x Point.y].
  rewrite (sub_diag_finite _ Hx), (sub_diag_finite _ Hy).
  vm_compute. reflexivity.
Qed.

Lemma elem_of_filter_bool {A} (f : A -> bool) (l : list A) (x : A) :
  x ∈ List.filter f l <-> x ∈ l /\ f x = true.
Proof.
  rewrite !list_elem_of_In. apply filter_In.
Qed.

Lemma hitTest_in_store pos st r : hitTest pos st = Some r -> r ∈ State.nodesRef st.
Proof.
  unfold hitTest. intros H. apply find_some in H as [H _].
  apply elem_of_reverse, list_elem_of_In, H.
Qed.

(** X11. A shift-click on a node (the pointer pressed on it and released
    at the same place with shift held) toggles the node's mark and does
    nothing else to the graph: the node is no longer dragged, no other
    object is written, no provider call is made, the store and the links
    are what they were, and the store is published once. The node is among
    the marked nodes the studio then receives exactly when the click has
    marked it. *)
Theorem shift_click_toggles_the_mark
    (canvas : Canvas.t) (e : MouseEvent.t) (st : State.t)
    (r : ref) (n : PhysicsNode.t) :
  isFinite (MouseEvent.clientX e) = true ->
  isFinite (MouseEvent.clientY e) = true ->
  MouseEvent.shiftKey e = true ->
  hitTest (getWorldPos canvas e st) st = Some r ->
  deref st r = Some n ->
  let released := handleMouseUp e (handleMouseDown canvas e st) in
  snd released = None
  /\ deref (fst released) r
     = Some (PhysicsNode.set_isMarked (negb (flag (PhysicsNode.isMarked n)))
               (PhysicsNode.set_isDragging false n))
  /\ (forall r', r' <> r -> deref (fst released) r' = deref st r')
  /\ State.nodesRef (fst released) = State.nodesRef st
  /\ State.linksRef (fst released) = State.linksRef st
  /\ State.published (fst released) = State.nodesRef st :: State.published st
  /\ State.isDragging (fst released) = false
  /\ State.dragNode (fst released) = None
  /\ (r ∈ markedNodes (fst released) <-> flag (PhysicsNode.isMarked n) = false).
Proof.
  intros Hx Hy Hshift Hhit Hn.
  remember (handleMouseDown canvas e st) as pressed eqn:Hp.
  intros released.
  assert (Hpressed : pressed
            = State.set_simulationActiveRef true
                (mutate r (PhysicsNode.set_isDragging true)
                   (State.set_dragNode (Some r)
                      (State.set_isDragging true
                         (State.set_startDragPos
                            (Point.mk (MouseEvent.clientX e) (MouseEvent.clientY e))
                            (State.set_lastMousePos
                               (Point.mk (MouseEvent.clientX e) (MouseEvent.clientY e))
                               st)))))).
  { rewrite Hp. unfold handleMouseDown.
    change (hitTest (getWorldPos canvas e st) (State.set_startDragPos _ _))
      with (hitTest (getWorldPos canvas e st) st).
    now rewrite Hhit. }
  assert (Hclick : isClick e pressed = true).
  { apply release_in_place_is_a_click; auto. now rewrite Hpressed. }
  assert (Hrel : released
            = (setTick
                 (syncNodesToGlobal
                    (mutate r (fun n => PhysicsNode.set_isMarked
                                          (negb (flag (PhysicsNode.isMarked n))) n)
                       (State.set_dragNode None
                          (mutate r (PhysicsNode.set_isDragging false)
                             (State.set_cursor (Some CursorGrab)
                                (State.set_isDragging false pressed)))))),
               None)).
  { subst released. unfold handleMouseUp.
    cbn [State.dragNode State.set_cursor State.set_isDragging].
    replace (State.dragNode pressed) with (Some r) by (now rewrite Hpressed).
    unfold isClick in Hclick.
    change (moveDist e (State.set_dragNode None _)) with (moveDist e pressed).
    now rewrite Hclick, Hshift. }
  assert (Hobj : State.objects (fst released)
            = alter (fun n => PhysicsNode.set_isMarked
                                (negb (flag (PhysicsNode.isMarked n))) n) r
                (alter (PhysicsNode.set_isDragging false) r
                   (alter (PhysicsNode.set_isDragging true) r (State.objects st))))
    by (now rewrite Hrel, Hpressed).
  assert (Hr : deref (fst released) r
            = Some (PhysicsNode.set_isMarked (negb (flag (PhysicsNode.isMarked n)))
                      (PhysicsNode.set_isDragging false n))).
  { unfold deref in *. now rewrite Hobj, !list_lookup_alter_eq, Hn. }
  assert (Hpub : State.published (fst released)
                 = State.nodesRef st :: State.published st)
    by (now rewrite Hrel, Hpressed).
  split; [now rewrite Hrel|]. split; [exact Hr|]. split.
  { intros r' Hne. unfold deref. rewrite Hobj.
    now rewrite !list_lookup_alter_ne by congruence. }
  split; [now rewrite Hrel, Hpressed|]. split; [now rewrite Hrel, Hpressed|].
  split; [exact Hpub|]. split; [now rewrite Hrel, Hpressed|].
  split; [now rewrite Hrel, Hpressed|].
  unfold markedNodes. rewrite Hpub. cbn [hd].
  rewrite elem_of_filter_bool, Hr.
  cbn [PhysicsNode.isMarked PhysicsNode.set_isMarked PhysicsNode.set_base
       PhysicsNode.base MindMapNode.isMarked MindMapNode.set_isMarked flag default].
  pose proof (hitTest_in_store _ _ _ Hhit).
  destruct (default false (PhysicsNode.isMarked n)) eqn:E;
    change (default false (PhysicsNode.isMarked n))
      with (flag (PhysicsNode.isMarked n)) in E; rewrite ?E; cbn [negb];
    unfold id; intuition congruence.
Qed.

Lemma shift_click_toggles_the_mark_witness :
  0%nat ∈ markedNodes
    (fst (handleMouseUp (MouseEvent.mk (Num.ofZ 400) (Num.ofZ 300) true)
            (handleMouseDown canvas0
               (MouseEvent.mk (Num.ofZ 400) (Num.ofZ 300) true) st_idle_a))).
Proof.
  edestruct (shift_click_toggles_the_mark canvas0
               (MouseEvent.mk (Num.ofZ 400) (Num.ofZ 300) true) st_idle_a 0%nat)
    as (_ & _ & _ & _ & _ & _ & _ & _ & Hm);
    [reflexivity|reflexivity|reflexivity
    |vm_compute; reflexivity|vm_compute; reflexivity|].
  apply Hm. vm_compute. reflexivity.
Defined.

(** ** Expansion: what a completion may change *)

Lemma find_by_id_alter f r (h : heap) refs i :
  (forall n, PhysicsNode.id (f n) = PhysicsNode.id n) ->
  find_by_id (alter f r h) refs i = find_by_id h refs i.
Proof.
  intros Hf. induction refs as [|r0 refs IH]; cbn [find_by_id]; [reflexivity|].
  destruct (decide (r = r0)) as [->|Hne].
  - rewrite list_lookup_alter_eq. destruct (h !! r0) as [n|]; cbn; [|exact IH].
    rewrite Hf, IH. reflexivity.
  - rewrite list_lookup_alter_ne by exact Hne. now rewrite IH.
Qed.

(** X12. The completion of an expansion only adds to the graph: the store
    array and the links keep their entries, in order, and gain the new ones
    at the end; of the objects that existed, only the expanded node is
    written, and of it only the loading flag and the list of children, so
    positions, velocities, marks and texts are kept; the viewport and the
    gesture in progress are not touched. *)
Theorem expansion_only_appends (env : Env.t) (cur : ref) (o : Outcome) (st : State.t) :
  let st' := expandNode_complete env cur o st in
  State.nodesRef st `prefix_of` State.nodesRef st'
  /\ State.linksRef st `prefix_of` State.linksRef st'
  /\ (forall r n, r <> cur -> deref st r = Some n -> deref st' r = Some n)
  /\ (forall n, deref st cur = Some n ->
        deref st' cur
        = Some (PhysicsNode.set_isLoading false
                  (match o with
                   | Resolved result =>
                       PhysicsNode.set_children
                         (map MindMapNode.id (newNodesData env n result)) n
                   | Threw _ | ThrewNullish => n
                   end)))
  /\ State.transformRef st' = State.transformRef st
  /\ State.isDragging st' = State.isDragging st
  /\ State.dragNode st' = State.dragNode st.
Proof.
  cbv zeta. unfold expandNode_complete, deref. destruct o as [result|message|].
  2,3: cbn [syncNodesToGlobal mutate setToast State.nodesRef State.linksRef
            State.objects State.transformRef State.isDragging State.dragNode
            State.set_published State.set_objects State.set_toast_fields deref];
       (split; [reflexivity|]); (split; [reflexivity|]);
       (split; [intros r n Hne Hn;
                now rewrite list_lookup_alter_ne by congruence|]);
       (split; [|repeat split]); intros n Hn;
       now rewrite list_lookup_alter_eq, Hn.
  destruct (deref st cur) as [currentNode|] eqn:Hcur.
  2:{ unfold applyResult. rewrite Hcur. unfold deref in Hcur.
      cbn [syncNodesToGlobal mutate State.nodesRef State.linksRef
           State.objects State.transformRef State.isDragging State.dragNode
           State.set_published State.set_objects].
      split; [reflexivity|]. split; [reflexivity|]. split.
      - intros r n Hne Hn. now rewrite list_lookup_alter_ne by congruence.
      - split; [congruence|repeat split]. }
  destruct (applyResult_fields env cur result st currentNode Hcur)
    as (Ho & Hr & Hl & _).
  set (data := newNodesData env currentNode result) in *.
  destruct (newPNodes_extends env currentNode (length data) data 0%nat
              (State.objects st)) as (h' & Hh' & _ & _).
  assert (Hrest : State.transformRef (applyResult env cur result st)
                  = State.transformRef st
                  /\ State.isDragging (applyResult env cur result st)
                     = State.isDragging st
                  /\ State.dragNode (applyResult env cur result st)
                     = State.dragNode st).
  { unfold applyResult. rewrite Hcur. fold data.
    destruct (length data =? 0)%nat;
      destruct (newPNodes env currentNode (length data) 0 data _);
      repeat split. }
  unfold deref in *.
  cbn [syncNodesToGlobal mutate State.nodesRef State.linksRef
       State.objects State.transformRef State.isDragging State.dragNode
       State.set_published State.set_objects].
  rewrite Hr, Hl, Ho, Hh'.
  split; [now apply prefix_app_r|]. split; [now apply prefix_app_r|]. split.
  - intros r n Hne Hn. rewrite !list_lookup_alter_ne by congruence.
    now apply lookup_app_l_Some.
  - split; [|exact Hrest]. intros n Hn. rewrite Hcur in Hn. injection Hn as <-.
    now rewrite !list_lookup_alter_eq, (lookup_app_l_Some _ _ _ _ Hcur).
Qed.

(** X13. A node that has been given children is never expanded again. Once
    a response with at least one string has been applied for a node, a
    request to expand any node carrying that node's id (the node itself,
    or a stale copy of it) is dropped: the provider is not called and the
    state is not changed. *)
Theorem expanded_node_is_not_expanded_again
    (env : Env.t) (cur : ref) (result : AssociationResponse.t) (st : State.t)
    (currentNode : PhysicsNode.t) (node : ref) (arg : PhysicsNode.t) :
  deref st cur = Some currentNode ->
  newNodesData env currentNode result <> [] ->
  let st' := expandNode_complete env cur (Resolved result) st in
  deref st' node = Some arg ->
  PhysicsNode.id arg = PhysicsNode.id currentNode ->
  expandNode_begin node st' = (st', None).
Proof.
  intros Hcur Hdata st' Harg Hid. unfold expandNode_begin. rewrite Harg.
  destruct (find_by_id _ _ _) as [c|] eqn:Hfind; [|reflexivity].
  apply find_by_id_Some in Hfind as (_ & nc & Hnc & Hidc).
  unfold deref. rewrite Hnc.
  assert (Hlinks : existsb (fun l => str_eqb (PhysicsLink.source l)
                                             (PhysicsNode.id nc))
                           (State.linksRef st') = true).
  { subst st'. unfold expandNode_complete.
    destruct (applyResult_fields env cur result st currentNode Hcur)
      as (_ & _ & Hl & _).
    cbn [syncNodesToGlobal mutate State.linksRef State.set_published
         State.set_objects].
    rewrite Hl, existsb_app. apply orb_true_iff. right.
    destruct (newNodesData env currentNode result) as [|d data];
      [contradiction|].
    cbn [map existsb PhysicsLink.source]. rewrite Hidc, Hid, str_eqb_refl.
    reflexivity. }
  now rewrite Hlinks, orb_true_r.
Qed.

Lemma expanded_node_is_not_expanded_again_witness :
  let st' := expandNode_complete env0 0%nat (Resolved carrotResponse) st_root_a in
  expandNode_begin 0%nat st' = (st', None).
Proof.
  eapply (expanded_node_is_not_expanded_again env0 0%nat carrotResponse st_root_a
            _ 0%nat _).
  - vm_compute. reflexivity.
  - vm_compute. discriminate.
  - vm_compute. reflexivity.
  - vm_compute. reflexivity.
Defined.

(** X14. An expansion that brought nothing can be tried again. When the
    call made for a node fails, or answers with no string at all, the
    completion leaves the store array and the links as they were before
    the request, and the next request to expand the node calls the
    provider again. *)
Theorem barren_expansion_can_be_retried
    (env : Env.t) (node cur : ref) (o : Outcome) (st st1 : State.t) :
  expandNode_begin node st = (st1, Some cur) ->
  barren o ->
  let st2 := expandNode_complete env cur o st1 in
  State.nodesRef st2 = State.nodesRef st
  /\ State.linksRef st2 = State.linksRef st
  /\ exists st3, expandNode_begin cur st2 = (st3, Some cur).
Proof.
  intros Hb Hbarren st2. unfold expandNode_begin in Hb.
  destruct (deref st node) as [arg|] eqn:Harg; [|discriminate Hb].
  destruct (find_by_id _ _ _) as [cur'|] eqn:Hfind; [|discriminate Hb].
  destruct (deref st cur') as [currentNode|] eqn:Hcur; [|discriminate Hb].
  destruct (flag (PhysicsNode.isLoading currentNode)) eqn:Hload;
    [discriminate Hb|].
  destruct (existsb _ _) eqn:Hkids; [discriminate Hb|].
  cbn [orb] in Hb. injection Hb as Hst1 <-. subst st1.
  pose proof (find_by_id_Some _ _ _ _ Hfind) as (_ & n0 & Hn0 & Hid).
  unfold deref in Hcur. rewrite Hcur in Hn0. injection Hn0 as <-.
  set (st1 := setTick _) in *.
  assert (Hcur1 : deref st1 cur'
                  = Some (PhysicsNode.set_isLoading true currentNode)).
  { unfold deref. subst st1. cbn. now rewrite list_lookup_alter_eq, Hcur. }
  assert (H2 : State.nodesRef st2 = State.nodesRef st
               /\ State.linksRef st2 = State.linksRef st
               /\ (forall i, find_by_id (State.objects st2) (State.nodesRef st) i
                             = find_by_id (State.objects st) (State.nodesRef st) i)
               /\ exists n2, State.objects st2 !! cur' = Some n2
                             /\ PhysicsNode.id n2 = PhysicsNode.id currentNode
                             /\ PhysicsNode.isLoading n2 = Some false).
  { subst st2. unfold expandNode_complete. destruct o as [result|message|].
    - destruct Hbarren as (Hu & Hs & Hd).
      destruct (applyResult_fields env cur' result st1 _ Hcur1)
        as (Ho & Hr & Hl & _).
      unfold newNodesData in Ho, Hr, Hl. rewrite Hu, Hs, Hd in Ho, Hr, Hl.
      cbn [processGroup app length newPNodes fst snd map] in Ho, Hr, Hl.
      rewrite app_nil_r in Hr, Hl.
      cbn [syncNodesToGlobal mutate State.nodesRef State.linksRef State.objects
           State.set_published State.set_objects].
      rewrite Hr, Hl, Ho. split; [reflexivity|]. split; [reflexivity|].
      subst st1. cbn [setTick State.objects State.set_tick
                      State.set_simulationActiveRef mutate State.set_objects].
      split; [intros i; now rewrite !find_by_id_alter by reflexivity|].
      eexists. rewrite !list_lookup_alter_eq, Hcur.
      split; [reflexivity|]. split; reflexivity.
    - subst st1. cbn. split; [reflexivity|]. split; [reflexivity|].
      split; [intros i; now rewrite !find_by_id_alter by reflexivity|].
      eexists. rewrite !list_lookup_alter_eq, Hcur.
      split; [reflexivity|]. split; reflexivity.
    - subst st1. cbn. split; [reflexivity|]. split; [reflexivity|].
      split; [intros i; now rewrite !find_by_id_alter by reflexivity|].
      eexists. rewrite !list_lookup_alter_eq, Hcur.
      split; [reflexivity|]. split; reflexivity. }
  destruct H2 as (Hn2 & Hl2 & Hfind2 & n2 & Hcur2 & Hid2 & Hload2).
  split; [exact Hn2|]. split; [exact Hl2|].
  rewrite Hid in Hkids.
  unfold expandNode_begin, deref. rewrite Hcur2. cbv beta iota.
  rewrite Hn2, Hfind2, Hid2, Hid, Hfind. cbv beta iota.
  rewrite Hcur2. cbv beta iota.
  rewrite Hload2, Hl2, Hid2, Hid, Hkids. cbn. eauto.
Qed.

Lemma barren_expansion_can_be_retried_witness :
  exists st3,
    expandNode_begin 0%nat
      (expandNode_complete env0 0%nat (Threw (lit "503"))
         (fst (expandNode_begin 0%nat st_idle_a)))
    = (st3, Some 0%nat).
Proof.
  refine (proj2 (proj2 (barren_expansion_can_be_retried env0 0%nat 0%nat
                          (Threw (lit "503")) st_idle_a
                          (fst (expandNode_begin 0%nat st_idle_a)) _ _))).
  - vm_compute. reflexivity.
  - exact I.
Defined.

(** ** Restoration from the props *)

Lemma restoreNodes_base random nodes : forall k,
  map PhysicsNode.base (restoreNodes random k nodes) = map PhysicsNode.base nodes.
Proof.
  induction nodes as [|n nodes IH]; intros k; cbn [restoreNodes map];
    [reflexivity|]. now rewrite IH.
Qed.

Lemma restoreNodes_at_rest random nodes : forall k,
  Forall (fun n => PhysicsNode.vx n = Num.ofZ 0 /\ PhysicsNode.vy n = Num.ofZ 0)
         (restoreNodes random k nodes).
Proof.
  induction nodes as [|n nodes IH]; intros k; cbn [restoreNodes];
    constructor; auto.
Qed.

Lemma rebuildLinks_spec (nodes : list PhysicsNode.t) (l : PhysicsLink.t) :
  l ∈ rebuildLinks nodes
  <-> exists child parent,
        child ∈ nodes /\ parent ∈ nodes
        /\ PhysicsNode.parentId child = Some (PhysicsNode.id parent)
        /\ PhysicsNode.id parent <> []
        /\ l = PhysicsLink.mk (PhysicsNode.id parent) (PhysicsNode.id child)
                              (Num.ofZ 1).
Proof.
  unfold rebuildLinks. rewrite list_elem_of_omap. split.
  - intros (child & Hchild & Hl).
    destruct (PhysicsNode.parentId child) as [p|] eqn:Hp; [|discriminate].
    destruct (negb (str_eqb p [])) eqn:Hne; [|discriminate].
    destruct (existsb _ nodes) eqn:Hex; [|discriminate].
    cbn [andb] in Hl. injection Hl as <-.
    apply existsb_exists in Hex as (parent & Hparent & Hid).
    apply str_eqb_eq in Hid. subst p.
    exists child, parent. split; [exact Hchild|].
    split; [now apply list_elem_of_In|]. split; [exact Hp|].
    split; [|reflexivity].
    intros E. rewrite E, str_eqb_refl in Hne. discriminate.
  - intros (child & parent & Hchild & Hparent & Hp & Hne & ->).
    exists child. split; [exact Hchild|]. rewrite Hp.
    replace (str_eqb (PhysicsNode.id parent) []) with false
      by (symmetry; apply bool_decide_eq_false_2; exact Hne).
    replace (existsb _ nodes) with true; [reflexivity|].
    symmetry. apply existsb_exists. exists parent.
    split; [now apply list_elem_of_In|apply str_eqb_refl].
Qed.

(** The objects a store of fresh allocations holds. *)
Lemma fresh_store (h restored : heap) (n : PhysicsNode.t) :
  n ∈ restored
  <-> exists r, r ∈ seq (length h) (length restored)
                /\ (h ++ restored) !! r = Some n.
Proof.
  rewrite list_elem_of_lookup. split.
  - intros (i & Hi). exists (length h + i)%nat. split.
    + apply elem_of_seq. apply lookup_lt_Some in Hi. lia.
    + now rewrite lookup_app_r, Nat.add_comm, Nat.add_sub by lia.
  - intros (r & Hr & Hn). apply elem_of_seq in Hr.
    exists (r - length h)%nat. now rewrite lookup_app_r in Hn by lia.
Qed.

Lemma find_by_id_found (h : heap) refs r n :
  r ∈ refs -> h !! r = Some n ->
  is_Some (find_by_id h refs (PhysicsNode.id n)).
Proof.
  intros Hr Hn. destruct (find_by_id h refs (PhysicsNode.id n)) eqn:E; [eauto|].
  now destruct (find_by_id_None h refs _ r n E Hr Hn).
Qed.

(** X15. When the component is mounted with a graph in its props, an
    empty store and no restoration done yet, the store is rebuilt from it:
    one new object per node of the props, in their order, with the data of
    that node (id, text, level, parent, marks) and at rest. The links are
    rebuilt from the parent ids: there is a link, of strength 1, from a
    restored node to another exactly when the second names the first as its
    parent, by a non-empty id; so both ends of every link are found in the
    store. The objects allocated before are not touched and the simulation
    is woken. With empty props, a store that is not empty, or once
    restoration has been done, the effect does nothing. *)
Theorem restored_links_join_restored_nodes
    (random : nat -> number) (nodes : list PhysicsNode.t) (st : State.t) :
  (nodes <> [] -> State.nodesRef st = [] ->
   let st' := fst (restoreFromProps random nodes false st) in
   snd (restoreFromProps random nodes false st) = true
   /\ State.simulationActiveRef st' = true
   /\ State.nodesRef st' = seq (length (State.objects st)) (length nodes)
   /\ (exists restored,
         State.objects st' = State.objects st ++ restored
         /\ map PhysicsNode.base restored = map PhysicsNode.base nodes
         /\ Forall (fun n => PhysicsNode.vx n = Num.ofZ 0
                             /\ PhysicsNode.vy n = Num.ofZ 0) restored)
   /\ (forall l,
         l ∈ State.linksRef st'
         <-> exists s t source target,
               s ∈ State.nodesRef st' /\ t ∈ State.nodesRef st'
               /\ deref st' s = Some source /\ deref st' t = Some target
               /\ PhysicsNode.parentId target = Some (PhysicsNode.id source)
               /\ PhysicsNode.id source <> []
               /\ l = PhysicsLink.mk (PhysicsNode.id source)
                                     (PhysicsNode.id target) (Num.ofZ 1))
   /\ (forall l, l ∈ State.linksRef st' ->
         is_Some (find_by_id (State.objects st') (State.nodesRef st')
                             (PhysicsLink.source l))
         /\ is_Some (find_by_id (State.objects st') (State.nodesRef st')
                                (PhysicsLink.target l))))
  /\ restoreFromProps random [] false st = (st, false)
  /\ restoreFromProps random nodes true st = (st, true)
  /\ (State.nodesRef st <> [] ->
      restoreFromProps random nodes false st = (st, false)).
Proof.
  split; [|split; [reflexivity|split]].
  - intros Hnodes Hstore. cbv zeta. unfold restoreFromProps.
    rewrite Hstore. destruct nodes as [|n0 nodes0] eqn:E; [contradiction|].
    rewrite <- E. clear Hnodes.
    replace (0 <? length nodes)%nat with true by (now rewrite E).
    cbn [length Nat.eqb andb negb fst snd].
    set (restored := restoreNodes random 0 nodes).
    assert (Hlen : length restored = length nodes).
    { rewrite <- (length_map PhysicsNode.base restored).
      unfold restored. now rewrite restoreNodes_base, length_map. }
    cbn [State.nodesRef State.linksRef State.objects State.simulationActiveRef
         State.set_simulationActiveRef State.set_linksRef State.set_nodesRef
         State.set_objects deref].
    assert (Hlinks : forall l,
              l ∈ rebuildLinks restored
              <-> exists s t source target,
                    s ∈ seq (length (State.objects st)) (length restored)
                    /\ t ∈ seq (length (State.objects st)) (length restored)
                    /\ (State.objects st ++ restored) !! s = Some source
                    /\ (State.objects st ++ restored) !! t = Some target
                    /\ PhysicsNode.parentId target = Some (PhysicsNode.id source)
                    /\ PhysicsNode.id source <> []
                    /\ l = PhysicsLink.mk (PhysicsNode.id source)
                                          (PhysicsNode.id target) (Num.ofZ 1)).
    { intros l. rewrite rebuildLinks_spec. split.
      - intros (child & parent & Hc & Hp & H).
        apply (fresh_store (State.objects st)) in Hc as (t & Ht & Hct).
        apply (fresh_store (State.objects st)) in Hp as (s & Hs & Hps).
        exists s, t, parent, child. auto.
      - intros (s & t & source & target & Hs & Ht & Hsn & Htn & H).
        exists target, source.
        split; [apply (fresh_store (State.objects st)); eauto|].
        split; [apply (fresh_store (State.objects st)); eauto|exact H]. }
    split; [reflexivity|]. split; [reflexivity|].
    split; [now rewrite Hlen|]. split.
    { exists restored. split; [reflexivity|].
      split; [apply restoreNodes_base|apply restoreNodes_at_rest]. }
    split; [exact Hlinks|].
    intros l (s & t & source & target & Hs & Ht & Hsn & Htn & _ & _ & ->)%Hlinks.
    cbn [PhysicsLink.source PhysicsLink.target].
    split; [apply (find_by_id_found _ _ s source)
           |apply (find_by_id_found _ _ t target)]; assumption.
  - unfold restoreFromProps. now rewrite andb_false_r.
  - intros Hstore. unfold restoreFromProps.
    destruct (State.nodesRef st); [contradiction|].
    cbn [length Nat.eqb]. now rewrite andb_false_r.
Qed.

(** ** The provider wrapper: Markdown fences *)

Section Fences.

Import Provider.

Lemma startsWith_app pat s : startsWith pat (pat ++ s) = true.
Proof.
  induction pat as [|p pat IH]; [reflexivity|].
  cbn [startsWith app]. now rewrite N.eqb_refl.
Qed.

Lemma removeAll_go_skip pat p : forall s,
  removeAll_go pat (length p) (p ++ s) = removeAll_go pat 0 s.
Proof. induction p as [|c p IH]; intros s; [reflexivity|apply IH]. Qed.

(** A leading occurrence of the pattern is dropped. *)
Lemma removeAll_prefix c pat s :
  removeAll (c :: pat) ((c :: pat) ++ s) = removeAll (c :: pat) s.
Proof.
  unfold removeAll. cbn [app removeAll_go].
  change (c :: pat ++ s) with ((c :: pat) ++ s).
  rewrite startsWith_app. cbn [length pred]. apply removeAll_go_skip.
Qed.

(** Code units other than the first of the pattern are kept. *)
Lemma removeAll_keep c pat s t :
  c ∉ s -> removeAll (c :: pat) (s ++ t) = s ++ removeAll (c :: pat) t.
Proof.
  unfold removeAll. induction s as [|a s IH]; intros Hs; [reflexivity|].
  apply not_elem_of_cons in Hs as [Hne Hs].
  cbn [app removeAll_go startsWith].
  replace (c =? a)%N with false by (symmetry; now apply N.eqb_neq).
  cbn [andb]. now rewrite IH.
Qed.

Variable JSON_parse : jsstring -> Result JsonShape.

(** X16. An answer with no backtick in it reaches [JSON.parse] trimmed of
    its outer white space and otherwise as it is; an answer wrapped in a
    Markdown fence, [```json] before and [```] after a body with no
    backtick, reaches it as the trimmed body. *)
Theorem fenced_answer_is_unwrapped (body : jsstring) :
  backtick ∉ body ->
  cleanText body = trim body
  /\ cleanText (fence_json ++ body ++ fence) = trim body
  /\ execute JSON_parse (CallResponds (Some (fence_json ++ body ++ fence)))
     = JSON_parse (trim body).
Proof.
  intros Hb.
  assert (Hplain : forall c pat, c = backtick ->
            removeAll (c :: pat) body = body).
  { intros c pat ->. rewrite <- (app_nil_r body) at 1.
    rewrite removeAll_keep by exact Hb. cbn. apply app_nil_r. }
  assert (H1 : cleanText body = trim body).
  { unfold cleanText.
    change fence_json with (backtick :: lit "``json").
    change fence with (backtick :: lit "``").
    now rewrite !Hplain. }
  assert (H2 : cleanText (fence_json ++ body ++ fence) = trim body).
  { unfold cleanText. f_equal.
    change fence_json with (backtick :: lit "``json") at 1 2.
    rewrite removeAll_prefix, removeAll_keep by exact Hb.
    replace (removeAll (backtick :: lit "``json") fence) with fence
      by (vm_compute; reflexivity).
    change fence with (backtick :: lit "``") at 1.
    rewrite removeAll_keep by exact Hb.
    replace (removeAll (backtick :: lit "``") fence) with (@nil N)
      by (vm_compute; reflexivity).
    apply app_nil_r. }
  split; [exact H1|]. split; [exact H2|].
  change fence_json with (backtick :: lit "``json") at 1.
  cbn [execute app]. change (backtick :: lit "``json") with fence_json.
  exact (f_equal JSON_parse H2).
Qed.

End Fences.

Lemma fenced_answer_is_unwrapped_witness :
  Provider.cleanText (Provider.fence_json ++ lit " {} " ++ Provider.fence)
  = trim (lit " {} ").
Proof.
  refine (proj1 (proj2 (fenced_answer_is_unwrapped parse_nothing (lit " {} ") _))).
  vm_compute. intros H. repeat (apply elem_of_cons in H as [H|H]; [discriminate H|]).
  inversion H.
Defined.

(** ** Text layout: nothing is lost *)

Lemma join_space_cons a b ls :
  join_space (a :: b :: ls) = with_space a (join_space (b :: ls)).
Proof. reflexivity. Qed.

Lemma join_split_space s : join_space (split_space s) = s.
Proof.
  induction s as [|c s IH]; [reflexivity|]. cbn [split_space].
  destruct (c =? 32)%N eqn:E.
  - apply N.eqb_eq in E. subst c.
    pose proof (split_space_nonempty s) as Hne.
    destruct (split_space s) as [|w ws]; [contradiction|].
    rewrite join_space_cons, IH. reflexivity.
  - pose proof (split_space_nonempty s) as Hne.
    destruct (split_space s) as [|w ws]; [contradiction|].
    destruct ws as [|w' ws].
    + cbn in IH |- *. now rewrite IH.
    + rewrite join_space_cons in IH |- *. unfold with_space in *.
      cbn [app]. now rewrite IH.
Qed.

Lemma join_space_merge lines a b rest :
  join_space (lines ++ with_space a b :: rest)
  = join_space (lines ++ a :: b :: rest).
Proof.
  induction lines as [|l lines IH].
  - destruct rest as [|w ws]; [reflexivity|].
    cbn [app]. rewrite !join_space_cons. unfold with_space.
    now rewrite <- app_assoc.
  - destruct lines as [|l' lines]; cbn [app] in *; now rewrite !join_space_cons, IH.
Qed.

Lemma drawn_lines (x : number) (Y : nat -> number) (lines : list jsstring) :
  map (fun d => fst (fst d)) (imap (fun i line => (line, x, Y i)) lines) = lines.
Proof.
  revert Y. induction lines as [|a l IH]; intros Y; [reflexivity|].
  cbn [imap map fst]. f_equal. exact (IH (fun i => Y (S i))).
Qed.

Section Lossless.

Variable measure : jsstring -> number.
Variable maxWidth : number.

Lemma wordWrap_join words : forall lines currentLine,
  join_space (wordWrap measure maxWidth words lines currentLine)
  = join_space (lines ++ currentLine :: words).
Proof.
  induction words as [|word words IH]; intros lines cur; cbn [wordWrap];
    [reflexivity|].
  destruct (_ <? _)%js; rewrite IH.
  - apply join_space_merge.
  - now rewrite <- app_assoc.
Qed.

Lemma charWrap_concat chars : forall lines tempLine,
  concat (charWrap measure maxWidth chars lines tempLine)
  = concat lines ++ tempLine ++ chars.
Proof.
  induction chars as [|c chars IH]; intros lines temp; cbn [charWrap].
  - rewrite concat_app. cbn. now rewrite !app_nil_r.
  - destruct (_ <? _)%js; rewrite IH.
    + now rewrite <- app_assoc.
    + rewrite concat_app. cbn. now rewrite app_nil_r, <- app_assoc.
Qed.

(** X17. Wrapping a label loses nothing. Whatever the font and the width,
    the lines drawn for a label, joined by single spaces, give back the
    label when it is wrapped word by word; when it has no space in it they
    give it back put end to end. The lines are drawn in their order, one
    [fillText] each. *)
Theorem wrapping_loses_nothing (text : jsstring) (x y lineHeight : number) :
  let lines := wrapLines measure text maxWidth in
  join_space (split_space text) = text
  /\ (length (split_space text) <> 1%nat -> join_space lines = text)
  /\ (length (split_space text) = 1%nat -> concat lines = text)
  /\ map (fun d => fst (fst d))
         (drawWrappedText measure text x y maxWidth lineHeight) = lines.
Proof.
  cbv zeta. split; [apply join_split_space|].
  assert (Hdraw : map (fun d => fst (fst d))
                      (drawWrappedText measure text x y maxWidth lineHeight)
                  = wrapLines measure text maxWidth).
  { unfold drawWrappedText. apply drawn_lines. }
  revert Hdraw. generalize (drawWrappedText measure text x y maxWidth lineHeight).
  intros drawn Hdraw.
  pose proof (join_split_space text) as Hjoin.
  pose proof (split_space_nonempty text) as Hne.
  unfold wrapLines in *.
  destruct (split_space text) as [|w ws] eqn:E; [contradiction|].
  split; [|split; [|exact Hdraw]].
  - intros Hlen. apply Nat.eqb_neq in Hlen. rewrite Hlen. cbn [andb hd tl].
    now rewrite wordWrap_join.
  - intros Hlen. destruct ws; [|discriminate]. cbn in Hjoin. subst w.
    cbn [length Nat.eqb andb hd tl].
    destruct (5 <? length text)%nat; cbn [wordWrap app concat];
      [|now rewrite app_nil_r].
    destruct (_ >? _)%js; [|cbn; now rewrite app_nil_r].
    now rewrite charWrap_concat.
Qed.

End Lossless.

(** ** [urlToData]: the MIME type *)

(** X18. The MIME type [urlToData] hands on is never empty, never
    [application/octet-stream] and never the non-standard [image/jpg]. A
    type the blob declares is kept, [image/jpg] being read as
    [image/jpeg]; when the blob declares none, or only
    [application/octet-stream], the type is chosen by the extension of the
    URL among [image/png], [image/jpeg] and [image/webp], [image/jpeg]
    being the default. *)
Theorem detected_mime_is_normalised
    (toLowerCase : jsstring -> jsstring) (blobType url : jsstring) :
  let mime := detectedMime toLowerCase blobType url in
  mime <> [] /\ mime <> mime_octet_stream /\ mime <> mime_jpg
  /\ (blobType <> [] -> blobType <> mime_octet_stream -> blobType <> mime_jpg ->
      mime = blobType)
  /\ (blobType = mime_jpg -> mime = mime_jpeg)
  /\ (blobType = [] \/ blobType = mime_octet_stream ->
      mime = if endsWith (lit ".png") (toLowerCase url) then mime_png
             else if endsWith (lit ".webp") (toLowerCase url)
                     && negb (endsWith (lit ".jpg") (toLowerCase url))
                     && negb (endsWith (lit ".jpeg") (toLowerCase url))
                  then mime_webp
             else mime_jpeg).
Proof.
  cbv zeta. unfold detectedMime.
  destruct (str_eqb blobType []) eqn:E0;
    [|destruct (str_eqb blobType mime_octet_stream) eqn:E1]; cbn [orb].
  1,2: assert (Hb : blobType = [] \/ blobType = mime_octet_stream)
         by (first [left; now apply str_eqb_eq|right; now apply str_eqb_eq]);
       clear E0; try clear E1;
       destruct (endsWith (lit ".png") (toLowerCase url)),
         (endsWith (lit ".jpg") (toLowerCase url)),
         (endsWith (lit ".jpeg") (toLowerCase url)),
         (endsWith (lit ".webp") (toLowerCase url));
       cbn [orb andb negb];
       (split; [vm_compute; discriminate|]);
       (split; [vm_compute; discriminate|]);
       (split; [vm_compute; discriminate|]);
       (split; [intros H0 H1 _; destruct Hb; contradiction|]);
       (split; [intros ->; destruct Hb as [Hb|Hb]; vm_compute in Hb; discriminate Hb|]);
       intros _; vm_compute; reflexivity.
  assert (H0 : blobType <> []) by (intros H; apply str_eqb_eq in H; congruence).
  assert (H1 : blobType <> mime_octet_stream)
    by (intros H; apply str_eqb_eq in H; congruence).
  destruct (str_eqb blobType mime_jpg) eqn:E2.
  - apply str_eqb_eq in E2.
    split; [vm_compute; discriminate|]. split; [vm_compute; discriminate|].
    split; [vm_compute; discriminate|]. split; [intros _ _ H; contradiction|].
    split; [reflexivity|]. intros [H|H]; contradiction.
  - assert (H2 : blobType <> mime_jpg)
      by (intros H; apply str_eqb_eq in H; congruence).
    repeat (split; [assumption|]). split; [reflexivity|].
    split; [intros H; contradiction|]. intros [H|H]; contradiction.
Qed.

(** ** Expansion: the children of any response *)

Lemma newPNodes_created env parent total data : forall i (h : heap),
  exists h', fst (newPNodes env parent total i data h) = h ++ h'
             /\ Forall2 (fun c d => exists x y, c = createPhysicsNode d x y) h' data.
Proof.
  induction data as [|n data IH]; intros i h; cbn [newPNodes].
  - exists []. rewrite app_nil_r. split; [reflexivity|constructor].
  - unfold alloc. set (c := createPhysicsNode n _ _).
    destruct (IH (S i) (h ++ [c])) as (h' & Hh' & Hall).
    destruct (newPNodes env parent total (S i) data _) as [h2 rs].
    cbn [fst] in *. subst h2. exists (c :: h'). rewrite <- app_assoc.
    split; [reflexivity|]. constructor; [|exact Hall]. subst c. eauto.
Qed.

Lemma newNodesData_shape env parent result :
  Forall2 (fun d expected =>
             MindMapNode.text d = fst expected
             /\ MindMapNode.type d = Text
             /\ MindMapNode.level d = PhysicsNode.level parent + 1
             /\ MindMapNode.associationType d = Some (snd expected)
             /\ MindMapNode.parentId d = Some (PhysicsNode.id parent)
             /\ MindMapNode.children d = []
             /\ MindMapNode.isLoading d = None
             /\ MindMapNode.isMarked d = None)
          (newNodesData env parent result) (taggedTexts result).
Proof.
  assert (H : forall type texts idx k,
            Forall2 (fun d expected =>
                       MindMapNode.text d = fst expected
                       /\ MindMapNode.type d = Text
                       /\ MindMapNode.level d = PhysicsNode.level parent + 1
                       /\ MindMapNode.associationType d = Some (snd expected)
                       /\ MindMapNode.parentId d = Some (PhysicsNode.id parent)
                       /\ MindMapNode.children d = []
                       /\ MindMapNode.isLoading d = None
                       /\ MindMapNode.isMarked d = None)
                    (processGroup env parent type idx k texts)
                    (map (fun text => (text, type)) texts)).
  { intros type texts. induction texts as [|text texts IH]; intros idx k;
      cbn [processGroup map]; constructor; auto. repeat split. }
  unfold newNodesData, taggedTexts. repeat apply Forall2_app; apply H.
Qed.

(** X19. Whatever the response, its completion creates one child per
    string, in the order up, side, down: a text node one level below the
    expanded node, tagged with its group, naming the expanded node as its
    parent, childless, neither loading nor marked, at rest and not
    dragged. The children are allocated after the existing objects and
    enter the store in that order; each comes with a link of strength 1
    from the expanded node; and the expanded node's list of children is
    the list of their ids. *)
Theorem expansion_creates_one_child_per_string
    (env : Env.t) (cur : ref) (result : AssociationResponse.t) (st : State.t)
    (parent : PhysicsNode.t) :
  deref st cur = Some parent ->
  let st' := expandNode_complete env cur (Resolved result) st in
  let kids := drop (length (State.objects st)) (State.objects st') in
  Forall2 (childOf parent) kids (taggedTexts result)
  /\ length (State.objects st') = (length (State.objects st) + length kids)%nat
  /\ State.nodesRef st'
     = State.nodesRef st ++ seq (length (State.objects st)) (length kids)
  /\ State.linksRef st'
     = State.linksRef st
       ++ map (fun c => PhysicsLink.mk (PhysicsNode.id parent) (PhysicsNode.id c)
                                       (Num.ofZ 1)) kids
  /\ PhysicsNode.children <$> deref st' cur = Some (map PhysicsNode.id kids).
Proof.
  intros Hcur st' kids. subst kids st'. unfold expandNode_complete.
  destruct (applyResult_fields env cur result st parent Hcur)
    as (Ho & Hr & Hl & _).
  set (data := newNodesData env parent result) in *.
  destruct (newPNodes_extends env parent (length data) data 0%nat
              (State.objects st)) as (h' & Hh' & Hbase & Hrefs).
  destruct (newPNodes_created env parent (length data) data 0%nat
              (State.objects st)) as (h'' & Hh'' & Hcreated).
  rewrite Hh' in Hh''. apply app_inv_head in Hh''. subst h''.
  assert (Hlen : length h' = length data) by (now rewrite <- Hbase, length_map).
  pose proof (lookup_lt_Some _ _ _ Hcur) as Hlt.
  unfold deref in *.
  cbn [syncNodesToGlobal mutate State.nodesRef State.linksRef State.objects
       State.set_published State.set_objects].
  rewrite Hr, Hl, Ho, Hrefs, Hh'.
  rewrite !alter_app_l by (rewrite ?length_alter; exact Hlt).
  rewrite drop_app_length'
    by (now rewrite !length_alter).
  rewrite length_app, !length_alter, Hlen.
  split; [|split; [reflexivity|split; [reflexivity|split]]].
  - eapply Forall2_trans; [|exact Hcreated|apply newNodesData_shape].
    intros c d expected (x & y & ->) (H1 & H2 & H3 & H4 & H5 & H6 & H7 & H8).
    unfold childOf. repeat (split; [assumption|]). repeat split.
  - f_equal. rewrite <- Hbase, !map_map. reflexivity.
  - rewrite lookup_app_l by (now rewrite !length_alter).
    rewrite !list_lookup_alter_eq, Hcur. cbn. f_equal.
    rewrite <- Hbase, !map_map. reflexivity.
Qed.

Lemma expansion_creates_one_child_per_string_witness :
  let st' := expandNode_complete env0 0%nat (Resolved carrotResponse) st_root_a in
  PhysicsNode.children <$> deref st' 0%nat
  = Some (map PhysicsNode.id (drop (length (State.objects st_root_a))
                                   (State.objects st'))).
Proof.
  eapply (proj2 (proj2 (proj2 (proj2
            (expansion_creates_one_child_per_string env0 0%nat carrotResponse
               st_root_a _ _))))).
  Unshelve. 2: vm_compute; reflexivity.
Defined.

(** ** Panning *)

Lemma move_on_background canvas e st0 st :
  State.isDragging st = true -> State.dragNode st = None -> sameGraph st0 st ->
  State.isDragging (handleMouseMove canvas e st) = true
  /\ State.dragNode (handleMouseMove canvas e st) = None
  /\ sameGraph st0 (handleMouseMove canvas e st).
Proof.
  intros Hd Hn Hs. unfold handleMouseMove. rewrite Hd. cbn [negb].
  cbn [State.dragNode State.set_lastMousePos State.set_cursor]. rewrite Hn.
  split; [exact Hd|]. split; [exact Hn|exact Hs].
Qed.

(** X21. A gesture that starts on the background only pans. From the
    pointer-down on a place where no node is, through any number of
    pointer moves, to the pointer-up, no node object is written, the store,
    the links and the zoom are what they were, nothing is published and no
    provider call is made; each move, the first after the press as any
    later one, adds the displacement of the pointer since the previous
    event, in screen pixels, to the pan offset. *)
Theorem panning_changes_only_the_offset
    (canvas : Canvas.t) (e e' : MouseEvent.t) (moves : list Event)
    (st : State.t) :
  hitTest (getWorldPos canvas e st) st = None ->
  forallb isMove moves = true ->
  let pressed := handleMouseDown canvas e st in
  let panned := run moves pressed in
  let released := handleMouseUp e' panned in
  sameGraph st panned
  /\ State.isDragging panned = true /\ State.dragNode panned = None
  /\ sameGraph st (fst released)
  /\ snd released = None
  /\ State.isDragging (fst released) = false
  /\ State.transformRef (fst released) = State.transformRef panned
  /\ (forall canvas1 e1,
       State.transformRef (handleMouseMove canvas1 e1 pressed)
       = Transform.mk
           (Transform.x (State.transformRef st)
            + (MouseEvent.clientX e1 - MouseEvent.clientX e))%js
           (Transform.y (State.transformRef st)
            + (MouseEvent.clientY e1 - MouseEvent.clientY e))%js
           (Transform.k (State.transformRef st)))
  /\ (forall s canvas1 e1,
       State.isDragging s = true -> State.dragNode s = None ->
       State.transformRef (handleMouseMove canvas1 e1 s)
       = Transform.mk
           (Transform.x (State.transformRef s)
            + (MouseEvent.clientX e1 - Point.x (State.lastMousePos s)))%js
           (Transform.y (State.transformRef s)
            + (MouseEvent.clientY e1 - Point.y (State.lastMousePos s)))%js
           (Transform.k (State.transformRef s))
       /\ State.lastMousePos (handleMouseMove canvas1 e1 s)
          = Point.mk (MouseEvent.clientX e1) (MouseEvent.clientY e1)).
Proof.
  intros Hhit Hmoves pressed panned released.
  assert (Hpressed : pressed
            = State.set_dragNode None
                (State.set_isDragging true
                   (State.set_startDragPos
                      (Point.mk (MouseEvent.clientX e) (MouseEvent.clientY e))
                      (State.set_lastMousePos
                         (Point.mk (MouseEvent.clientX e) (MouseEvent.clientY e))
                         st)))).
  { subst pressed. unfold handleMouseDown.
    change (hitTest (getWorldPos canvas e st) (State.set_startDragPos _ _))
      with (hitTest (getWorldPos canvas e st) st).
    now rewrite Hhit. }
  assert (H : forall s, State.isDragging s = true -> State.dragNode s = None ->
                sameGraph st s ->
                State.isDragging (run moves s) = true
                /\ State.dragNode (run moves s) = None
                /\ sameGraph st (run moves s)).
  { clear Hpressed panned released. induction moves as [|ev moves IH];
      intros s Hd Hn Hs; [now auto|].
    cbn [forallb] in Hmoves. apply andb_prop in Hmoves as [Hev Hmoves].
    destruct ev; try discriminate Hev. rewrite run_cons. cbn [step].
    match goal with
    | |- context [handleMouseMove ?c ?m s] =>
        destruct (move_on_background c m st s Hd Hn Hs) as (Hd' & Hn' & Hs')
    end.
    now apply IH. }
  destruct (H pressed) as (Hd & Hn & Hs).
  { now rewrite Hpressed. } { now rewrite Hpressed. }
  { rewrite Hpressed. repeat split. }
  fold panned in Hd, Hn, Hs.
  assert (Hrel : released
                 = (State.set_cursor (Some CursorGrab)
                      (State.set_isDragging false panned), None)).
  { subst released. unfold handleMouseUp.
    cbn [State.dragNode State.set_cursor State.set_isDragging].
    now rewrite Hn. }
  split; [exact Hs|]. split; [exact Hd|]. split; [exact Hn|].
  rewrite Hrel. cbn [fst snd].
  split; [exact Hs|]. split; [reflexivity|]. split; [reflexivity|].
  split; [reflexivity|].
  split; [intros canvas1 e1; now rewrite Hpressed|].
  intros s canvas1 e1 Hd' Hn'. unfold handleMouseMove. rewrite Hd'. cbn [negb].
  cbn [State.dragNode State.set_lastMousePos State.set_cursor]. rewrite Hn'.
  split; reflexivity.
Qed.

Lemma panning_changes_only_the_offset_witness :
  sameGraph st_idle_a
    (fst (handleMouseUp (mouseAt 60 40)
            (run [MouseMove canvas0 (mouseAt 30 20); MouseMove canvas0 (mouseAt 60 40)]
                 (handleMouseDown canvas0 (mouseAt 10 10) st_idle_a)))).
Proof.
  refine (proj1 (proj2 (proj2 (proj2
            (panning_changes_only_the_offset canvas0 (mouseAt 10 10) (mouseAt 60 40)
               [MouseMove canvas0 (mouseAt 30 20); MouseMove canvas0 (mouseAt 60 40)]
               st_idle_a _ _))))).
  - vm_compute. reflexivity.
  - reflexivity.
Defined.
